(** * Altair FDC+ serial disk server: the protocol engine of fdc.cpp

    A shallow embedding of [class FDC] (fdc.h, fdc.cpp): the framer
    [readData], the handlers [statResponse], [readTrack], [writeResponse],
    [writeTrack], the drive table with [updateTrack], [mountDisk],
    [unmountDisk], and the link supervisor [openPort], [closePort],
    [setBaud], [timeoutSlot].

    Integers are [Z] with the C++ conversions written out; the byte buffers
    are lists of bytes of their declared size; the Qt objects the class
    talks to (the files, the serial port, the timer, the signals) are a
    small world model and a chronological trace of events.  An array access
    outside its bounds, undefined in C++, stops the run with [Crash]. *)

From Stdlib Require Import ZArith Lia.
From stdpp Require Import base gmap list strings.

Local Open Scope Z_scope.

(** ** Constants of fdc.h *)

Definition MAX_DRIVE : Z := 4.
Definition CMD_LEN : Z := 8.
Definition CRC_LEN : Z := 2.
Definition CMDBUF_SIZE : Z := CMD_LEN + CRC_LEN.
Definition TRKBUF_SIZE : Z := 137 * 32.

Definition STATE_CMD : Z := 0.
Definition STATE_WRIT : Z := 1.

Definition STAT_OK : Z := 0.
Definition STAT_NOT_READY : Z := 1.
Definition STAT_CHECKSUM_ERR : Z := 2.
Definition STAT_WRITE_ERR : Z := 3.

Definition FDC_TIMEOUT : Z := 2000.

(** [sizeof(tmpBuf)], [sizeof(inBuf)], [sizeof(outBuf)]: each array is
    declared [quint8 buf[TRKBUF_SIZE + CRC_LEN]]. *)
Definition sizeof_trkbuf : Z := TRKBUF_SIZE + CRC_LEN.

(** ** Integer conversions *)

Definition u8 (x : Z) : Z := x mod 256.
Definition u16 (x : Z) : Z := x mod 65536.
Definition u64 (x : Z) : Z := x mod 2 ^ 64.
Definition s8 (x : Z) : Z := let y := x mod 256 in if y <? 128 then y else y - 256.
Definition s16 (x : Z) : Z :=
  let y := x mod 65536 in if y <? 32768 then y else y - 65536.

(** Low byte first: the layout of a [quint16] on the little-endian hosts
    the union in [fdc_command_t] is written for. *)
Definition le16 (lo hi : Z) : Z := Z.lor lo (Z.shiftl hi 8).
Definition lo8 (w : Z) : Z := Z.land w 255.
Definition hi8 (w : Z) : Z := Z.land (Z.shiftr w 8) 255.
Definition bytes16 (w : Z) : list Z := [lo8 w; hi8 w].

Definition is_byte (b : Z) : Prop := 0 <= b < 256.

(** ** Buffers *)

(** [memcpy(dst + off, src, length src)] inside a buffer large enough. *)
Definition blit (dst : list Z) (off : nat) (src : list Z) : list Z :=
  take off dst ++ src ++ drop (off + length src)%nat dst.

Definition zeros (n : nat) : list Z := replicate n 0.

(** ** checkSum *)

(** [quint16 checksum = 0; for (i = 0; i < size; i++) checksum += data[i];] *)
Fixpoint checkSum_loop (data : list Z) (checksum : Z) : Z :=
  match data with
  | [] => checksum
  | b :: rest => checkSum_loop rest (u16 (checksum + b))
  end.

Definition checkSum (data : list Z) (size : Z) : Z :=
  checkSum_loop (take (Z.to_nat size) data) 0.

(** ** fdc_command_t: the typed view of a ten-byte buffer *)

Module Cmd.
Definition byte_at (buf : list Z) (i : nat) : Z := default 0 (buf !! i).
Definition word_at (buf : list Z) (i : nat) : Z :=
  le16 (byte_at buf i) (byte_at buf (S i)).
Definition set_word (i : nat) (w : Z) (buf : list Z) : list Z :=
  <[S i := hi8 w]> (<[i := lo8 w]> buf).

Definition command (buf : list Z) : list Z := take 4 buf.
Definition param1 (buf : list Z) : Z := word_at buf 4.
Definition param2 (buf : list Z) : Z := word_at buf 6.
Definition checksum (buf : list Z) : Z := word_at buf 8.
Definition rcode := param1.
Definition rdata := param2.

Definition set_command (c : list Z) (buf : list Z) : list Z :=
  match c with
  | [a; b; c; d] => <[3%nat := d]> (<[2%nat := c]> (<[1%nat := b]> (<[0%nat := a]> buf)))
  | _ => buf
  end.
Definition set_rcode (w : Z) (buf : list Z) : list Z := set_word 4 w buf.
Definition set_rdata (w : Z) (buf : list Z) : list Z := set_word 6 w buf.
Definition set_checksum (w : Z) (buf : list Z) : list Z := set_word 8 w buf.

(** The four command tags in ASCII. *)
Definition STAT : list Z := [83; 84; 65; 84].
Definition READ : list Z := [82; 69; 65; 68].
Definition WRIT : list Z := [87; 82; 73; 84].
Definition WSTA : list Z := [87; 83; 84; 65].

(** [memcmp(cmd->command, tag, 4) == 0] *)
Definition is_tag (tag : list Z) (buf : list Z) : bool :=
  bool_decide (command buf = tag).

(** A well-formed request frame, as the controller builds it. *)
Definition frame (tag : list Z) (p1 p2 : Z) : list Z :=
  let body := tag ++ bytes16 p1 ++ bytes16 p2 in
  body ++ bytes16 (checkSum body CMD_LEN).
End Cmd.

(** ** The world outside the class *)

(** A [QFile]: open or closed, the path it was given, the file position. *)
Record QFile := MkQFile {
  isOpen : bool;
  fileName : string;
  pos : Z
}.

(** The host: the files that can be opened for reading and writing with
    their contents, how many bytes one [write] call accepts from the
    caller (a full disk accepts fewer than asked), which serial ports open
    and which baud rates they take. *)
Record World := MkWorld {
  files : gmap string (list Z);
  wcap : nat;
  portOk : string -> bool;
  baudOk : Z -> bool
}.

Definition set_files (fs : gmap string (list Z)) (w : World) : World :=
  {| files := fs; wcap := wcap w; portOk := portOk w; baudOk := baudOk w |}.

Module File.
Definition closed : QFile := {| isOpen := false; fileName := ""; pos := 0 |}.

Definition close (f : QFile) : QFile :=
  {| isOpen := false; fileName := fileName f; pos := 0 |}.

Definition setFileName (name : string) (f : QFile) : QFile :=
  {| isOpen := isOpen f; fileName := name; pos := pos f |}.

(** [open(QIODeviceBase::ReadWrite)] *)
Definition open (w : World) (f : QFile) : bool * QFile :=
  match files w !! fileName f with
  | Some _ => (true, {| isOpen := true; fileName := fileName f; pos := 0 |})
  | None => (false, f)
  end.

Definition size (w : World) (f : QFile) : Z :=
  match files w !! fileName f with
  | Some c => Z.of_nat (length c)
  | None => 0
  end.

Definition seek (p : Z) (f : QFile) : QFile :=
  if isOpen f && (0 <=? p)
  then {| isOpen := true; fileName := fileName f; pos := p |}
  else f.

(** [read(buf, n)]: the bytes from the position up to the end of the
    file, at most [n]; [-1] on a device that is not open. *)
Definition read (w : World) (n : Z) (f : QFile) : Z * list Z * QFile :=
  match isOpen f, files w !! fileName f with
  | true, Some c =>
      let got := take (Z.to_nat n) (drop (Z.to_nat (pos f)) c) in
      (Z.of_nat (length got), got,
       {| isOpen := true; fileName := fileName f;
          pos := pos f + Z.of_nat (length got) |})
  | _, _ => (-1, [], f)
  end.

(** The file contents after [d] is stored at offset [p]; a gap between
    the old end of the file and [p] reads as zeros. *)
Definition store (c : list Z) (p : nat) (d : list Z) : list Z :=
  take p c ++ zeros (p - length c) ++ d ++ drop (p + length d) c.

(** [write(buf, n)]: the number of bytes the host accepted. *)
Definition write (w : World) (d : list Z) (f : QFile) : Z * World * QFile :=
  match isOpen f, files w !! fileName f with
  | true, Some c =>
      let d' := take (wcap w) d in
      (Z.of_nat (length d'),
       set_files (<[fileName f := store c (Z.to_nat (pos f)) d']> (files w)) w,
       {| isOpen := true; fileName := fileName f;
          pos := pos f + Z.of_nat (length d') |})
  | _, _ => (-1, w, f)
  end.
End File.

(** [QSerialPort]: only what the class asks of it. *)
Record QSerialPort := MkPort {
  sp_isOpen : bool;
  sp_portName : string
}.

(** What the class does to the outside, in the order it does it. *)
Inductive Message :=
| DriveOutOfRange (drive : Z)
| TmpBufFull
| BaudRefused (port : string) (baud : Z).

Inductive Event :=
| SerialWrite (bytes : list Z)
| SerialClear
| TimerStart (ms : Z)
| StatusChanged (status : string)
| ErrorMessage (title : string) (message : Message)
| TrackChanged (drive track : Z)
| HeadChanged (drive : Z) (head : bool)
| DriveChanged (drive : Z)
| MountChanged (drive : Z) (mounted : bool) (filename : option string)
               (tracks : Z) (size : option string).

(** ** The object state

    The members of [class FDC] that the code reads or writes, the world
    and the trace.  [cmd] always points at [cmdBuf] when a handler runs,
    so the handlers work on [cmdBuf] directly; [driveFile[d]->isOpen()] is
    the mount state (the class never writes [mountStatus]). *)
Record FDC := MkFDC {
  world : World;
  trace : list Event;
  serialPort : QSerialPort;
  statPkts : Z;
  readPkts : Z;
  writePkts : Z;
  crcErrs : Z;
  outPkts : Z;
  cmdBuf : list Z;
  state : Z;
  connected : bool;
  tmpBuf : list Z;
  inBuf : list Z;
  outBuf : list Z;
  tmpBufIdx : Z;
  maxTrack : list Z;
  curTrack : list Z;
  headStatus : list Z;
  driveSelected : Z;
  driveFile : list QFile
}.

(** Field updates. *)

Definition set_world (v : World) (s : FDC) : FDC :=
  {|
    world := v; trace := trace s; serialPort := serialPort s;
    statPkts := statPkts s; readPkts := readPkts s; writePkts := writePkts s;
    crcErrs := crcErrs s; outPkts := outPkts s; cmdBuf := cmdBuf s;
    state := state s; connected := connected s; tmpBuf := tmpBuf s;
    inBuf := inBuf s; outBuf := outBuf s; tmpBufIdx := tmpBufIdx s;
    maxTrack := maxTrack s; curTrack := curTrack s;
    headStatus := headStatus s; driveSelected := driveSelected s;
    driveFile := driveFile s |}.

Definition set_trace (v : list Event) (s : FDC) : FDC :=
  {|
    world := world s; trace := v; serialPort := serialPort s;
    statPkts := statPkts s; readPkts := readPkts s; writePkts := writePkts s;
    crcErrs := crcErrs s; outPkts := outPkts s; cmdBuf := cmdBuf s;
    state := state s; connected := connected s; tmpBuf := tmpBuf s;
    inBuf := inBuf s; outBuf := outBuf s; tmpBufIdx := tmpBufIdx s;
    maxTrack := maxTrack s; curTrack := curTrack s;
    headStatus := headStatus s; driveSelected := driveSelected s;
    driveFile := driveFile s |}.

Definition set_serialPort (v : QSerialPort) (s : FDC) : FDC :=
  {|
    world := world s; trace := trace s; serialPort := v;
    statPkts := statPkts s; readPkts := readPkts s; writePkts := writePkts s;
    crcErrs := crcErrs s; outPkts := outPkts s; cmdBuf := cmdBuf s;
    state := state s; connected := connected s; tmpBuf := tmpBuf s;
    inBuf := inBuf s; outBuf := outBuf s; tmpBufIdx := tmpBufIdx s;
    maxTrack := maxTrack s; curTrack := curTrack s;
    headStatus := headStatus s; driveSelected := driveSelected s;
    driveFile := driveFile s |}.

Definition set_statPkts (v : Z) (s : FDC) : FDC :=
  {|
    world := world s; trace := trace s; serialPort := serialPort s;
    statPkts := v; readPkts := readPkts s; writePkts := writePkts s;
    crcErrs := crcErrs s; outPkts := outPkts s; cmdBuf := cmdBuf s;
    state := state s; connected := connected s; tmpBuf := tmpBuf s;
    inBuf := inBuf s; outBuf := outBuf s; tmpBufIdx := tmpBufIdx s;
    maxTrack := maxTrack s; curTrack := curTrack s;
    headStatus := headStatus s; driveSelected := driveSelected s;
    driveFile := driveFile s |}.

Definition set_readPkts (v : Z) (s : FDC) : FDC :=
  {|
    world := world s; trace := trace s; serialPort := serialPort s;
    statPkts := statPkts s; readPkts := v; writePkts := writePkts s;
    crcErrs := crcErrs s; outPkts := outPkts s; cmdBuf := cmdBuf s;
    state := state s; connected := connected s; tmpBuf := tmpBuf s;
    inBuf := inBuf s; outBuf := outBuf s; tmpBufIdx := tmpBufIdx s;
    maxTrack := maxTrack s; curTrack := curTrack s;
    headStatus := headStatus s; driveSelected := driveSelected s;
    driveFile := driveFile s |}.

Definition set_writePkts (v : Z) (s : FDC) : FDC :=
  {|
    world := world s; trace := trace s; serialPort := serialPort s;
    statPkts := statPkts s; readPkts := readPkts s; writePkts := v;
    crcErrs := crcErrs s; outPkts := outPkts s; cmdBuf := cmdBuf s;
    state := state s; connected := connected s; tmpBuf := tmpBuf s;
    inBuf := inBuf s; outBuf := outBuf s; tmpBufIdx := tmpBufIdx s;
    maxTrack := maxTrack s; curTrack := curTrack s;
    headStatus := headStatus s; driveSelected := driveSelected s;
    driveFile := driveFile s |}.

Definition set_crcErrs (v : Z) (s : FDC) : FDC :=
  {|
    world := world s; trace := trace s; serialPort := serialPort s;
    statPkts := statPkts s; readPkts := readPkts s; writePkts := writePkts s;
    crcErrs := v; outPkts := outPkts s; cmdBuf := cmdBuf s; state := state s;
    connected := connected s; tmpBuf := tmpBuf s; inBuf := inBuf s;
    outBuf := outBuf s; tmpBufIdx := tmpBufIdx s; maxTrack := maxTrack s;
    curTrack := curTrack s; headStatus := headStatus s;
    driveSelected := driveSelected s; driveFile := driveFile s |}.

Definition set_outPkts (v : Z) (s : FDC) : FDC :=
  {|
    world := world s; trace := trace s; serialPort := serialPort s;
    statPkts := statPkts s; readPkts := readPkts s; writePkts := writePkts s;
    crcErrs := crcErrs s; outPkts := v; cmdBuf := cmdBuf s; state := state s;
    connected := connected s; tmpBuf := tmpBuf s; inBuf := inBuf s;
    outBuf := outBuf s; tmpBufIdx := tmpBufIdx s; maxTrack := maxTrack s;
    curTrack := curTrack s; headStatus := headStatus s;
    driveSelected := driveSelected s; driveFile := driveFile s |}.

Definition set_cmdBuf (v : list Z) (s : FDC) : FDC :=
  {|
    world := world s; trace := trace s; serialPort := serialPort s;
    statPkts := statPkts s; readPkts := readPkts s; writePkts := writePkts s;
    crcErrs := crcErrs s; outPkts := outPkts s; cmdBuf := v;
    state := state s; connected := connected s; tmpBuf := tmpBuf s;
    inBuf := inBuf s; outBuf := outBuf s; tmpBufIdx := tmpBufIdx s;
    maxTrack := maxTrack s; curTrack := curTrack s;
    headStatus := headStatus s; driveSelected := driveSelected s;
    driveFile := driveFile s |}.

Definition set_state (v : Z) (s : FDC) : FDC :=
  {|
    world := world s; trace := trace s; serialPort := serialPort s;
    statPkts := statPkts s; readPkts := readPkts s; writePkts := writePkts s;
    crcErrs := crcErrs s; outPkts := outPkts s; cmdBuf := cmdBuf s;
    state := v; connected := connected s; tmpBuf := tmpBuf s;
    inBuf := inBuf s; outBuf := outBuf s; tmpBufIdx := tmpBufIdx s;
    maxTrack := maxTrack s; curTrack := curTrack s;
    headStatus := headStatus s; driveSelected := driveSelected s;
    driveFile := driveFile s |}.

Definition set_connected (v : bool) (s : FDC) : FDC :=
  {|
    world := world s; trace := trace s; serialPort := serialPort s;
    statPkts := statPkts s; readPkts := readPkts s; writePkts := writePkts s;
    crcErrs := crcErrs s; outPkts := outPkts s; cmdBuf := cmdBuf s;
    state := state s; connected := v; tmpBuf := tmpBuf s; inBuf := inBuf s;
    outBuf := outBuf s; tmpBufIdx := tmpBufIdx s; maxTrack := maxTrack s;
    curTrack := curTrack s; headStatus := headStatus s;
    driveSelected := driveSelected s; driveFile := driveFile s |}.

Definition set_tmpBuf (v : list Z) (s : FDC) : FDC :=
  {|
    world := world s; trace := trace s; serialPort := serialPort s;
    statPkts := statPkts s; readPkts := readPkts s; writePkts := writePkts s;
    crcErrs := crcErrs s; outPkts := outPkts s; cmdBuf := cmdBuf s;
    state := state s; connected := connected s; tmpBuf := v;
    inBuf := inBuf s; outBuf := outBuf s; tmpBufIdx := tmpBufIdx s;
    maxTrack := maxTrack s; curTrack := curTrack s;
    headStatus := headStatus s; driveSelected := driveSelected s;
    driveFile := driveFile s |}.

Definition set_inBuf (v : list Z) (s : FDC) : FDC :=
  {|
    world := world s; trace := trace s; serialPort := serialPort s;
    statPkts := statPkts s; readPkts := readPkts s; writePkts := writePkts s;
    crcErrs := crcErrs s; outPkts := outPkts s; cmdBuf := cmdBuf s;
    state := state s; connected := connected s; tmpBuf := tmpBuf s;
    inBuf := v; outBuf := outBuf s; tmpBufIdx := tmpBufIdx s;
    maxTrack := maxTrack s; curTrack := curTrack s;
    headStatus := headStatus s; driveSelected := driveSelected s;
    driveFile := driveFile s |}.

Definition set_outBuf (v : list Z) (s : FDC) : FDC :=
  {|
    world := world s; trace := trace s; serialPort := serialPort s;
    statPkts := statPkts s; readPkts := readPkts s; writePkts := writePkts s;
    crcErrs := crcErrs s; outPkts := outPkts s; cmdBuf := cmdBuf s;
    state := state s; connected := connected s; tmpBuf := tmpBuf s;
    inBuf := inBuf s; outBuf := v; tmpBufIdx := tmpBufIdx s;
    maxTrack := maxTrack s; curTrack := curTrack s;
    headStatus := headStatus s; driveSelected := driveSelected s;
    driveFile := driveFile s |}.

Definition set_tmpBufIdx (v : Z) (s : FDC) : FDC :=
  {|
    world := world s; trace := trace s; serialPort := serialPort s;
    statPkts := statPkts s; readPkts := readPkts s; writePkts := writePkts s;
    crcErrs := crcErrs s; outPkts := outPkts s; cmdBuf := cmdBuf s;
    state := state s; connected := connected s; tmpBuf := tmpBuf s;
    inBuf := inBuf s; outBuf := outBuf s; tmpBufIdx := v;
    maxTrack := maxTrack s; curTrack := curTrack s;
    headStatus := headStatus s; driveSelected := driveSelected s;
    driveFile := driveFile s |}.

Definition set_maxTrack (v : list Z) (s : FDC) : FDC :=
  {|
    world := world s; trace := trace s; serialPort := serialPort s;
    statPkts := statPkts s; readPkts := readPkts s; writePkts := writePkts s;
    crcErrs := crcErrs s; outPkts := outPkts s; cmdBuf := cmdBuf s;
    state := state s; connected := connected s; tmpBuf := tmpBuf s;
    inBuf := inBuf s; outBuf := outBuf s; tmpBufIdx := tmpBufIdx s;
    maxTrack := v; curTrack := curTrack s; headStatus := headStatus s;
    driveSelected := driveSelected s; driveFile := driveFile s |}.

Definition set_curTrack (v : list Z) (s : FDC) : FDC :=
  {|
    world := world s; trace := trace s; serialPort := serialPort s;
    statPkts := statPkts s; readPkts := readPkts s; writePkts := writePkts s;
    crcErrs := crcErrs s; outPkts := outPkts s; cmdBuf := cmdBuf s;
    state := state s; connected := connected s; tmpBuf := tmpBuf s;
    inBuf := inBuf s; outBuf := outBuf s; tmpBufIdx := tmpBufIdx s;
    maxTrack := maxTrack s; curTrack := v; headStatus := headStatus s;
    driveSelected := driveSelected s; driveFile := driveFile s |}.

Definition set_headStatus (v : list Z) (s : FDC) : FDC :=
  {|
    world := world s; trace := trace s; serialPort := serialPort s;
    statPkts := statPkts s; readPkts := readPkts s; writePkts := writePkts s;
    crcErrs := crcErrs s; outPkts := outPkts s; cmdBuf := cmdBuf s;
    state := state s; connected := connected s; tmpBuf := tmpBuf s;
    inBuf := inBuf s; outBuf := outBuf s; tmpBufIdx := tmpBufIdx s;
    maxTrack := maxTrack s; curTrack := curTrack s; headStatus := v;
    driveSelected := driveSelected s; driveFile := driveFile s |}.

Definition set_driveSelected (v : Z) (s : FDC) : FDC :=
  {|
    world := world s; trace := trace s; serialPort := serialPort s;
    statPkts := statPkts s; readPkts := readPkts s; writePkts := writePkts s;
    crcErrs := crcErrs s; outPkts := outPkts s; cmdBuf := cmdBuf s;
    state := state s; connected := connected s; tmpBuf := tmpBuf s;
    inBuf := inBuf s; outBuf := outBuf s; tmpBufIdx := tmpBufIdx s;
    maxTrack := maxTrack s; curTrack := curTrack s;
    headStatus := headStatus s; driveSelected := v; driveFile := driveFile s |}.

Definition set_driveFile (v : list QFile) (s : FDC) : FDC :=
  {|
    world := world s; trace := trace s; serialPort := serialPort s;
    statPkts := statPkts s; readPkts := readPkts s; writePkts := writePkts s;
    crcErrs := crcErrs s; outPkts := outPkts s; cmdBuf := cmdBuf s;
    state := state s; connected := connected s; tmpBuf := tmpBuf s;
    inBuf := inBuf s; outBuf := outBuf s; tmpBufIdx := tmpBufIdx s;
    maxTrack := maxTrack s; curTrack := curTrack s;
    headStatus := headStatus s; driveSelected := driveSelected s;
    driveFile := v |}.

(** ** Runs that may go wrong

    A handler reads and writes the object state and either returns a value
    with the new state or stops at an access outside an array. *)

Inductive Fault :=
| OutOfBounds (array : string) (index : Z).

Inductive Result (A : Type) :=
| Ok (a : A) (s : FDC)
| Crash (f : Fault).
Arguments Ok {A} a s.
Arguments Crash {A} f.

Definition M (A : Type) : Type := FDC -> Result A.

#[global] Instance M_ret : MRet M := fun A a s => Ok a s.
#[global] Instance M_bind : MBind M := fun A B k m s =>
  match m s with
  | Ok a s' => k a s'
  | Crash f => Crash f
  end.

Definition gets {A} (proj : FDC -> A) : M A := fun s => Ok (proj s) s.
Definition modify (f : FDC -> FDC) : M unit := fun s => Ok tt (f s).
Definition crash {A} (f : Fault) : M A := fun _ => Crash f.
Definition when_ (b : bool) (m : M unit) : M unit := if b then m else mret tt.

(** [emit signal(...)], [serialPort->write(...)], [timeoutTimer->start(...)] *)
Definition emit (e : Event) : M unit :=
  modify (fun s => set_trace (trace s ++ [e]) s).

(** [arr[i]] as an rvalue. *)
Definition index {A} (name : string) (arr : list A) (i : Z) : M A :=
  match (if 0 <=? i then arr !! Z.to_nat i else None) with
  | Some x => mret x
  | None => crash (OutOfBounds name i)
  end.

(** [arr[i] = v] on a member array. *)
Definition assign {A} (name : string) (proj : FDC -> list A)
    (set : list A -> FDC -> FDC) (i : Z) (v : A) : M unit :=
  arr ← gets proj;
  _ ← index name arr i;
  modify (set (<[Z.to_nat i := v]> arr)).

Definition drive_file (drive : Z) : M QFile :=
  arr ← gets driveFile; index "driveFile" arr drive.
Definition set_drive_file (drive : Z) (f : QFile) : M unit :=
  assign "driveFile" driveFile set_driveFile drive f.

(** [for (int drive = 0; drive < MAX_DRIVE; drive++) body] *)
Definition for_drives (body : Z -> M unit) : M unit :=
  foldr (fun drive rest => body drive;; rest) (mret tt) (seqZ 0 MAX_DRIVE).

Definition Z_of_bool (b : bool) : Z := if b then 1 else 0.

(** ** FDC::FDC

    The constructor sets the counters, the drive table and the state,
    creates the port and the files closed, and starts the timer.  It leaves
    the four byte buffers as allocated: [mem] is what they hold then. *)

Record Buffers := MkBuffers {
  cmd0 : list Z;
  tmp0 : list Z;
  in0 : list Z;
  out0 : list Z
}.

Definition FDC_new (w : World) (mem : Buffers) : FDC :=
  {| world := w;
     trace := [TimerStart FDC_TIMEOUT];
     serialPort := {| sp_isOpen := false; sp_portName := "" |};
     statPkts := 0; readPkts := 0; writePkts := 0; crcErrs := 0; outPkts := 0;
     cmdBuf := cmd0 mem;
     state := STATE_CMD;
     connected := false;
     tmpBuf := tmp0 mem;
     inBuf := in0 mem;
     outBuf := out0 mem;
     tmpBufIdx := 0;
     maxTrack := replicate (Z.to_nat MAX_DRIVE) 77;
     curTrack := replicate (Z.to_nat MAX_DRIVE) 0;
     headStatus := replicate (Z.to_nat MAX_DRIVE) 0;
     driveSelected := 0xff;
     driveFile := replicate (Z.to_nat MAX_DRIVE) File.closed |}.

(** ** Link supervisor

    [serialPort->open], [setBaudRate] answer as the host says; the
    subscription of [readData] to the port is the caller's business here:
    [readData] is run with the bytes the port holds. *)

Definition set_port_open (b : bool) : M unit :=
  modify (fun s => set_serialPort
    {| sp_isOpen := b; sp_portName := sp_portName (serialPort s) |} s).

Definition closePort : M unit :=
  p ← gets serialPort;
  when_ (sp_isOpen p)
    (set_port_open false;;
     modify (set_connected false);;
     emit (StatusChanged "Offline")).

Definition setBaud (baudRate : Z) : M bool :=
  w ← gets world;
  p ← gets serialPort;
  let r := baudOk w baudRate in
  when_ (negb r)
    (emit (ErrorMessage "COM Port Error" (BaudRefused (sp_portName p) baudRate));;
     emit (StatusChanged "Offline"));;
  mret r.

Definition openPort (name : string) (baudRate : Z) : M bool :=
  p ← gets serialPort;
  when_ (sp_isOpen p) closePort;;
  modify (fun s => set_serialPort
    {| sp_isOpen := sp_isOpen (serialPort s); sp_portName := name |} s);;
  w ← gets world;
  if portOk w name then
    set_port_open true;;
    r ← setBaud baudRate;
    if negb r then closePort;; mret r
    else
      modify (set_connected true);;
      emit (StatusChanged "Online");;
      mret r
  else mret false.

Definition timeoutSlot : M unit :=
  p ← gets serialPort;
  (if sp_isOpen p then
     emit SerialClear;;
     modify (set_tmpBufIdx 0);;
     c ← gets connected;
     when_ c
       (modify (set_connected false);;
        emit (StatusChanged "Communications timeout"))
   else emit (StatusChanged "Offline"));;
  modify (set_state STATE_CMD).

(** ** Drive table *)

(** [qint16 FDC::updateTrack(qint16 drive, qint16 track)] *)
Definition updateTrack (drive track : Z) : M Z :=
  if MAX_DRIVE <=? drive then
    emit (ErrorMessage "updateTrack" (DriveOutOfRange drive));;
    mret track
  else
    f ← drive_file drive;
    let track := if negb (isOpen f) then 0 else track in
    cur ← (arr ← gets curTrack; index "curTrack" arr drive);
    when_ (negb (track =? cur))
      (assign "curTrack" curTrack set_curTrack drive (u16 track);;
       emit (TrackChanged (u8 drive) (u16 track)));;
    mret track.

(** The geometry [mountDisk] infers from the file size. *)
Definition geometry (filesize : Z) : Z * string :=
  if filesize =? 76800 then (34, "75K")
  else if filesize =? 337664 then (76, "330K")
  else if filesize =? 8978432 then (2047, "8MB")
  else (2047, "???").

(** [bool FDC::mountDisk(qint8 drive, QString filename)] *)
Definition mountDisk (drive : Z) (filename : string) : M bool :=
  f ← drive_file drive;
  when_ (isOpen f) (set_drive_file drive (File.close f));;
  f ← drive_file drive;
  set_drive_file drive (File.setFileName filename f);;
  f ← drive_file drive;
  w ← gets world;
  let '(r, f') := File.open w f in
  set_drive_file drive f';;
  if r then
    let '(tracks, size) := geometry (File.size w f') in
    assign "maxTrack" maxTrack set_maxTrack drive tracks;;
    _ ← updateTrack drive 0;
    tracks ← (arr ← gets maxTrack; index "maxTrack" arr drive);
    emit (MountChanged drive true (Some filename) tracks (Some size));;
    mret r
  else mret r.

(** [void FDC::unmountDisk(qint8 drive)] *)
Definition unmountDisk (drive : Z) : M unit :=
  f ← drive_file drive;
  when_ (isOpen f)
    (_ ← updateTrack drive 0;
     f ← drive_file drive;
     set_drive_file drive (File.close f));;
  emit (MountChanged drive false None 0 None).

(** ** Command handlers *)

(** The three locals every track handler decodes from [cmd]. *)
Definition driveNum_of (cmd : list Z) : Z := s8 (Z.shiftr (Cmd.param1 cmd) 12).
Definition trackNum_of (cmd : list Z) : Z := s16 (Z.land (Cmd.param1 cmd) 0x0fff).
Definition trackLen_of (cmd : list Z) : Z := s16 (Cmd.param2 cmd).

(** [if (trackLen > sizeof(buf)) trackLen = sizeof(buf);] with the
    comparison done in [size_t]. *)
Definition clamp_trackLen (trackLen : Z) : Z :=
  if sizeof_trkbuf <? u64 trackLen then s16 sizeof_trkbuf else trackLen.

Definition incr (proj : FDC -> Z) (set : Z -> FDC -> FDC) : M unit :=
  modify (fun s => set (u16 (proj s + 1)) s).

Definition on_cmdBuf (f : list Z -> list Z) : M unit :=
  modify (fun s => set_cmdBuf (f (cmdBuf s)) s).
Definition on_outBuf (f : list Z -> list Z) : M unit :=
  modify (fun s => set_outBuf (f (outBuf s)) s).

(** [bool FDC::statResponse(fdc_command_t *cmd)] *)
Definition statResponse : M bool :=
  on_cmdBuf (Cmd.set_rdata 0);;
  for_drives (fun drive =>
    f ← drive_file drive;
    on_cmdBuf (fun cmd =>
      Cmd.set_rdata
        (u16 (Z.lor (Cmd.rdata cmd) (Z.shiftl (Z_of_bool (isOpen f)) drive))) cmd));;
  on_cmdBuf (Cmd.set_rcode STAT_OK);;
  on_cmdBuf (fun cmd => Cmd.set_checksum (checkSum cmd CMD_LEN) cmd);;
  cmd ← gets cmdBuf;
  emit (SerialWrite (take (Z.to_nat CMDBUF_SIZE) cmd));;
  emit (TimerStart FDC_TIMEOUT);;
  c ← gets connected;
  when_ (negb c)
    (modify (set_connected true);;
     emit (StatusChanged "Connected"));;
  incr outPkts set_outPkts;;
  mret false.

(** [bool FDC::readTrack(fdc_command_t *cmd)] *)
Definition readTrack : M bool :=
  cmd ← gets cmdBuf;
  let driveNum := driveNum_of cmd in
  let trackNum := trackNum_of cmd in
  let trackLen := trackLen_of cmd in
  if MAX_DRIVE <=? driveNum then
    emit (ErrorMessage "READ" (DriveOutOfRange driveNum));;
    mret true
  else
    let trackLen := clamp_trackLen trackLen in
    trackNum ← updateTrack driveNum trackNum;
    f ← drive_file driveNum;
    w ← gets world;
    let '(bytesRead, data, f') := File.read w trackLen (File.seek (trackNum * trackLen) f) in
    set_drive_file driveNum f';;
    on_outBuf (fun out => blit out 0 data);;
    out ← gets outBuf;
    let checksum :=
      if negb (bytesRead =? trackLen) then 0 else checkSum out (u16 trackLen) in
    emit (SerialWrite (take (Z.to_nat trackLen) out));;
    emit (SerialWrite (bytes16 checksum));;
    incr outPkts set_outPkts;;
    emit (TimerStart FDC_TIMEOUT);;
    mret false.

(** [bool FDC::writeResponse(fdc_command_t *cmd)]: the response is built
    in [outBuf], [cmdBuf] keeps the request for [writeTrack]. *)
Definition writeResponse : M bool :=
  cmd ← gets cmdBuf;
  let driveNum := driveNum_of cmd in
  if MAX_DRIVE <=? driveNum then
    emit (ErrorMessage "WRIT" (DriveOutOfRange driveNum));;
    mret true
  else
    on_outBuf (fun out => blit out 0 (take (Z.to_nat CMD_LEN) cmd));;
    f ← drive_file driveNum;
    on_outBuf (Cmd.set_rcode (if isOpen f then STAT_OK else STAT_NOT_READY));;
    on_outBuf (fun out => Cmd.set_checksum (checkSum out CMD_LEN) out);;
    out ← gets outBuf;
    emit (SerialWrite (take (Z.to_nat CMDBUF_SIZE) out));;
    emit (TimerStart FDC_TIMEOUT);;
    mret false.

(** [bool FDC::writeTrack(fdc_command_t *cmd)] *)
Definition writeTrack : M bool :=
  cmd ← gets cmdBuf;
  let driveNum := driveNum_of cmd in
  let trackNum := trackNum_of cmd in
  let trackLen := trackLen_of cmd in
  buf ← gets inBuf;
  lo ← index "inBuf" buf trackLen;
  hi ← index "inBuf" buf (trackLen + 1);
  let checksum := u16 (Z.lor lo (Z.shiftl (u16 hi) 8)) in
  if MAX_DRIVE <=? driveNum then
    emit (ErrorMessage "WRIT" (DriveOutOfRange driveNum));;
    mret true
  else
    f ← drive_file driveNum;
    (if negb (isOpen f) then
       on_cmdBuf (Cmd.set_rcode STAT_NOT_READY)
     else if negb (checksum =? checkSum buf (u16 trackLen)) then
       on_cmdBuf (Cmd.set_rcode STAT_CHECKSUM_ERR);;
       incr crcErrs set_crcErrs
     else
       let trackLen := clamp_trackLen trackLen in
       trackNum ← updateTrack driveNum trackNum;
       f ← drive_file driveNum;
       w ← gets world;
       let '(bytesWritten, w', f') :=
         File.write w (take (Z.to_nat trackLen) buf) (File.seek (trackNum * trackLen) f) in
       modify (set_world w');;
       set_drive_file driveNum f';;
       if negb (bytesWritten =? trackLen) then
         on_cmdBuf (Cmd.set_rcode STAT_WRITE_ERR)
       else
         on_cmdBuf (Cmd.set_rcode STAT_OK));;
    on_cmdBuf (Cmd.set_command Cmd.WSTA);;
    on_cmdBuf (fun cmd => Cmd.set_checksum (checkSum cmd CMD_LEN) cmd);;
    cmd ← gets cmdBuf;
    on_outBuf (fun out => blit out 0 (take (Z.to_nat CMDBUF_SIZE) cmd));;
    out ← gets outBuf;
    emit (SerialWrite (take (Z.to_nat CMDBUF_SIZE) out));;
    incr outPkts set_outPkts;;
    mret (negb (Cmd.rcode cmd =? STAT_OK)).

(** ** Framer *)

(** The STAT branch of [readData], before [statResponse]. *)
Definition statUpdate : M unit :=
  cmd ← gets cmdBuf;
  let newDrive := u8 (Z.land (Cmd.param1 cmd) 0xff) in
  let head := Z.shiftr (Cmd.param1 cmd) 8 in
  sel ← gets driveSelected;
  when_ ((newDrive <=? MAX_DRIVE) && negb (sel =? newDrive))
    (h ← (arr ← gets headStatus; index "headStatus" arr sel);
     when_ (negb (h =? 0))
       (assign "headStatus" headStatus set_headStatus sel 0;;
        emit (HeadChanged sel false));;
     emit (DriveChanged newDrive));;
  when_ (newDrive <=? MAX_DRIVE)
    (h ← (arr ← gets headStatus; index "headStatus" arr newDrive);
     when_ (negb (h =? head))
       (assign "headStatus" headStatus set_headStatus newDrive (u8 head);;
        emit (HeadChanged newDrive (negb (u8 head =? 0))));;
     _ ← updateTrack newDrive (s16 (Cmd.param2 cmd));
     mret tt);;
  modify (set_driveSelected newDrive).

(** [case STATE_CMD:] once ten bytes are buffered. *)
Definition dispatch : M unit :=
  cmd ← gets cmdBuf;
  if Cmd.checksum cmd =? checkSum cmd CMD_LEN then
    if Cmd.is_tag Cmd.STAT cmd then
      incr statPkts set_statPkts;;
      statUpdate;;
      _ ← statResponse;
      mret tt
    else if Cmd.is_tag Cmd.READ cmd then
      incr readPkts set_readPkts;;
      _ ← readTrack;
      mret tt
    else if Cmd.is_tag Cmd.WRIT cmd then
      _ ← writeResponse;
      incr writePkts set_writePkts;;
      modify (set_state STATE_WRIT)
    else mret tt
  else
    incr crcErrs set_crcErrs.

(** [void FDC::readData()], run when the port holds the bytes [avail]. *)
Definition readData (avail : list Z) : M unit :=
  idx ← gets tmpBufIdx;
  let r := Z.of_nat (length avail) in
  if r <=? u64 (sizeof_trkbuf - idx) then
    tmp ← gets tmpBuf;
    (if (0 <=? idx) && (idx + r <=? sizeof_trkbuf) then
       modify (set_tmpBuf (blit tmp (Z.to_nat idx) avail))
     else crash (OutOfBounds "tmpBuf" (idx + r - 1)));;
    when_ (negb (r =? 0)) (modify (set_tmpBufIdx (idx + r)));;
    idx ← gets tmpBufIdx;
    st ← gets state;
    if st =? STATE_CMD then
      when_ (idx =? CMDBUF_SIZE)
        (tmp ← gets tmpBuf;
         modify (set_cmdBuf (take (Z.to_nat CMDBUF_SIZE) tmp));;
         dispatch;;
         modify (set_tmpBufIdx 0))
    else if st =? STATE_WRIT then
      when_ (idx =? TRKBUF_SIZE + CRC_LEN)
        (tmp ← gets tmpBuf;
         modify (set_inBuf (take (Z.to_nat sizeof_trkbuf) tmp));;
         _ ← writeTrack;
         modify (set_tmpBufIdx 0);;
         modify (set_state STATE_CMD))
    else mret tt
  else
    emit SerialClear;;
    modify (set_tmpBufIdx 0);;
    emit (ErrorMessage "readData" TmpBufFull).

(** [readData] run once for each burst of bytes the port reports. *)
Fixpoint feed (chunks : list (list Z)) : M unit :=
  match chunks with
  | [] => mret tt
  | avail :: rest => readData avail;; feed rest
  end.

(** The trace a run adds to the one it started with. *)
Definition emitted (s s' : FDC) : list Event := drop (length (trace s)) (trace s').

(** Drive [d] is mounted: its file is open. *)
Definition mounted (s : FDC) (d : Z) : bool :=
  match (if 0 <=? d then driveFile s !! Z.to_nat d else None) with
  | Some f => isOpen f
  | None => false
  end.

Definition run {A} (m : M A) (s : FDC) : option FDC :=
  match m s with
  | Ok _ s' => Some s'
  | Crash _ => None
  end.

(** All bytes a run sent to the controller, in order. *)
Definition sent (evs : list Event) : list Z :=
  flat_map (fun e => match e with SerialWrite b => b | _ => [] end) evs.

(** The frame [writeTrack] answers with. *)
Definition wsta_of (rc : Z) (cmd : list Z) : list Z :=
  let c := Cmd.set_command Cmd.WSTA (Cmd.set_rcode rc cmd) in
  Cmd.set_checksum (checkSum c CMD_LEN) c.


(** [param1] of a track command: drive in the high nibble, track below. *)
Definition track_param (d t : Z) : Z := Z.lor (Z.shiftl d 12) t.

(** The contents of the file behind drive [d], when it is mounted. *)
Definition backing (s : FDC) (d : Z) : option (list Z) :=
  match (if 0 <=? d then driveFile s !! Z.to_nat d else None) with
  | Some f => if isOpen f then files (world s) !! fileName f else None
  | None => None
  end.

(** What [updateTrack] leaves alone. *)
Definition keeps (s s1 : FDC) : Prop :=
  world s1 = world s /\ driveFile s1 = driveFile s /\ cmdBuf s1 = cmdBuf s /\
  inBuf s1 = inBuf s /\ outBuf s1 = outBuf s /\ tmpBuf s1 = tmpBuf s /\
  tmpBufIdx s1 = tmpBufIdx s /\ state s1 = state s /\
  crcErrs s1 = crcErrs s /\ outPkts s1 = outPkts s /\
  length (curTrack s1) = length (curTrack s).

(** A run that never restarts the inactivity timer: whatever it adds to
    the trace holds no [TimerStart]. *)
Definition is_timer (e : Event) : bool :=
  match e with
  | TimerStart _ => true
  | _ => false
  end.

Definition no_timer {A} (m : M A) : Prop :=
  forall s a s', m s = Ok a s' ->
    exists evs, trace s' = trace s ++ evs /\ Forall (fun e => is_timer e = false) evs.

(** ** A small host and server to run the code on *)

Module Demo.
(** One image of two 8-inch tracks, one serial port at 403.2K. *)
Definition host : World :=
  {| files := {[ "a.dsk" := zeros (Z.to_nat (2 * TRKBUF_SIZE)) ]};
     wcap := Z.to_nat sizeof_trkbuf;
     portOk := fun name => bool_decide (name = "ttyUSB0");
     baudOk := fun baud => baud =? 403200 |}.

(** The state a run ends in (the state it started in, if it crashed). *)
Definition after {A} (m : M A) (s : FDC) : FDC :=
  match m s with
  | Ok _ s' => s'
  | Crash _ => s
  end.

(** Buffers that happen to be clear when the server is created. *)
Definition clear : Buffers :=
  {| cmd0 := zeros (Z.to_nat CMDBUF_SIZE);
     tmp0 := zeros (Z.to_nat sizeof_trkbuf);
     in0 := zeros (Z.to_nat sizeof_trkbuf);
     out0 := zeros (Z.to_nat sizeof_trkbuf) |}.

Definition fresh : FDC := FDC_new host clear.
Definition mounted0 : FDC := after (mountDisk 0 "a.dsk") fresh.

(** Drive 0, track [t], [len] bytes. *)
Definition writ (t len : Z) : list Z := Cmd.frame Cmd.WRIT t len.
Definition read (t len : Z) : list Z := Cmd.frame Cmd.READ t len.

(** After the WRIT command for track 2 with three bytes to come. *)
Definition writing : FDC := after (readData (writ 2 3)) mounted0.

(** [writeTrack] is entered with [inBuf] holding what the port delivered. *)
Definition payload_in (bytes : list Z) (s : FDC) : FDC :=
  set_inBuf (bytes ++ zeros (Z.to_nat sizeof_trkbuf - length bytes)) s.
End Demo.

Module Scenario.
Import Demo.

(** 137 data bytes and the two bytes of their checksum. *)
Definition data137 : list Z := seqZ 0 137.
Definition payload139 : list Z := data137 ++ bytes16 (checkSum data137 137).

(** After the WRIT command for drive 0, track 10, 137 bytes. *)
Definition writing137 : FDC := after (readData (writ 10 137)) mounted0.

(** After a READ of drive 0, track 1, 137 bytes. *)
Definition read_track1 : FDC := after (readData (read 1 137)) mounted0.

(** After a WRIT command that announces 5000 bytes. *)
Definition writing5000 : FDC := after (readData (writ 0 5000)) mounted0.

(** A server on which the controller has drive 0 selected. *)
Definition selected0 : FDC := set_driveSelected 0 fresh.

(** STAT request: selected drive in the low byte of param1. *)
Definition stat (drive track : Z) : list Z := Cmd.frame Cmd.STAT drive track.

(** A file of five bytes on drive 0, a file of ten on drive 1, and the
    server after the controller has read the ten: they are still in
    [outBuf]. *)
Definition short_host : World :=
  {| files := {[ "five.dsk" := [1; 2; 3; 4; 5];
                 "ten.dsk" := [10; 11; 12; 13; 14; 15; 16; 17; 18; 19] ]};
     wcap := Z.to_nat sizeof_trkbuf;
     portOk := fun _ => false;
     baudOk := fun _ => false |}.
Definition short_mounted : FDC :=
  after (_ ← mountDisk 0 "five.dsk"; _ ← mountDisk 1 "ten.dsk";
         readData (Cmd.frame Cmd.READ 0x1000 10))
        (FDC_new short_host clear).
End Scenario.

(** ** Vocabulary of the further properties *)

(** The plain sum of a list of bytes. *)
Definition sum_bytes (data : list Z) : Z := foldr Z.add 0 data.

(** What [closePort] adds to the trace. *)
Definition closing (s : FDC) : list Event :=
  if sp_isOpen (serialPort s) then [StatusChanged "Offline"] else [].

(** The track [updateTrack] settles on: 0 for a drive that is not mounted. *)
Definition effective_track (f : QFile) (track : Z) : Z :=
  if isOpen f then track else 0.

(** The state after [updateTrack] recorded [track] for drive [d]. *)
Definition track_recorded (d track : Z) (s : FDC) : FDC :=
  set_trace (trace s ++ [TrackChanged (u8 d) (u16 track)])
    (set_curTrack (<[Z.to_nat d := u16 track]> (curTrack s)) s).

(** The handle of a slot after [mountDisk] gave it [filename], before the
    file is opened. *)
Definition renamed (filename : string) (f : QFile) : QFile :=
  File.setFileName filename (if isOpen f then File.close f else f).

(** What makes [resp] the answer to the STAT request in [cmdBuf]: the
    request's tag, response code [STAT_OK], bit [d] of the data word set
    exactly when drive [d] is mounted, and the checksum of the first
    eight bytes. *)
Definition stat_answer (s : FDC) (resp : list Z) : Prop :=
  length resp = 10%nat /\
  Cmd.command resp = Cmd.command (cmdBuf s) /\
  Cmd.rcode resp = STAT_OK /\
  (forall d, Z.testbit (Cmd.rdata resp) d = mounted s d) /\
  Cmd.checksum resp = checkSum resp CMD_LEN.

(** The signals of [statResponse]. *)
Definition stat_events (s : FDC) (resp : list Z) : list Event :=
  [SerialWrite resp; TimerStart FDC_TIMEOUT] ++
  (if connected s then [] else [StatusChanged "Connected"]).

(** The drive table after the STAT branch of [readData] selected drive
    [new] with head flag [head]; [sel] is the drive selected before. *)
Definition heads_after (sel new head : Z) (hs : list Z) : list Z :=
  <[Z.to_nat new := head]> (if sel =? new then hs else <[Z.to_nat sel := 0]> hs).

(** The signals of the STAT branch, in the order they are emitted. *)
Definition select_events (sel new head hsel hnew t cur : Z) : list Event :=
  (if sel =? new then []
   else (if hsel =? 0 then [] else [HeadChanged sel false]) ++ [DriveChanged new]) ++
  (if hnew =? head then [] else [HeadChanged new (negb (head =? 0))]) ++
  (if t =? cur then [] else [TrackChanged (u8 new) (u16 t)]).

(** The state [readTrack] leaves for a drive in range: [r] is the outcome
    of the [read] call, [s1] the state after [updateTrack]. *)
Definition read_done (d len : Z) (r : Z * list Z * QFile) (s1 : FDC) : FDC :=
  let out := blit (outBuf s1) 0 r.1.2 in
  let checksum := if r.1.1 =? len then checkSum out (u16 len) else 0 in
  set_trace (trace s1 ++ [SerialWrite (take (Z.to_nat len) out);
                          SerialWrite (bytes16 checksum);
                          TimerStart FDC_TIMEOUT])
    (set_outPkts (u16 (outPkts s1 + 1))
       (set_outBuf out
          (set_driveFile (<[Z.to_nat d := r.2]> (driveFile s1)) s1))).

(** The arrays have their declared sizes, the byte buffers hold bytes,
    and the fill count of [tmpBuf] is within the buffer. *)
Definition wf (s : FDC) : Prop :=
  length (driveFile s) = Z.to_nat MAX_DRIVE /\
  length (curTrack s) = Z.to_nat MAX_DRIVE /\
  length (headStatus s) = Z.to_nat MAX_DRIVE /\
  length (maxTrack s) = Z.to_nat MAX_DRIVE /\
  length (cmdBuf s) = Z.to_nat CMDBUF_SIZE /\ Forall is_byte (cmdBuf s) /\
  length (tmpBuf s) = Z.to_nat sizeof_trkbuf /\ Forall is_byte (tmpBuf s) /\
  length (inBuf s) = Z.to_nat sizeof_trkbuf /\
  length (outBuf s) = Z.to_nat sizeof_trkbuf /\
  0 <= tmpBufIdx s <= sizeof_trkbuf.

(** The two accesses of [readData] that can leave their array: the
    [headStatus] accesses of the STAT branch and the trailer read of
    [writeTrack]. *)
Definition framer_fault (f : Fault) : Prop :=
  exists i, f = OutOfBounds "headStatus" i \/ f = OutOfBounds "inBuf" i.

(** [m] keeps the state well formed and stops at no other access. *)
Definition safe {A} (m : M A) : Prop :=
  forall s, wf s ->
    match m s with
    | Ok _ s' => wf s'
    | Crash f => framer_fault f
    end.

(** The calls the window, the timer and the port make into the server. *)
Inductive Call :=
| CallOpenPort (name : string) (baudRate : Z)
| CallClosePort
| CallSetBaud (baudRate : Z)
| CallMountDisk (drive : Z) (filename : string)
| CallUnmountDisk (drive : Z)
| CallTimeout
| CallReadData (avail : list Z).

Definition call (c : Call) : M unit :=
  match c with
  | CallOpenPort name baudRate => _ ← openPort name baudRate; mret tt
  | CallClosePort => closePort
  | CallSetBaud baudRate => _ ← setBaud baudRate; mret tt
  | CallMountDisk drive filename => _ ← mountDisk drive filename; mret tt
  | CallUnmountDisk drive => unmountDisk drive
  | CallTimeout => timeoutSlot
  | CallReadData avail => readData avail
  end.

Fixpoint calls (cs : list Call) : M unit :=
  match cs with
  | [] => mret tt
  | c :: rest => call c;; calls rest
  end.

(** The window mounts and unmounts drives 0 to [MAX_DRIVE - 1]; the port
    delivers bytes. *)
Definition call_ok (c : Call) : Prop :=
  match c with
  | CallMountDisk drive _ => 0 <= drive < MAX_DRIVE
  | CallUnmountDisk drive => 0 <= drive < MAX_DRIVE
  | CallReadData avail => Forall is_byte avail
  | _ => True
  end.

(** The buffers of a new server: of their declared sizes, holding bytes. *)
Definition buffers_ok (mem : Buffers) : Prop :=
  length (cmd0 mem) = Z.to_nat CMDBUF_SIZE /\ Forall is_byte (cmd0 mem) /\
  length (tmp0 mem) = Z.to_nat sizeof_trkbuf /\ Forall is_byte (tmp0 mem) /\
  length (in0 mem) = Z.to_nat sizeof_trkbuf /\
  length (out0 mem) = Z.to_nat sizeof_trkbuf.


(** * Properties *)

(** ** Words and bytes *)

Lemma u16_range x : 0 <= u16 x < 65536.
Proof. unfold u16. apply Z.mod_pos_bound. lia. Qed.

Lemma u16_small x : 0 <= x < 65536 -> u16 x = x.
Proof. unfold u16. intros. by apply Z.mod_small. Qed.

Lemma s16_range x : -32768 <= s16 x < 32768.
Proof.
  unfold s16. pose proof (Z.mod_pos_bound x 65536 ltac:(lia)).
  destruct (x mod 65536 <? 32768) eqn:E; lia.
Qed.

Lemma testbit_above w k n : 0 <= w < 2 ^ k -> 0 <= k <= n -> Z.testbit w n = false.
Proof.
  intros Hw Hk.
  destruct (Z.eq_dec w 0) as [-> | Hnz]; [apply Z.bits_0|].
  apply Z.bits_above_log2; [lia|].
  assert (Z.log2 w < k); [|lia].
  apply Z.log2_lt_pow2; lia.
Qed.

Lemma le16_bytes16 w : 0 <= w < 65536 -> le16 (lo8 w) (hi8 w) = w.
Proof.
  intros Hw. unfold le16, lo8, hi8.
  change 255 with (Z.ones 8).
  apply Z.bits_inj'. intros n Hn.
  rewrite Z.lor_spec, Z.land_spec, Z.shiftl_spec by lia.
  destruct (Z.lt_ge_cases n 8) as [Hlt | Hge].
  - rewrite Z.ones_spec_low by lia.
    rewrite (Z.testbit_neg_r _ (n - 8)) by lia.
    by rewrite andb_true_r, orb_false_r.
  - rewrite Z.ones_spec_high by lia.
    rewrite andb_false_r, orb_false_l.
    rewrite Z.land_spec, Z.shiftr_spec by lia.
    replace (n - 8 + 8) with n by lia.
    destruct (Z.lt_ge_cases n 16) as [Hlt | Hge'].
    + rewrite Z.ones_spec_low by lia. by rewrite andb_true_r.
    + rewrite Z.ones_spec_high by lia. rewrite andb_false_r.
      symmetry. apply (testbit_above w 16); lia.
Qed.

Lemma le16_bytes x y : is_byte x -> is_byte y -> le16 x y = x + 256 * y.
Proof.
  intros Hx Hy. unfold le16, is_byte in *.
  rewrite <- Z.lxor_lor, <- Z.add_nocarry_lxor.
  - rewrite Z.shiftl_mul_pow2 by lia. lia.
  - apply Z.bits_inj'. intros n Hn.
    rewrite Z.land_spec, Z.bits_0, Z.shiftl_spec by lia.
    destruct (Z.lt_ge_cases n 8) as [Hlt | Hge].
    + rewrite (Z.testbit_neg_r _ (n - 8)) by lia. apply andb_false_r.
    + rewrite (testbit_above x 8 n) by lia. reflexivity.
  - apply Z.bits_inj'. intros n Hn.
    rewrite Z.land_spec, Z.bits_0, Z.shiftl_spec by lia.
    destruct (Z.lt_ge_cases n 8) as [Hlt | Hge].
    + rewrite (Z.testbit_neg_r _ (n - 8)) by lia. apply andb_false_r.
    + rewrite (testbit_above x 8 n) by lia. reflexivity.
Qed.

Lemma bytes16_bytes w : is_byte (lo8 w) /\ is_byte (hi8 w).
Proof.
  unfold is_byte, lo8, hi8. change 255 with (Z.ones 8).
  rewrite !Z.land_ones by lia.
  split; apply Z.mod_pos_bound; lia.
Qed.

Lemma checkSum_loop_range data acc :
  0 <= acc < 65536 -> 0 <= checkSum_loop data acc < 65536.
Proof.
  revert acc. induction data as [|b rest IH]; intros acc Hacc; simpl; [done|].
  apply IH, u16_range.
Qed.

Lemma checkSum_range data size : 0 <= checkSum data size < 65536.
Proof. unfold checkSum. apply checkSum_loop_range. lia. Qed.

(** Only the first [size] bytes count. *)
Lemma checkSum_app data rest :
  checkSum (data ++ rest) (Z.of_nat (length data)) =
  checkSum data (Z.of_nat (length data)).
Proof.
  unfold checkSum. rewrite Nat2Z.id.
  by rewrite take_app_length, firstn_all.
Qed.

Lemma take_blit0 dst src n : n = length src -> take n (blit dst 0 src) = src.
Proof.
  intros ->. unfold blit. rewrite take_0, app_nil_l. apply take_app_length.
Qed.

Lemma length_blit dst off src :
  (off + length src <= length dst)%nat -> length (blit dst off src) = length dst.
Proof.
  intros H. unfold blit.
  rewrite !length_app, length_take, length_drop. lia.
Qed.

Lemma take_all_length {A} n (l : list A) : length (take n l) = length l -> take n l = l.
Proof. rewrite length_take. intros H. apply take_ge. lia. Qed.

Lemma list10 (buf : list Z) :
  length buf = 10%nat ->
  exists b0 b1 b2 b3 b4 b5 b6 b7 b8 b9, buf = [b0; b1; b2; b3; b4; b5; b6; b7; b8; b9].
Proof.
  intros H.
  do 10 (destruct buf as [|? buf]; [discriminate|]).
  destruct buf; [|discriminate]. by repeat eexists.
Qed.

(** ** Running the monad *)

Lemma bind_unfold {A B} (m : M A) (k : A -> M B) s :
  (m ≫= k) s = match m s with Ok a s' => k a s' | Crash f => Crash f end.
Proof. reflexivity. Qed.

Lemma bind_ok {A B} (m : M A) (k : A -> M B) s a s' :
  m s = Ok a s' -> (m ≫= k) s = k a s'.
Proof. intros H. by rewrite bind_unfold, H. Qed.

Lemma bind_crash {A B} (m : M A) (k : A -> M B) s f :
  m s = Crash f -> (m ≫= k) s = Crash f.
Proof. intros H. by rewrite bind_unfold, H. Qed.

Lemma when_unfold b m s : when_ b m s = if b then m s else Ok tt s.
Proof. by destruct b. Qed.

Lemma index_ok {A} name (arr : list A) i x s :
  0 <= i -> arr !! Z.to_nat i = Some x -> index name arr i s = Ok x s.
Proof.
  intros Hi Hx. unfold index.
  destruct (0 <=? i) eqn:E; [|lia]. by rewrite Hx.
Qed.

Lemma index_crash {A} name (arr : list A) i s :
  i < 0 \/ Z.of_nat (length arr) <= i ->
  index name arr i s = Crash (OutOfBounds name i).
Proof.
  intros Hi. unfold index.
  destruct (0 <=? i) eqn:E; [|done].
  rewrite lookup_ge_None_2; [done|lia].
Qed.

Lemma drive_file_ok d f s :
  0 <= d -> driveFile s !! Z.to_nat d = Some f -> drive_file d s = Ok f s.
Proof.
  intros Hd Hf. unfold drive_file.
  rewrite bind_unfold. simpl. by apply index_ok.
Qed.

Lemma assign_ok {A} name (proj : FDC -> list A) set i v s :
  0 <= i -> is_Some (proj s !! Z.to_nat i) ->
  assign name proj set i v s = Ok tt (set (<[Z.to_nat i := v]> (proj s)) s).
Proof.
  intros Hi [x Hx]. unfold assign.
  rewrite bind_unfold. simpl.
  by rewrite (bind_ok _ _ _ _ _ (index_ok name _ _ _ _ Hi Hx)).
Qed.

Lemma emitted_app s s' evs : trace s' = trace s ++ evs -> emitted s s' = evs.
Proof. intros H. unfold emitted. rewrite H. by rewrite drop_app_length. Qed.

Lemma after_ok {A} (m : M A) s a s' : m s = Ok a s' -> Demo.after m s = s'.
Proof. intros H. unfold Demo.after. by rewrite H. Qed.

(** Projections of updated states, and one step of a bind. *)
Ltac psimpl :=
  cbn [world trace serialPort statPkts readPkts writePkts crcErrs outPkts cmdBuf
       state connected tmpBuf inBuf outBuf tmpBufIdx maxTrack curTrack headStatus
       driveSelected driveFile
       set_world set_trace set_serialPort set_statPkts set_readPkts set_writePkts
       set_crcErrs set_outPkts set_cmdBuf set_state set_connected set_tmpBuf
       set_inBuf set_outBuf set_tmpBufIdx set_maxTrack set_curTrack set_headStatus
       set_driveSelected set_driveFile].

Ltac split_ands := repeat match goal with |- _ /\ _ => split end.

Ltac mcbn :=
  cbn [gets modify emit mret M_ret negb on_cmdBuf on_outBuf incr];
  psimpl.

Ltac mstep := rewrite bind_unfold; mcbn.

(** Closed goals about the example runs: evaluate both sides. *)
Ltac by_run :=
  cbv zeta;
  repeat match goal with |- _ /\ _ => split end;
  vm_compute; reflexivity.

(** ** Request frames *)

Lemma frame_facts a b c d p1 p2 :
  0 <= p1 < 65536 -> 0 <= p2 < 65536 ->
  let f := Cmd.frame [a; b; c; d] p1 p2 in
  length f = 10%nat /\ Cmd.command f = [a; b; c; d] /\
  Cmd.param1 f = p1 /\ Cmd.param2 f = p2 /\
  Cmd.checksum f = checkSum f CMD_LEN.
Proof.
  intros H1 H2. unfold Cmd.frame. cbn -[checkSum le16 lo8 hi8 Cmd.checksum].
  split; [done|]. split; [done|].
  split; [by apply le16_bytes16|]. split; [by apply le16_bytes16|].
  unfold Cmd.checksum, Cmd.word_at. cbn -[checkSum le16 lo8 hi8].
  rewrite le16_bytes16 by apply checkSum_range. reflexivity.
Qed.

Lemma track_param_decode d t :
  0 <= d < 16 -> 0 <= t < 4096 ->
  0 <= track_param d t < 65536 /\
  s8 (Z.shiftr (track_param d t) 12) = d /\
  s16 (Z.land (track_param d t) 0xfff) = t.
Proof.
  intros Hd Ht.
  assert (E : track_param d t = d * 4096 + t).
  { unfold track_param. rewrite Z.shiftl_mul_pow2 by lia.
    rewrite <- Z.lxor_lor, <- Z.add_nocarry_lxor; [done| |];
      apply Z.bits_inj'; intros n Hn;
      rewrite Z.land_spec, Z.bits_0;
      (destruct (Z.lt_ge_cases n 12) as [Hlt | Hge];
       [ rewrite Z.mul_pow2_bits_low by lia; reflexivity
       | rewrite (testbit_above t 12 n) by lia; apply andb_false_r ]). }
  rewrite E. split; [lia|]. split.
  - rewrite Z.shiftr_div_pow2 by lia.
    replace ((d * 4096 + t) / 2 ^ 12) with d.
    + unfold s8. rewrite Z.mod_small by lia. destruct (_ <? _) eqn:E1; lia.
    + symmetry. rewrite Z.add_comm, Z.div_add by lia. rewrite Z.div_small; lia.
  - change 0xfff with (Z.ones 12). rewrite Z.land_ones by lia.
    replace ((d * 4096 + t) mod 2 ^ 12) with t.
    + unfold s16. rewrite Z.mod_small by lia. destruct (_ <? _) eqn:E1; lia.
    + symmetry. rewrite Z.add_comm, Z.mod_add by lia. rewrite Z.mod_small; lia.
Qed.

Lemma trackLen_small len :
  0 <= len <= sizeof_trkbuf -> s16 len = len /\ clamp_trackLen len = len /\ u16 len = len.
Proof.
  unfold sizeof_trkbuf, TRKBUF_SIZE, CRC_LEN. intros H.
  assert (E : s16 len = len).
  { unfold s16. rewrite Z.mod_small by lia. destruct (_ <? _) eqn:E1; lia. }
  split; [done|]. split; [|apply u16_small; lia].
  unfold clamp_trackLen, u64, sizeof_trkbuf, TRKBUF_SIZE, CRC_LEN.
  rewrite Z.mod_small by lia. destruct (_ <? _) eqn:E1; lia.
Qed.

Lemma clamp_trackLen_range x :
  -32768 <= x < 32768 -> 0 <= clamp_trackLen x <= sizeof_trkbuf.
Proof.
  intros Hx. unfold clamp_trackLen, u64, s16, sizeof_trkbuf, TRKBUF_SIZE, CRC_LEN.
  destruct (Z.lt_ge_cases x 0) as [Hneg | Hpos].
  - replace (x mod 2 ^ 64) with (x + 2 ^ 64).
    + destruct (_ <? _) eqn:E; [vm_compute; split; discriminate | lia].
    + symmetry. rewrite <- (Z.mod_add _ 1) by lia.
      rewrite Z.mod_small; lia.
  - rewrite Z.mod_small by lia.
    destruct (_ <? _) eqn:E; [vm_compute; split; discriminate | lia].
Qed.

Lemma trackNum_of_range cmd : 0 <= trackNum_of cmd < 4096.
Proof.
  unfold trackNum_of.
  assert (H : 0 <= Z.land (Cmd.param1 cmd) 0xfff < 4096).
  { change 0xfff with (Z.ones 12). rewrite Z.land_ones by lia.
    apply Z.mod_pos_bound. lia. }
  unfold s16. rewrite Z.mod_small by lia.
  destruct (_ <? _) eqn:E; lia.
Qed.

Lemma trackLen_of_range cmd : -32768 <= trackLen_of cmd < 32768.
Proof. apply s16_range. Qed.

Lemma wsta_of_frame rc cmd :
  length cmd = 10%nat -> 0 <= rc < 65536 ->
  let r := wsta_of rc cmd in
  length r = 10%nat /\ Cmd.command r = Cmd.WSTA /\ Cmd.rcode r = rc /\
  Cmd.checksum r = checkSum r CMD_LEN.
Proof.
  intros Hlen Hrc.
  destruct (list10 _ Hlen) as (b0&b1&b2&b3&b4&b5&b6&b7&b8&b9&->).
  unfold wsta_of. cbn -[checkSum le16 lo8 hi8].
  repeat split.
  - unfold Cmd.rcode, Cmd.param1, Cmd.word_at. cbn -[le16 lo8 hi8]. by apply le16_bytes16.
  - unfold Cmd.checksum, Cmd.word_at. cbn -[checkSum le16 lo8 hi8].
    rewrite le16_bytes16 by apply checkSum_range. reflexivity.
Qed.

(** ** Drive table *)

Lemma mounted_file s d :
  mounted s d = true ->
  0 <= d /\ exists f, driveFile s !! Z.to_nat d = Some f /\ isOpen f = true.
Proof.
  unfold mounted. destruct (0 <=? d) eqn:E; [|done].
  destruct (driveFile s !! Z.to_nat d) as [f|] eqn:Hf; [|done].
  intros Ho. split; [lia|]. by exists f.
Qed.

Lemma backing_file s d c :
  backing s d = Some c ->
  0 <= d /\ exists f, driveFile s !! Z.to_nat d = Some f /\ isOpen f = true /\
                      files (world s) !! fileName f = Some c.
Proof.
  unfold backing. destruct (0 <=? d) eqn:E; [|done].
  destruct (driveFile s !! Z.to_nat d) as [f|] eqn:Hf; [|done].
  destruct (isOpen f) eqn:Ho; [|done].
  intros Hc. split; [lia|]. by exists f.
Qed.

Lemma updateTrack_mounted s d t f :
  0 <= d < MAX_DRIVE ->
  driveFile s !! Z.to_nat d = Some f -> isOpen f = true ->
  is_Some (curTrack s !! Z.to_nat d) ->
  exists s1 evs,
    updateTrack d t s = Ok t s1 /\ keeps s s1 /\
    trace s1 = trace s ++ evs /\ sent evs = [] /\
    Forall (fun e => e = TrackChanged (u8 d) (u16 t)) evs /\
    (0 <= t < 65536 -> curTrack s1 !! Z.to_nat d = Some t).
Proof.
  intros Hd Hf Ho [cur Hcur]. unfold updateTrack.
  destruct (MAX_DRIVE <=? d) eqn:E; [lia|].
  rewrite (bind_ok _ _ _ _ _ (drive_file_ok _ _ _ (proj1 Hd) Hf)).
  rewrite Ho. cbn [negb].
  rewrite (bind_ok _ _ _ cur s).
  2:{ mstep. apply index_ok; [lia|done]. }
  rewrite bind_unfold, when_unfold.
  destruct (t =? cur) eqn:Et; cbn [negb].
  - exists s, []. rewrite app_nil_r.
    split; [done|]. split; [done|]. split; [done|]. split; [done|].
    split; [constructor|].
    intros _. rewrite Hcur. f_equal. lia.
  - rewrite bind_unfold, assign_ok by (first [lia | eauto]). mcbn.
    eexists _, [_]. split; [reflexivity|]. unfold keeps. psimpl.
    rewrite length_insert.
    split; [by split_ands|]. split; [done|]. split; [done|].
    split; [by repeat constructor|].
    intros Ht. rewrite list_lookup_insert_eq.
    + by rewrite u16_small.
    + by apply lookup_lt_Some in Hcur.
Qed.

(** [unmountDisk] resets the track before it closes the file. *)
Lemma unmountDisk_resets_track s d :
  0 <= d < MAX_DRIVE ->
  mounted s d = true ->
  is_Some (curTrack s !! Z.to_nat d) ->
  exists s',
    unmountDisk d s = Ok tt s' /\
    mounted s' d = false /\ curTrack s' !! Z.to_nat d = Some 0.
Proof.
  intros Hd Hm Hcur.
  apply mounted_file in Hm as (_ & f & Hf & Ho).
  destruct (updateTrack_mounted s d 0 f Hd Hf Ho Hcur)
    as (s1 & evs & Hrun & Hk & _ & _ & _ & Hcur1).
  destruct Hk as (_ & Hdf & _).
  unfold unmountDisk.
  rewrite (bind_ok _ _ _ _ _ (drive_file_ok _ _ _ (proj1 Hd) Hf)).
  rewrite Ho, bind_unfold, when_unfold.
  rewrite (bind_ok _ _ _ _ _ Hrun).
  rewrite (bind_ok _ _ _ f s1) by (apply drive_file_ok; [lia | by rewrite Hdf]).
  unfold set_drive_file. rewrite assign_ok by (rewrite ?Hdf; first [lia | eauto]).
  mcbn. eexists. split; [reflexivity|]. unfold mounted. psimpl.
  destruct (0 <=? d) eqn:E; [|lia].
  rewrite Hdf, list_lookup_insert_eq by (by apply lookup_lt_Some in Hf).
  split; [done|]. apply Hcur1. lia.
Qed.

(** A re-mount that fails closes the drive and leaves [curTrack] as it
    was. *)
Lemma mountDisk_reopen_fails s d filename :
  0 <= d < MAX_DRIVE ->
  mounted s d = true ->
  files (world s) !! filename = None ->
  exists s',
    mountDisk d filename s = Ok false s' /\
    mounted s' d = false /\ curTrack s' = curTrack s /\ trace s' = trace s.
Proof.
  intros Hd Hm Hnone.
  apply mounted_file in Hm as (_ & f & Hf & Ho).
  pose proof (lookup_lt_Some _ _ _ Hf) as Hlt.
  unfold mountDisk, set_drive_file.
  rewrite (bind_ok _ _ _ _ _ (drive_file_ok _ _ _ (proj1 Hd) Hf)).
  rewrite Ho, bind_unfold, when_unfold.
  rewrite assign_ok by (first [lia | eauto]).
  set (s1 := set_driveFile _ s).
  assert (H1 : driveFile s1 !! Z.to_nat d = Some (File.close f)).
  { unfold s1. psimpl. by apply list_lookup_insert_eq. }
  rewrite (bind_ok _ _ _ _ _ (drive_file_ok _ _ _ (proj1 Hd) H1)).
  rewrite bind_unfold, assign_ok by (first [lia | eauto]).
  set (s2 := set_driveFile _ s1).
  assert (H2 : driveFile s2 !! Z.to_nat d = Some (File.setFileName filename (File.close f))).
  { unfold s2. psimpl. apply list_lookup_insert_eq.
    unfold s1. psimpl. by rewrite length_insert. }
  rewrite (bind_ok _ _ _ _ _ (drive_file_ok _ _ _ (proj1 Hd) H2)).
  mstep. unfold File.open. cbn [fileName File.setFileName File.close].
  replace (world s2) with (world s) by reflexivity. rewrite Hnone.
  rewrite bind_unfold, assign_ok by (first [lia | eauto]).
  mcbn. eexists. split; [reflexivity|]. unfold mounted. psimpl.
  destruct (0 <=? d) eqn:E; [|lia].
  rewrite list_lookup_insert_eq.
  - done.
  - unfold s2, s1. psimpl. by rewrite !length_insert.
Qed.

(** ** C5: a failed re-mount leaves the track of the closed drive

    Drive 0 is mounted and the controller has read track 1; [mountDisk]
    with a file that does not open closes the drive, returns [false] and
    leaves [curTrack[0]] at 1. *)
Theorem failed_remount_keeps_curTrack :
  let s0 := Scenario.read_track1 in
  let s1 := Demo.after (mountDisk 0 "missing.dsk") s0 in
  mounted s0 0 = true /\ curTrack s0 !! 0%nat = Some 1 /\
  mountDisk 0 "missing.dsk" s0 = Ok false s1 /\
  mounted s1 0 = false /\ curTrack s1 !! 0%nat = Some 1.
Proof. by_run. Qed.

(** ** C6: [mountDisk] has no range test

    For every drive index at or above [MAX_DRIVE], on a server whose drive
    table has its [MAX_DRIVE] slots, the first thing [mountDisk] does is
    index [driveFile] with it: no error is reported and no value returned. *)
Theorem mountDisk_out_of_range s drive filename :
  length (driveFile s) = Z.to_nat MAX_DRIVE ->
  MAX_DRIVE <= drive ->
  mountDisk drive filename s = Crash (OutOfBounds "driveFile" drive).
Proof.
  intros Hlen Hd. unfold mountDisk.
  apply bind_crash. unfold drive_file. mstep.
  apply index_crash. right. rewrite Hlen. unfold MAX_DRIVE in *. lia.
Qed.

(** Drive 4 on a new server. *)
Lemma mountDisk_out_of_range_witness :
  mountDisk 4 "a.dsk" Demo.fresh = Crash (OutOfBounds "driveFile" 4).
Proof.
  apply (mountDisk_out_of_range Demo.fresh 4 "a.dsk").
  - vm_compute. reflexivity.
  - vm_compute. discriminate.
Defined.

(** ** Link supervisor *)

Lemma closePort_run s :
  exists s' evs, closePort s = Ok tt s' /\ trace s' = trace s ++ evs /\
    tmpBufIdx s' = tmpBufIdx s /\ world s' = world s.
Proof.
  unfold closePort, set_port_open. mstep. rewrite when_unfold.
  destruct (sp_isOpen (serialPort s)).
  - repeat mstep. eexists _, [_]. split; [reflexivity|]. done.
  - exists s, []. by rewrite app_nil_r.
Qed.

(** ** C10: the link is reported up as soon as the port opens

    When [openPort] succeeds, [connected] is set and the last event is
    [statusChanged("Online")], with no byte taken from the port; a
    [timeoutSlot] that runs next clears [connected] and emits
    [statusChanged("Communications timeout")]. *)
Theorem openPort_then_timeout s name baud s1 :
  openPort name baud s = Ok true s1 ->
  connected s1 = true /\
  last (emitted s s1) = Some (StatusChanged "Online") /\
  tmpBufIdx s1 = tmpBufIdx s /\
  exists s2, timeoutSlot s1 = Ok tt s2 /\
    emitted s1 s2 = [SerialClear; StatusChanged "Communications timeout"] /\
    connected s2 = false /\ state s2 = STATE_CMD.
Proof.
  unfold openPort. mstep. rewrite bind_unfold.
  assert (exists s0 evs, when_ (sp_isOpen (serialPort s)) closePort s = Ok tt s0 /\
            trace s0 = trace s ++ evs /\ tmpBufIdx s0 = tmpBufIdx s /\ world s0 = world s)
    as (s0 & evs & -> & Htr & Hidx & Hw).
  { rewrite when_unfold. destruct (sp_isOpen (serialPort s)); [apply closePort_run|].
    exists s, []. by rewrite app_nil_r. }
  repeat mstep.
  destruct (portOk (world s0) name); [|discriminate].
  unfold set_port_open, setBaud. repeat mstep. rewrite !when_unfold.
  destruct (baudOk (world s0) baud); [|].
  2:{ cbn [negb]. repeat mstep. unfold closePort, set_port_open. repeat mstep.
      rewrite when_unfold. psimpl. cbn [sp_isOpen]. repeat mstep. discriminate. }
  cbn [negb]. repeat mstep. intros [= <-]. psimpl.
  split; [done|]. split.
  { rewrite (emitted_app s _ (evs ++ [StatusChanged "Online"])).
    - apply last_snoc.
    - psimpl. by rewrite Htr, app_assoc. }
  split; [done|].
  unfold timeoutSlot. repeat mstep. cbn [sp_isOpen]. repeat mstep.
  rewrite when_unfold. psimpl. repeat mstep.
  eexists. split; [reflexivity|]. psimpl.
  split; [|done]. apply emitted_app. psimpl. by rewrite <- app_assoc.
Qed.

(** The port of the example host, opened on a new server. *)
Lemma openPort_then_timeout_witness :
  let s1 := Demo.after (openPort "ttyUSB0" 403200) Demo.fresh in
  openPort "ttyUSB0" 403200 Demo.fresh = Ok true s1 /\
  connected s1 = true /\
  last (emitted Demo.fresh s1) = Some (StatusChanged "Online") /\
  tmpBufIdx s1 = tmpBufIdx Demo.fresh /\
  exists s2, timeoutSlot s1 = Ok tt s2 /\
    emitted s1 s2 = [SerialClear; StatusChanged "Communications timeout"] /\
    connected s2 = false /\ state s2 = STATE_CMD.
Proof.
  intros s1.
  assert (H : openPort "ttyUSB0" 403200 Demo.fresh = Ok true s1)
    by (vm_compute; reflexivity).
  split; [exact H|].
  exact (openPort_then_timeout Demo.fresh "ttyUSB0" 403200 s1 H).
Defined.

(** ** Framer *)

Lemma readData_cmd s frame :
  state s = STATE_CMD -> tmpBufIdx s = 0 ->
  length (tmpBuf s) = Z.to_nat sizeof_trkbuf ->
  length frame = 10%nat ->
  readData frame s =
    (dispatch ≫= fun _ => modify (set_tmpBufIdx 0))
      (set_cmdBuf frame
         (set_tmpBufIdx 10 (set_tmpBuf (blit (tmpBuf s) 0 frame) s))).
Proof.
  intros Hst Hidx Htmp Hlen. unfold readData.
  mstep. rewrite Hidx, Hlen.
  change (Z.of_nat 10 <=? u64 (sizeof_trkbuf - 0)) with true. cbv iota.
  mstep.
  change ((0 <=? 0) && (0 + Z.of_nat 10 <=? sizeof_trkbuf)) with true. cbv iota.
  rewrite bind_unfold. mcbn. rewrite bind_unfold, when_unfold.
  change (negb (Z.of_nat 10 =? 0)) with true. cbv iota. mcbn.
  rewrite bind_unfold. mcbn. rewrite bind_unfold. mcbn.
  rewrite Hst. change (STATE_CMD =? STATE_CMD) with true. cbv iota.
  rewrite when_unfold. change (0 + Z.of_nat 10 =? CMDBUF_SIZE) with true. cbv iota.
  rewrite bind_unfold. mcbn. rewrite bind_unfold. mcbn.
  change (Z.to_nat 0) with 0%nat. change (Z.to_nat CMDBUF_SIZE) with 10%nat.
  rewrite take_blit0 by done.
  reflexivity.
Qed.

Lemma dispatch_read s :
  Cmd.checksum (cmdBuf s) = checkSum (cmdBuf s) CMD_LEN ->
  Cmd.command (cmdBuf s) = Cmd.READ ->
  dispatch s =
    (incr readPkts set_readPkts ≫= fun _ => readTrack ≫= fun _ => mret tt) s.
Proof.
  intros Hck Htag. unfold dispatch. mstep.
  rewrite Hck, Z.eqb_refl. unfold Cmd.is_tag. rewrite Htag.
  reflexivity.
Qed.

Lemma dispatch_writ s :
  Cmd.checksum (cmdBuf s) = checkSum (cmdBuf s) CMD_LEN ->
  Cmd.command (cmdBuf s) = Cmd.WRIT ->
  dispatch s =
    (writeResponse ≫= fun _ =>
       incr writePkts set_writePkts ≫= fun _ => modify (set_state STATE_WRIT)) s.
Proof.
  intros Hck Htag. unfold dispatch. mstep.
  rewrite Hck, Z.eqb_refl. unfold Cmd.is_tag. rewrite Htag.
  reflexivity.
Qed.

(** In the payload state the framer only counts: until the buffer holds
    [TRKBUF_SIZE + CRC_LEN] bytes nothing is sent and nothing else
    changes, whatever length the WRIT command announced. *)
Lemma readData_writ_waits s avail :
  state s = STATE_WRIT ->
  0 <= tmpBufIdx s ->
  tmpBufIdx s + Z.of_nat (length avail) < TRKBUF_SIZE + CRC_LEN ->
  exists s',
    readData avail s = Ok tt s' /\
    trace s' = trace s /\ state s' = STATE_WRIT /\ cmdBuf s' = cmdBuf s /\
    tmpBufIdx s' = tmpBufIdx s + Z.of_nat (length avail).
Proof.
  intros Hst Hidx Hroom.
  unfold TRKBUF_SIZE, CRC_LEN in Hroom.
  unfold readData. mstep.
  assert (Hu : u64 (sizeof_trkbuf - tmpBufIdx s) = sizeof_trkbuf - tmpBufIdx s).
  { unfold u64, sizeof_trkbuf, TRKBUF_SIZE, CRC_LEN. apply Z.mod_small. lia. }
  rewrite Hu.
  destruct (Z.of_nat (length avail) <=? sizeof_trkbuf - tmpBufIdx s) eqn:E1;
    [|unfold sizeof_trkbuf, TRKBUF_SIZE, CRC_LEN in *; lia].
  mstep.
  destruct ((0 <=? tmpBufIdx s) &&
            (tmpBufIdx s + Z.of_nat (length avail) <=? sizeof_trkbuf)) eqn:E2;
    [|unfold sizeof_trkbuf, TRKBUF_SIZE, CRC_LEN in *; lia].
  rewrite bind_unfold. mcbn. rewrite bind_unfold, when_unfold.
  assert (Hwait : forall s1, state s1 = STATE_WRIT ->
            tmpBufIdx s1 = tmpBufIdx s + Z.of_nat (length avail) ->
            (gets tmpBufIdx ≫= fun idx => gets state ≫= fun st =>
               if st =? STATE_CMD then
                 when_ (idx =? CMDBUF_SIZE)
                   (gets tmpBuf ≫= fun tmp =>
                    modify (set_cmdBuf (take (Z.to_nat CMDBUF_SIZE) tmp)) ≫= fun _ =>
                    dispatch ≫= fun _ => modify (set_tmpBufIdx 0))
               else if st =? STATE_WRIT then
                 when_ (idx =? TRKBUF_SIZE + CRC_LEN)
                   (gets tmpBuf ≫= fun tmp =>
                    modify (set_inBuf (take (Z.to_nat sizeof_trkbuf) tmp)) ≫= fun _ =>
                    writeTrack ≫= fun _ =>
                    modify (set_tmpBufIdx 0) ≫= fun _ => modify (set_state STATE_CMD))
               else mret tt) s1 = Ok tt s1).
  { intros s1 Hs1 Hi1. do 2 mstep. rewrite Hs1, Hi1.
    change (STATE_WRIT =? STATE_CMD) with false.
    change (STATE_WRIT =? STATE_WRIT) with true. cbv iota.
    rewrite when_unfold.
    destruct (_ =? _) eqn:E3; [unfold TRKBUF_SIZE, CRC_LEN in *; lia | done]. }
  destruct (negb (Z.of_nat (length avail) =? 0)) eqn:E4; mcbn.
  - rewrite Hwait by (psimpl; done). eexists. split; [reflexivity|]. by psimpl.
  - rewrite Hwait; psimpl; [|done|].
    + eexists. split; [reflexivity|]. psimpl.
      split_ands; try done.
      destruct (Z.of_nat (length avail) =? 0) eqn:E5; [lia | discriminate].
    + destruct (Z.of_nat (length avail) =? 0) eqn:E5; [lia | discriminate].
Qed.

(** The port hands the payload over in pieces; a piece that does not fill
    the buffer is stored and counted. *)
Lemma readData_writ_chunk s avail :
  state s = STATE_WRIT ->
  0 <= tmpBufIdx s ->
  tmpBufIdx s + Z.of_nat (length avail) < TRKBUF_SIZE + CRC_LEN ->
  avail <> [] ->
  readData avail s =
    Ok tt (set_tmpBufIdx (tmpBufIdx s + Z.of_nat (length avail))
             (set_tmpBuf (blit (tmpBuf s) (Z.to_nat (tmpBufIdx s)) avail) s)).
Proof.
  intros Hst Hidx Hroom Hne.
  assert (Hpos : 0 < Z.of_nat (length avail)) by (destruct avail; [done | cbn; lia]).
  unfold TRKBUF_SIZE, CRC_LEN in Hroom.
  unfold readData. mstep.
  assert (Hu : u64 (sizeof_trkbuf - tmpBufIdx s) = sizeof_trkbuf - tmpBufIdx s).
  { unfold u64, sizeof_trkbuf, TRKBUF_SIZE, CRC_LEN. apply Z.mod_small. lia. }
  rewrite Hu.
  destruct (Z.of_nat (length avail) <=? sizeof_trkbuf - tmpBufIdx s) eqn:E1;
    [|unfold sizeof_trkbuf, TRKBUF_SIZE, CRC_LEN in *; lia].
  mstep.
  destruct ((0 <=? tmpBufIdx s) &&
            (tmpBufIdx s + Z.of_nat (length avail) <=? sizeof_trkbuf)) eqn:E2;
    [|unfold sizeof_trkbuf, TRKBUF_SIZE, CRC_LEN in *; lia].
  rewrite bind_unfold. mcbn. rewrite bind_unfold, when_unfold.
  destruct (Z.of_nat (length avail) =? 0) eqn:E3; [lia|]. cbn [negb]. mcbn.
  do 2 mstep. rewrite Hst.
  change (STATE_WRIT =? STATE_CMD) with false.
  change (STATE_WRIT =? STATE_WRIT) with true. cbv iota.
  rewrite when_unfold.
  destruct (tmpBufIdx s + Z.of_nat (length avail) =? TRKBUF_SIZE + CRC_LEN) eqn:E4;
    [unfold TRKBUF_SIZE, CRC_LEN in *; lia | done].
Qed.

(** The piece that fills the buffer starts [writeTrack] on all of it. *)
Lemma readData_payload_at s pre last :
  state s = STATE_WRIT ->
  tmpBufIdx s = Z.of_nat (length pre) ->
  take (length pre) (tmpBuf s) = pre ->
  length (tmpBuf s) = Z.to_nat sizeof_trkbuf ->
  length (pre ++ last) = Z.to_nat sizeof_trkbuf ->
  last <> [] ->
  readData last s =
    (writeTrack ≫= fun _ =>
       modify (set_tmpBufIdx 0) ≫= fun _ => modify (set_state STATE_CMD))
      (set_inBuf (pre ++ last)
         (set_tmpBufIdx sizeof_trkbuf (set_tmpBuf (pre ++ last) s))).
Proof.
  intros Hst Hidx Hpre Htmp Hlen Hne.
  assert (Hpos : 0 < Z.of_nat (length last)) by (destruct last; [done | cbn; lia]).
  rewrite length_app in Hlen.
  assert (Hsum : Z.of_nat (length pre) + Z.of_nat (length last) = sizeof_trkbuf) by lia.
  unfold readData. mstep. rewrite Hidx.
  assert (Hu : u64 (sizeof_trkbuf - Z.of_nat (length pre)) = Z.of_nat (length last)).
  { assert (Hsz : sizeof_trkbuf = 4386) by reflexivity.
    unfold u64. rewrite Z.mod_small; lia. }
  rewrite Hu, Z.leb_refl.
  mstep.
  destruct ((0 <=? Z.of_nat (length pre)) &&
            (Z.of_nat (length pre) + Z.of_nat (length last) <=? sizeof_trkbuf)) eqn:E2;
    [|lia].
  rewrite bind_unfold. mcbn. rewrite bind_unfold, when_unfold.
  destruct (Z.of_nat (length last) =? 0) eqn:E3; [lia|]. cbn [negb]. mcbn.
  do 2 mstep. rewrite Hst.
  change (STATE_WRIT =? STATE_CMD) with false.
  change (STATE_WRIT =? STATE_WRIT) with true. cbv iota.
  rewrite when_unfold, Hsum.
  change (sizeof_trkbuf =? TRKBUF_SIZE + CRC_LEN) with true. cbv iota.
  rewrite bind_unfold. mcbn. rewrite bind_unfold. mcbn.
  assert (E : blit (tmpBuf s) (Z.to_nat (Z.of_nat (length pre))) last = pre ++ last).
  { unfold blit. rewrite Nat2Z.id, Hpre, drop_ge, app_nil_r by lia. done. }
  rewrite E, (take_ge (pre ++ last)) by (rewrite length_app; lia).
  reflexivity.
Qed.

(** Updates of [tmpBuf] and [tmpBufIdx] overwrite earlier ones. *)
Lemma set_tmp_again s b i b' i' :
  set_tmpBufIdx i' (set_tmpBuf b' (set_tmpBufIdx i (set_tmpBuf b s))) =
  set_tmpBufIdx i' (set_tmpBuf b' s).
Proof. by destruct s. Qed.

Lemma bind_ret_tt (m : M unit) s : (m ≫= fun _ => mret tt) s = m s.
Proof. rewrite bind_unfold. by destruct (m s) as [[] s'|f]. Qed.

(** Pieces that add up to a full buffer start [writeTrack] exactly as the
    full buffer delivered at once. *)
Lemma feed_payload chunks : forall s pre,
  state s = STATE_WRIT ->
  tmpBufIdx s = Z.of_nat (length pre) ->
  take (length pre) (tmpBuf s) = pre ->
  length (tmpBuf s) = Z.to_nat sizeof_trkbuf ->
  length (pre ++ concat chunks) = Z.to_nat sizeof_trkbuf ->
  Forall (fun c => c <> []) chunks ->
  chunks <> [] ->
  feed chunks s =
    (writeTrack ≫= fun _ =>
       modify (set_tmpBufIdx 0) ≫= fun _ => modify (set_state STATE_CMD))
      (set_inBuf (pre ++ concat chunks)
         (set_tmpBufIdx sizeof_trkbuf (set_tmpBuf (pre ++ concat chunks) s))).
Proof.
  induction chunks as [|c rest IH]; intros s pre Hst Hidx Hpre Htmp Hlen Hall Hne; [done|].
  apply Forall_cons in Hall as [Hc Hrest].
  destruct rest as [|c' rest'].
  - cbn [feed concat] in *. rewrite app_nil_r in *.
    rewrite bind_ret_tt. by apply readData_payload_at.
  - cbn [feed]. fold (feed (c' :: rest')). rewrite bind_unfold.
    assert (Hc' : (0 < length c')%nat).
    { apply Forall_cons in Hrest as [Hc' _]. destruct c'; [done | cbn; lia]. }
    assert (Hroom : tmpBufIdx s + Z.of_nat (length c) < TRKBUF_SIZE + CRC_LEN).
    { rewrite Hidx. cbn [concat] in Hlen. rewrite !length_app in Hlen.
      unfold sizeof_trkbuf in Hlen. lia. }
    rewrite readData_writ_chunk by (first [done | lia]).
    change (readData c' ≫= fun _ : () => feed rest') with (feed (c' :: rest')).
    rewrite (IH _ (pre ++ c)); try done.
    + cbn [concat]. psimpl. rewrite <- !app_assoc, set_tmp_again. reflexivity.
    + psimpl. rewrite length_app. lia.
    + psimpl. rewrite Hidx, Nat2Z.id. unfold blit. rewrite Hpre.
      rewrite app_assoc. apply take_app_length.
    + psimpl. rewrite Hidx, Nat2Z.id, length_blit; [done|].
      cbn [concat] in Hlen. rewrite !length_app in Hlen. lia.
    + cbn [concat] in Hlen. by rewrite <- app_assoc.
Qed.

(** ** C1: the payload state waits for a full buffer, whatever [trackLen]

    After a WRIT command for 137 bytes, the 139 bytes of payload and
    trailer leave the framer in [STATE_WRIT] with nothing sent; the WSTA
    frame goes out only when [TRKBUF_SIZE + CRC_LEN] bytes are buffered. *)
Theorem writ_payload_waits_for_full_buffer :
  let s0 := Scenario.writing137 in
  let s1 := Demo.after (readData Scenario.payload139) s0 in
  let rest := zeros (Z.to_nat (TRKBUF_SIZE - 137)) in
  let s2 := Demo.after (readData rest) s1 in
  trackLen_of (cmdBuf s0) = 137 /\ state s0 = STATE_WRIT /\ tmpBufIdx s0 = 0 /\
  length Scenario.payload139 = 139%nat /\
  readData Scenario.payload139 s0 = Ok tt s1 /\
  emitted s0 s1 = [] /\ state s1 = STATE_WRIT /\ tmpBufIdx s1 = 139 /\
  readData rest s1 = Ok tt s2 /\
  emitted s1 s2 =
    [TrackChanged 0 10; SerialWrite [87; 83; 84; 65; 0; 0; 137; 0; 200; 1]] /\
  state s2 = STATE_CMD.
Proof. by_run. Qed.

(** ** STAT *)

(** On a server with no drive selected, the first STAT frame that names a
    drive up to [MAX_DRIVE] reads [headStatus[0xff]]. *)
Lemma statUpdate_unselected s :
  driveSelected s = 0xff ->
  length (headStatus s) = Z.to_nat MAX_DRIVE ->
  u8 (Z.land (Cmd.param1 (cmdBuf s)) 0xff) <= MAX_DRIVE ->
  statUpdate s = Crash (OutOfBounds "headStatus" 0xff).
Proof.
  intros Hsel Hlen Hnew. unfold statUpdate. do 2 mstep. rewrite Hsel.
  rewrite bind_unfold, when_unfold.
  set (newDrive := u8 _) in *.
  destruct (newDrive <=? MAX_DRIVE) eqn:E1; [|lia].
  destruct (255 =? newDrive) eqn:E2; [unfold MAX_DRIVE in *; lia|].
  cbn [andb negb].
  rewrite (bind_crash _ _ _ (OutOfBounds "headStatus" 255)); [done|].
  mstep. apply index_crash. right. rewrite Hlen. vm_compute. discriminate.
Qed.

(** With a drive in range selected, a STAT frame whose drive byte is
    [MAX_DRIVE] passes the range test and reads [headStatus[MAX_DRIVE]]. *)
Lemma statUpdate_drive_MAX_DRIVE s :
  0 <= driveSelected s < MAX_DRIVE ->
  length (headStatus s) = Z.to_nat MAX_DRIVE ->
  u8 (Z.land (Cmd.param1 (cmdBuf s)) 0xff) = MAX_DRIVE ->
  exists f, statUpdate s = Crash f /\ f = OutOfBounds "headStatus" MAX_DRIVE.
Proof.
  intros Hsel Hlen Hnew. unfold statUpdate. do 2 mstep. rewrite Hnew.
  change (MAX_DRIVE <=? MAX_DRIVE) with true.
  destruct (driveSelected s =? MAX_DRIVE) eqn:E; [lia|]. cbn [andb negb].
  rewrite bind_unfold, when_unfold.
  destruct (lookup_lt_is_Some_2 (headStatus s) (Z.to_nat (driveSelected s)))
    as [h Hh]; [rewrite Hlen; unfold MAX_DRIVE in *; lia|].
  rewrite (bind_ok _ _ _ h s) by (mstep; apply index_ok; [lia | done]).
  eexists. split; [|reflexivity].
  assert (exists s1,
    (when_ (negb (h =? 0))
       (assign "headStatus" headStatus set_headStatus (driveSelected s) 0 ≫= fun _ =>
        emit (HeadChanged (driveSelected s) false)) ≫= fun _ =>
     emit (DriveChanged MAX_DRIVE)) s = Ok tt s1 /\
    length (headStatus s1) = Z.to_nat MAX_DRIVE) as (s1 & -> & Hl1).
  { rewrite bind_unfold, when_unfold. destruct (negb (h =? 0)).
    - rewrite bind_unfold, assign_ok by (first [lia | eauto]). mcbn.
      eexists. split; [reflexivity|]. psimpl. by rewrite length_insert.
    - mcbn. eexists. split; [reflexivity|]. by psimpl. }
  rewrite bind_unfold, when_unfold.
  apply bind_crash, bind_crash. mstep. apply index_crash. right.
  rewrite Hl1. vm_compute. discriminate.
Qed.

(** ** C4: STAT indexes [headStatus] with 0xff and with [MAX_DRIVE]

    On a new server, where no drive is selected, a STAT frame that selects
    drive 0 reads [headStatus[0xff]]; with drive 0 selected, a STAT frame
    whose drive byte is 4 passes the test [newDrive <= MAX_DRIVE] and
    reads [headStatus[4]]. *)
Theorem stat_headStatus_out_of_bounds :
  driveSelected Demo.fresh = 0xff /\
  length (headStatus Demo.fresh) = Z.to_nat MAX_DRIVE /\
  readData (Scenario.stat 0 0) Demo.fresh = Crash (OutOfBounds "headStatus" 0xff) /\
  readData (Scenario.stat 4 0) Scenario.selected0 =
    Crash (OutOfBounds "headStatus" MAX_DRIVE).
Proof. by_run. Qed.

(** ** READ *)

Lemma readTrack_run s f c :
  let cmd := cmdBuf s in
  let d := driveNum_of cmd in
  let t := trackNum_of cmd in
  let len := clamp_trackLen (trackLen_of cmd) in
  let got := take (Z.to_nat len) (drop (Z.to_nat (t * len)) c) in
  let out := blit (outBuf s) 0 got in
  0 <= d < MAX_DRIVE ->
  driveFile s !! Z.to_nat d = Some f -> isOpen f = true ->
  files (world s) !! fileName f = Some c ->
  is_Some (curTrack s !! Z.to_nat d) ->
  exists s',
    readTrack s = Ok false s' /\
    sent (emitted s s') =
      take (Z.to_nat len) out ++
      bytes16 (if Z.of_nat (length got) =? len then checkSum out (u16 len) else 0) /\
    last (emitted s s') = Some (TimerStart FDC_TIMEOUT) /\
    world s' = world s.
Proof.
  intros cmd d t len got out Hd Hf Ho Hc Hcur.
  pose proof (trackNum_of_range cmd) as Ht. fold t in Ht.
  pose proof (clamp_trackLen_range _ (trackLen_of_range cmd)) as Hl. fold len in Hl.
  unfold readTrack. mstep. fold cmd d t len.
  destruct (MAX_DRIVE <=? d) eqn:E; [lia|].
  destruct (updateTrack_mounted s d t f Hd Hf Ho Hcur)
    as (s1 & evs & Hrun & Hk & Htr & Hsent & _ & _).
  destruct Hk as (Hw & Hdf & _ & _ & Hout & _).
  rewrite (bind_ok _ _ _ _ _ Hrun).
  rewrite (bind_ok _ _ _ f s1) by (apply drive_file_ok; [lia | by rewrite Hdf]).
  mstep. rewrite Hw.
  unfold File.seek, File.read. rewrite Ho. cbn [andb].
  destruct (0 <=? t * len) eqn:E2; [|lia].
  cbn [isOpen fileName pos]. rewrite Hc. fold got.
  unfold set_drive_file.
  rewrite bind_unfold, assign_ok by (rewrite ?Hdf; first [lia | eauto]).
  repeat mstep. rewrite Hout. fold out.
  eexists. split; [reflexivity|]. psimpl.
  split; [|split; [|done]].
  - erewrite emitted_app; [|psimpl; rewrite Htr, <- !app_assoc; reflexivity].
    unfold sent in *. rewrite !flat_map_app, Hsent. cbn [flat_map app].
    rewrite app_nil_r. f_equal.
    by destruct (_ =? _).
  - erewrite emitted_app; [|psimpl; rewrite Htr, <- !app_assoc; reflexivity].
    rewrite !app_assoc. apply last_snoc.
Qed.

(** ** C9, as the code has it: a short read is sent with a zero checksum

    READ on a mounted drive in range, where the file has fewer than
    [trackLen] bytes left at the track offset ([trackLen] is param2 cut
    down to the buffer size): the server sends [trackLen] bytes, the ones
    it read followed by what [outBuf] held behind them, then the two bytes
    of a checksum that was never computed, [00 00], and restarts the
    timer. *)
Theorem readTrack_short_read s c :
  let cmd := cmdBuf s in
  let d := driveNum_of cmd in
  let len := clamp_trackLen (trackLen_of cmd) in
  let got := take (Z.to_nat len) (drop (Z.to_nat (trackNum_of cmd * len)) c) in
  let stale := take (Z.to_nat len - length got) (drop (length got) (outBuf s)) in
  d < MAX_DRIVE ->
  backing s d = Some c ->
  is_Some (curTrack s !! Z.to_nat d) ->
  length (outBuf s) = Z.to_nat sizeof_trkbuf ->
  Z.of_nat (length got) < len ->
  exists s',
    readTrack s = Ok false s' /\
    sent (emitted s s') = (got ++ stale) ++ [0; 0] /\
    Z.of_nat (length (got ++ stale)) = len /\
    last (emitted s s') = Some (TimerStart FDC_TIMEOUT).
Proof.
  intros cmd d len got stale Hd Hb Hcur Hout Hshort.
  apply backing_file in Hb as (Hd0 & f & Hf & Ho & Hc).
  destruct (readTrack_run s f c (conj Hd0 Hd) Hf Ho Hc Hcur) as (s' & Hrun & Hsent & Hlast & _).
  fold cmd len got in Hsent.
  pose proof (clamp_trackLen_range _ (trackLen_of_range cmd)) as Hl. fold len in Hl.
  exists s'. split; [done|]. split; [|split; [|done]].
  - rewrite Hsent.
    destruct (Z.of_nat (length got) =? len) eqn:E; [lia|].
    f_equal. unfold blit. rewrite take_0, app_nil_l.
    rewrite take_app. f_equal.
    apply take_ge. lia.
  - rewrite length_app. unfold stale.
    rewrite length_take, length_drop, Hout. lia.
Qed.

(** Ten bytes asked of the five-byte file; [outBuf] still holds the ten
    bytes of the read before. *)
Lemma readTrack_short_read_witness :
  let s := set_cmdBuf (Demo.read 0 10) Scenario.short_mounted in
  exists s',
    readTrack s = Ok false s' /\
    sent (emitted s s') = ([1; 2; 3; 4; 5] ++ [15; 16; 17; 18; 19]) ++ [0; 0] /\
    Z.of_nat (length ([1; 2; 3; 4; 5] ++ [15; 16; 17; 18; 19])) = 10 /\
    last (emitted s s') = Some (TimerStart FDC_TIMEOUT).
Proof.
  intros s.
  apply (readTrack_short_read s [1; 2; 3; 4; 5]).
  - vm_compute. reflexivity.
  - vm_compute. reflexivity.
  - vm_compute. eauto.
  - vm_compute. reflexivity.
  - vm_compute. reflexivity.
Defined.

(** C9 as the claim has it fails: the controller reads ten bytes of a
    five-byte file; the trailer sent is [00 00], neither the sum of the
    five bytes read nor the sum of the ten bytes sent. *)
Lemma short_read_checksum_not_computed :
  let s0 := Scenario.short_mounted in
  let s1 := Demo.after (readData (Demo.read 0 10)) s0 in
  let data := [1; 2; 3; 4; 5; 15; 16; 17; 18; 19] in
  backing s0 0 = Some [1; 2; 3; 4; 5] /\
  readData (Demo.read 0 10) s0 = Ok tt s1 /\
  sent (emitted s0 s1) = data ++ [0; 0] /\
  sent (emitted s0 s1) <> data ++ bytes16 (checkSum [1; 2; 3; 4; 5] 5) /\
  sent (emitted s0 s1) <> data ++ bytes16 (checkSum data 10).
Proof.
  cbv zeta.
  split; [vm_compute; reflexivity|].
  split; [vm_compute; reflexivity|].
  split; [vm_compute; reflexivity|].
  split; vm_compute; discriminate.
Qed.

(** ** WRIT *)

Lemma writeResponse_run s f :
  let d := driveNum_of (cmdBuf s) in
  0 <= d < MAX_DRIVE -> driveFile s !! Z.to_nat d = Some f ->
  exists out evs,
    writeResponse s = Ok false (set_trace (trace s ++ evs) (set_outBuf out s)).
Proof.
  intros d Hd Hf. unfold writeResponse. mstep. fold d.
  destruct (MAX_DRIVE <=? d) eqn:E; [lia|].
  mstep.
  erewrite bind_ok; [|apply drive_file_ok; [lia | exact Hf]].
  repeat mstep.
  eexists _, [_; _]. rewrite <- app_assoc. reflexivity.
Qed.

Lemma store_read c p d :
  take (length d) (drop p (File.store c p d)) = d.
Proof.
  unfold File.store, zeros.
  rewrite app_assoc, drop_app_length'.
  - apply take_app_length.
  - rewrite length_app, length_take, length_replicate. lia.
Qed.

(** [writeTrack] when the trailer is the checksum of the payload: the file
    takes what the host accepts of the payload at the track offset. *)
Lemma writeTrack_valid_run s f c payload lo hi pad :
  let cmd := cmdBuf s in
  let d := driveNum_of cmd in
  let t := trackNum_of cmd in
  let len := Z.of_nat (length payload) in
  let done := take (wcap (world s)) payload in
  let rc := if Z.of_nat (length done) =? len then STAT_OK else STAT_WRITE_ERR in
  0 <= d < MAX_DRIVE ->
  driveFile s !! Z.to_nat d = Some f -> isOpen f = true ->
  files (world s) !! fileName f = Some c ->
  is_Some (curTrack s !! Z.to_nat d) ->
  length cmd = 10%nat ->
  inBuf s = payload ++ [lo; hi] ++ pad ->
  length (inBuf s) = Z.to_nat sizeof_trkbuf ->
  trackLen_of cmd = len ->
  is_byte lo -> is_byte hi ->
  le16 lo hi = checkSum payload len ->
  exists s' f',
    writeTrack s = Ok (negb (rc =? STAT_OK)) s' /\
    sent (emitted s s') = wsta_of rc cmd /\
    files (world s') =
      <[fileName f := File.store c (Z.to_nat (t * len)) done]> (files (world s)) /\
    driveFile s' = <[Z.to_nat d := f']> (driveFile s) /\
    isOpen f' = true /\ fileName f' = fileName f /\
    curTrack s' !! Z.to_nat d = Some t /\
    tmpBuf s' = tmpBuf s /\ tmpBufIdx s' = tmpBufIdx s /\ state s' = state s.
Proof.
  intros cmd d t len done rc Hd Hf Ho Hc Hcur Hlen Hin Hil Htl Hlo Hhi Hck.
  pose proof (trackNum_of_range cmd) as Ht. fold t in Ht.
  assert (Hl : 0 <= len <= TRKBUF_SIZE).
  { rewrite Hin in Hil. rewrite !length_app in Hil. cbn [length] in Hil.
    unfold sizeof_trkbuf, TRKBUF_SIZE, CRC_LEN in *. lia. }
  destruct (trackLen_small len) as (_ & Hclamp & Hu16);
    [unfold sizeof_trkbuf, CRC_LEN; lia|].
  unfold writeTrack.
  do 2 mstep. fold cmd d t. rewrite Htl.
  rewrite (bind_ok _ _ _ lo s).
  2:{ apply index_ok; [lia|]. rewrite Hin. unfold len. rewrite Nat2Z.id.
      rewrite lookup_app_r by lia. by rewrite Nat.sub_diag. }
  rewrite (bind_ok _ _ _ hi s).
  2:{ apply index_ok; [lia|]. rewrite Hin. unfold len.
      replace (Z.to_nat (Z.of_nat (length payload) + 1)) with (length payload + 1)%nat by lia.
      rewrite lookup_app_r by lia.
      by replace (length payload + 1 - length payload)%nat with 1%nat by lia. }
  destruct (MAX_DRIVE <=? d) eqn:E; [lia|].
  rewrite (bind_ok _ _ _ _ _ (drive_file_ok _ _ _ (proj1 Hd) Hf)).
  rewrite Ho. cbn [negb].
  rewrite (u16_small hi) by (unfold is_byte in *; lia).
  fold (le16 lo hi).
  rewrite Hck, (u16_small (checkSum _ _)) by apply checkSum_range.
  rewrite Hu16, Hin. unfold len at 2. rewrite checkSum_app. fold len.
  rewrite Z.eqb_refl. cbn [negb].
  rewrite Hclamp.
  destruct (updateTrack_mounted s d t f Hd Hf Ho Hcur)
    as (s1 & evs & Hrun & Hk & Htr & Hsent & _ & Hcur1).
  destruct Hk as (Hw & Hdf & Hcmd & Hib & Hob & Htmp & Hidx & Hst & _).
  rewrite bind_unfold, (bind_ok _ _ _ _ _ Hrun).
  rewrite (bind_ok _ _ _ f s1) by (apply drive_file_ok; [lia | by rewrite Hdf]).
  mstep. rewrite Hw.
  unfold File.seek, File.write. rewrite Ho. cbn [andb].
  destruct (0 <=? t * len) eqn:E2; [|lia].
  cbn [isOpen fileName pos]. rewrite Hc.
  assert (Htk : take (Z.to_nat len) (payload ++ [lo; hi] ++ pad) = payload).
  { unfold len. rewrite Nat2Z.id. apply take_app_length. }
  rewrite Htk. fold done.
  mstep. unfold set_drive_file.
  rewrite bind_unfold, assign_ok by (psimpl; rewrite ?Hdf; first [lia | eauto]).
  mcbn. fold rc.
  assert (Hrc : 0 <= rc < 65536) by (unfold rc; destruct (_ =? _); done).
  assert (Hset : forall s0,
    (if negb (Z.of_nat (length done) =? len)
     then on_cmdBuf (Cmd.set_rcode STAT_WRITE_ERR)
     else on_cmdBuf (Cmd.set_rcode STAT_OK)) s0 =
    Ok tt (set_cmdBuf (Cmd.set_rcode rc (cmdBuf s0)) s0)).
  { intros s0. unfold rc. by destruct (_ =? _). }
  rewrite Hset. repeat mstep. rewrite Hcmd. fold cmd. fold (wsta_of rc cmd).
  destruct (wsta_of_frame rc cmd Hlen Hrc) as (Hwl & _ & Hwrc & _).
  cbn zeta in *.
  rewrite (take_ge (wsta_of _ _)) by (rewrite Hwl; done).
  rewrite take_blit0 by (rewrite Hwl; done).
  unfold Cmd.rcode in *. rewrite Hwrc.
  eexists _, _. split; [reflexivity|]. psimpl.
  split.
  { erewrite emitted_app; [|rewrite Htr, <- !app_assoc; reflexivity].
    unfold sent in *. rewrite !flat_map_app, Hsent. cbn [flat_map app].
    by rewrite app_nil_r. }
  unfold set_files. cbn [files]. rewrite Hdf.
  split_ands; try done.
  apply Hcur1. lia.
Qed.

(** [writeTrack] entered with a payload whose trailer is not its checksum. *)
Lemma writeTrack_bad_checksum_run s payload lo hi pad :
  let cmd := cmdBuf s in
  driveNum_of cmd < MAX_DRIVE ->
  mounted s (driveNum_of cmd) = true ->
  length cmd = 10%nat ->
  inBuf s = payload ++ [lo; hi] ++ pad ->
  trackLen_of cmd = Z.of_nat (length payload) ->
  is_byte lo -> is_byte hi ->
  le16 lo hi <> checkSum payload (Z.of_nat (length payload)) ->
  exists s' resp,
    writeTrack s = Ok true s' /\
    emitted s s' = [SerialWrite resp] /\
    Cmd.command resp = Cmd.WSTA /\
    Cmd.rcode resp = STAT_CHECKSUM_ERR /\
    Cmd.checksum resp = checkSum resp CMD_LEN /\
    crcErrs s' = u16 (crcErrs s + 1) /\
    world s' = world s /\ driveFile s' = driveFile s.
Proof.
  intros cmd Hd Hm Hlen Hin Htl Hlo Hhi Hne.
  apply mounted_file in Hm as (Hd0 & f & Hf & Ho).
  pose proof (s16_range (Cmd.param2 cmd)) as Hr. fold (trackLen_of cmd) in Hr.
  unfold writeTrack.
  do 2 mstep. fold cmd.
  rewrite (bind_ok _ _ _ lo s).
  2:{ apply index_ok; [lia|]. rewrite Hin, Htl, Nat2Z.id.
      rewrite lookup_app_r by lia. by rewrite Nat.sub_diag. }
  rewrite (bind_ok _ _ _ hi s).
  2:{ apply index_ok; [lia|]. rewrite Hin, Htl.
      replace (Z.to_nat (Z.of_nat (length payload) + 1)) with (length payload + 1)%nat by lia.
      rewrite lookup_app_r by lia.
      by replace (length payload + 1 - length payload)%nat with 1%nat by lia. }
  destruct (MAX_DRIVE <=? driveNum_of cmd) eqn:E; [lia|].
  rewrite (bind_ok _ _ _ _ _ (drive_file_ok _ _ _ Hd0 Hf)).
  rewrite Ho. cbn [negb].
  rewrite (u16_small hi) by (unfold is_byte in *; lia).
  fold (le16 lo hi).
  assert (Hb : 0 <= le16 lo hi < 65536).
  { rewrite le16_bytes by done. unfold is_byte in *. lia. }
  rewrite (u16_small (le16 lo hi)) by done.
  rewrite (u16_small (trackLen_of cmd)) by lia.
  rewrite Hin, Htl, checkSum_app.
  destruct (le16 lo hi =? _) eqn:E2; [lia|]. cbn [negb].
  repeat mstep. fold cmd. fold (wsta_of STAT_CHECKSUM_ERR cmd).
  destruct (wsta_of_frame STAT_CHECKSUM_ERR cmd Hlen) as (Hl & Hc & Hrc & Hck); [done|].
  cbn zeta in *.
  rewrite (take_ge (wsta_of _ _)) by (rewrite Hl; done).
  rewrite take_blit0 by (rewrite Hl; done).
  eexists _, (wsta_of STAT_CHECKSUM_ERR cmd).
  split.
  { unfold Cmd.rcode in *. rewrite Hrc. reflexivity. }
  psimpl. split; [by apply emitted_app|]. done.
Qed.

(** ** C7: a payload whose trailer is not its checksum

    The server is waiting for the payload of a WRIT command for a mounted
    drive in range; the port delivers, in any number of pieces, [trackLen]
    payload bytes, a two-byte trailer whose little-endian value differs
    from the sum of the payload, and what else fills the buffer.  The one
    frame sent is a WSTA frame with rcode [STAT_CHECKSUM_ERR] and a valid
    checksum, [crcErrs] is one more (as a [quint16]), neither the files
    nor the drive handles change, and the framer is back in [STATE_CMD]. *)
Theorem write_payload_bad_checksum s payload lo hi pad chunks :
  let cmd := cmdBuf s in
  state s = STATE_WRIT -> tmpBufIdx s = 0 ->
  length (tmpBuf s) = Z.to_nat sizeof_trkbuf ->
  driveNum_of cmd < MAX_DRIVE ->
  mounted s (driveNum_of cmd) = true ->
  length cmd = 10%nat ->
  trackLen_of cmd = Z.of_nat (length payload) ->
  concat chunks = payload ++ [lo; hi] ++ pad ->
  length (concat chunks) = Z.to_nat sizeof_trkbuf ->
  Forall (fun avail => avail <> []) chunks ->
  is_byte lo -> is_byte hi ->
  le16 lo hi <> checkSum payload (Z.of_nat (length payload)) ->
  exists s' resp,
    feed chunks s = Ok tt s' /\
    emitted s s' = [SerialWrite resp] /\
    Cmd.command resp = Cmd.WSTA /\
    Cmd.rcode resp = STAT_CHECKSUM_ERR /\
    Cmd.checksum resp = checkSum resp CMD_LEN /\
    crcErrs s' = u16 (crcErrs s + 1) /\
    world s' = world s /\ driveFile s' = driveFile s /\
    state s' = STATE_CMD.
Proof.
  intros cmd Hst Hidx Htmp Hd Hm Hlen Htl Hcat Hfull Hall Hlo Hhi Hne.
  assert (Hsome : chunks <> []).
  { intros ->. cbn [concat] in Hfull. discriminate. }
  rewrite (feed_payload chunks s [] Hst Hidx eq_refl Htmp Hfull Hall Hsome).
  cbn [app]. set (sB := set_inBuf _ _).
  destruct (writeTrack_bad_checksum_run sB payload lo hi pad)
    as (s' & resp & Hrun & Hem & Hc & Hrc & Hck & Hcrc & Hw & Hdf); try done.
  rewrite (bind_ok _ _ _ _ _ Hrun). mstep. unfold modify.
  eexists _, resp. split; [reflexivity|]. psimpl.
  split; [exact Hem|]. by split_ands.
Qed.

(** After the WRIT command for three bytes of track 2: the bytes 1, 2, 3
    with the trailer 7 (their sum is 6), then the rest of the buffer. *)
Lemma write_payload_bad_checksum_witness :
  let s := Demo.writing in
  let chunks := [[1; 2; 3; 7; 0]; zeros (Z.to_nat sizeof_trkbuf - 5)] in
  exists s' resp,
    feed chunks s = Ok tt s' /\
    emitted s s' = [SerialWrite resp] /\
    Cmd.command resp = Cmd.WSTA /\
    Cmd.rcode resp = STAT_CHECKSUM_ERR /\
    Cmd.checksum resp = checkSum resp CMD_LEN /\
    crcErrs s' = u16 (crcErrs s + 1) /\
    world s' = world s /\ driveFile s' = driveFile s /\
    state s' = STATE_CMD.
Proof.
  intros s chunks.
  apply (write_payload_bad_checksum s [1; 2; 3] 7 0
           (zeros (Z.to_nat sizeof_trkbuf - 5)) chunks).
  - vm_compute. reflexivity.
  - vm_compute. reflexivity.
  - vm_compute. reflexivity.
  - vm_compute. reflexivity.
  - vm_compute. reflexivity.
  - vm_compute. reflexivity.
  - vm_compute. reflexivity.
  - vm_compute. reflexivity.
  - vm_compute. reflexivity.
  - repeat constructor; discriminate.
  - unfold is_byte. lia.
  - unfold is_byte. lia.
  - vm_compute. discriminate.
Defined.

(** Whenever the announced length is not a length the payload buffer can
    hold with its trailer, [writeTrack] reads the trailer outside [inBuf]. *)
Lemma writeTrack_trailer_crash s :
  length (inBuf s) = Z.to_nat sizeof_trkbuf ->
  trackLen_of (cmdBuf s) < 0 \/ TRKBUF_SIZE < trackLen_of (cmdBuf s) ->
  exists i, writeTrack s = Crash (OutOfBounds "inBuf" i) /\
            (i < 0 \/ sizeof_trkbuf <= i).
Proof.
  intros Hlen Hbad. unfold writeTrack. do 2 mstep.
  set (len := trackLen_of (cmdBuf s)) in *.
  destruct (Z.eq_dec len (TRKBUF_SIZE + 1)) as [E | NE].
  - destruct (inBuf s !! Z.to_nat len) as [lo|] eqn:Hlo.
    + rewrite (bind_ok _ _ _ lo s)
        by (apply index_ok; [unfold TRKBUF_SIZE in *; lia | done]).
      exists (len + 1). split.
      * apply bind_crash, index_crash. right. rewrite Hlen, E.
        vm_compute. discriminate.
      * right. rewrite E. vm_compute. discriminate.
    + apply lookup_ge_None in Hlo. rewrite Hlen, E in Hlo. vm_compute in Hlo. lia.
  - exists len. split.
    + apply bind_crash, index_crash. rewrite Hlen.
      unfold sizeof_trkbuf, TRKBUF_SIZE, CRC_LEN in *. lia.
    + unfold sizeof_trkbuf, TRKBUF_SIZE, CRC_LEN in *. lia.
Qed.

(** ** C3: [trackLen] indexes [inBuf] before any bound is checked

    A WRIT command that announces 5000 bytes is accepted; when the payload
    buffer is full, [writeTrack] reads the trailer at [inBuf[5000]], past
    the 4386 bytes of the array. *)
Theorem writeTrack_trailer_out_of_bounds :
  let s0 := Scenario.writing5000 in
  trackLen_of (cmdBuf s0) = 5000 /\ state s0 = STATE_WRIT /\
  length (inBuf s0) = Z.to_nat sizeof_trkbuf /\
  readData (zeros (Z.to_nat sizeof_trkbuf)) s0 = Crash (OutOfBounds "inBuf" 5000).
Proof. by_run. Qed.

(** ** The timer *)

Section NoTimer.
Context {A B : Type}.

Lemma no_timer_ret (a : A) : no_timer (mret a).
Proof.
  intros s a' s' [= <- <-]. exists []. by rewrite app_nil_r.
Qed.

Lemma no_timer_gets (proj : FDC -> A) : no_timer (gets proj).
Proof.
  intros s a' s' [= <- <-]. exists []. by rewrite app_nil_r.
Qed.

Lemma no_timer_crash f : no_timer (crash f : M A).
Proof. intros s a s' [=]. Qed.

Lemma no_timer_index name (arr : list A) i : no_timer (index name arr i).
Proof.
  intros s a s'. unfold index.
  destruct (if 0 <=? i then arr !! Z.to_nat i else None); [|done].
  intros [= <- <-]. exists []. by rewrite app_nil_r.
Qed.

Lemma no_timer_bind (m : M A) (k : A -> M B) :
  no_timer m -> (forall a, no_timer (k a)) -> no_timer (m ≫= k).
Proof.
  intros Hm Hk s b s'. rewrite bind_unfold.
  destruct (m s) as [a s1|] eqn:E; [|done].
  intros Hrun.
  destruct (Hm _ _ _ E) as (evs1 & Ht1 & Hq1).
  destruct (Hk _ _ _ _ Hrun) as (evs2 & Ht2 & Hq2).
  exists (evs1 ++ evs2). split.
  - by rewrite Ht2, Ht1, app_assoc.
  - by apply Forall_app.
Qed.

Lemma no_timer_if (b : bool) (m1 m2 : M A) :
  no_timer m1 -> no_timer m2 -> no_timer (if b then m1 else m2).
Proof. by destruct b. Qed.

End NoTimer.

Lemma no_timer_modify f :
  (forall s, trace (f s) = trace s) -> no_timer (modify f).
Proof.
  intros Hf s a s' Hrun. injection Hrun as H. subst s'. exists []. rewrite app_nil_r.
  split; [apply Hf | constructor].
Qed.

Lemma no_timer_emit e : is_timer e = false -> no_timer (emit e).
Proof.
  intros He s a s' Hrun. injection Hrun as H. subst s'.
  exists [e]. split; [done|]. by constructor.
Qed.

Lemma no_timer_when b m : no_timer m -> no_timer (when_ b m).
Proof. intros Hm. unfold when_. apply no_timer_if; [done | apply no_timer_ret]. Qed.

Lemma no_timer_assign {A} name (proj : FDC -> list A) set i v :
  (forall arr s, trace (set arr s) = trace s) ->
  no_timer (assign name proj set i v).
Proof.
  intros Hset. unfold assign.
  apply no_timer_bind; [apply no_timer_gets|]. intros arr.
  apply no_timer_bind; [apply no_timer_index|]. intros _.
  apply no_timer_modify. intros s. apply Hset.
Qed.

Create HintDb timer.
#[local] Hint Resolve no_timer_ret no_timer_gets no_timer_crash no_timer_index
  no_timer_if no_timer_when : timer.

(** One step through a handler body. *)
Ltac timer_step :=
  first
    [ apply no_timer_bind; [|intros ?]
    | apply no_timer_emit; reflexivity
    | apply no_timer_modify; intros ?; reflexivity
    | apply no_timer_assign; intros ? ?; reflexivity
    | apply no_timer_when
    | apply no_timer_if
    | solve [auto with timer] ].

Lemma no_timer_updateTrack drive track : no_timer (updateTrack drive track).
Proof.
  unfold updateTrack, drive_file. repeat timer_step.
Qed.

(** [writeTrack] never restarts the timer. *)
Lemma writeTrack_no_timer : no_timer writeTrack.
Proof.
  unfold writeTrack, drive_file, set_drive_file, on_cmdBuf, on_outBuf, incr.
  repeat timer_step.
  destruct (File.write _ _ _) as [[n w'] f']. repeat timer_step.
Qed.

(** ** C8: the WSTA frame goes out without a timer restart

    The STAT response, the READ payload and the WRIT response are each
    followed by [timeoutTimer->start(FDC_TIMEOUT)]; the payload step of a
    successful write sends the WSTA frame as its last event and no
    restart follows. *)
Theorem wsta_does_not_restart_timer :
  let stat := readData (Scenario.stat 0xff 0) in
  let burst := [1; 2; 3; 6; 0] ++ zeros (Z.to_nat sizeof_trkbuf - 5) in
  let s1 := Demo.after (readData burst) Demo.writing in
  emitted Demo.fresh (Demo.after stat Demo.fresh) =
    [SerialWrite [83; 84; 65; 84; 0; 0; 0; 0; 60; 1];
     TimerStart FDC_TIMEOUT; StatusChanged "Connected"] /\
  emitted Demo.mounted0 Scenario.read_track1 =
    [TrackChanged 0 1; SerialWrite (zeros 137); SerialWrite [0; 0];
     TimerStart FDC_TIMEOUT] /\
  emitted Demo.mounted0 Demo.writing =
    [SerialWrite [87; 82; 73; 84; 0; 0; 3; 0; 73; 1]; TimerStart FDC_TIMEOUT] /\
  readData burst Demo.writing = Ok tt s1 /\
  emitted Demo.writing s1 =
    [TrackChanged 0 2; SerialWrite [87; 83; 84; 65; 0; 0; 3; 0; 66; 1]].
Proof. by_run. Qed.

(** ** Write, then read *)

(** ** C2: what a completed WRIT stored, READ sends back

    A server waiting for a command, drive [d] mounted; the controller
    sends the WRIT command for drive [d], track [t] and the length of
    [payload], then, in any number of pieces, the payload, its checksum as
    a little-endian trailer, and what else it takes to fill the payload
    buffer.  Both steps run to their end and the second answers with a
    WSTA frame.  When the rcode of that frame is [STAT_OK], the READ
    command for the same drive, track and length sends the payload
    followed by its checksum, low byte first. *)
Theorem write_then_read s0 d t payload pad chunks c :
  let len := Z.of_nat (length payload) in
  let p1 := track_param d t in
  let trailer := bytes16 (checkSum payload len) in
  let burst := payload ++ trailer ++ pad in
  0 <= d < MAX_DRIVE -> 0 <= t < 4096 ->
  length burst = Z.to_nat sizeof_trkbuf ->
  concat chunks = burst ->
  Forall (fun avail => avail <> []) chunks ->
  state s0 = STATE_CMD -> tmpBufIdx s0 = 0 ->
  length (tmpBuf s0) = Z.to_nat sizeof_trkbuf ->
  backing s0 d = Some c ->
  is_Some (curTrack s0 !! Z.to_nat d) ->
  exists s1 s2,
    readData (Cmd.frame Cmd.WRIT p1 len) s0 = Ok tt s1 /\
    state s1 = STATE_WRIT /\
    feed chunks s1 = Ok tt s2 /\
    Cmd.command (sent (emitted s1 s2)) = Cmd.WSTA /\
    (Cmd.rcode (sent (emitted s1 s2)) = STAT_OK ->
     exists s3,
       readData (Cmd.frame Cmd.READ p1 len) s2 = Ok tt s3 /\
       sent (emitted s2 s3) = payload ++ trailer).
Proof.
  intros len p1 trailer burst Hd Ht Hburst Hcat Hall Hst Hidx Htmp Hb Hcur.
  apply backing_file in Hb as (_ & f & Hf & Ho & Hc).
  assert (Hl : 0 <= len <= TRKBUF_SIZE).
  { unfold burst, trailer, bytes16 in Hburst. rewrite !length_app in Hburst.
    cbn [length] in Hburst.
    unfold sizeof_trkbuf, TRKBUF_SIZE, CRC_LEN in *. lia. }
  assert (Hl' : 0 <= len <= sizeof_trkbuf) by (unfold sizeof_trkbuf, CRC_LEN; lia).
  destruct (trackLen_small len Hl') as (Hs16 & Hclamp & Hu16).
  destruct (track_param_decode d t) as (Hp1 & Hdec_d & Hdec_t);
    [unfold MAX_DRIVE in *; lia | done |]. fold p1 in Hp1, Hdec_d, Hdec_t.
  assert (Hlen16 : 0 <= len < 65536) by (unfold TRKBUF_SIZE in *; lia).
  (* the WRIT command *)
  destruct (frame_facts 87 82 73 84 p1 len Hp1 Hlen16) as (HWl & HWc & HWp1 & HWp2 & HWck).
  fold Cmd.WRIT in HWl, HWc, HWp1, HWp2, HWck.
  set (fW := Cmd.frame Cmd.WRIT p1 len) in *.
  rewrite (readData_cmd s0 fW Hst Hidx Htmp HWl).
  rewrite bind_unfold, dispatch_writ by done.
  assert (HdW : driveNum_of fW = d) by (unfold driveNum_of; by rewrite HWp1).
  assert (HtW : trackNum_of fW = t) by (unfold trackNum_of; by rewrite HWp1).
  assert (HlW : trackLen_of fW = len) by (unfold trackLen_of; by rewrite HWp2).
  set (sA := set_cmdBuf fW _).
  destruct (writeResponse_run sA f) as (out & evs & HrunW).
  { change (cmdBuf sA) with fW. by rewrite HdW. }
  { change (cmdBuf sA) with fW. by rewrite HdW. }
  rewrite (bind_ok _ _ _ _ _ HrunW). repeat mstep; mcbn.
  unfold modify. set (s1 := set_tmpBufIdx 0 _). exists s1.
  assert (Hst1 : state s1 = STATE_WRIT) by reflexivity.
  assert (Htmp1 : length (tmpBuf s1) = Z.to_nat sizeof_trkbuf).
  { unfold s1, sA. psimpl. rewrite length_blit; [done|]. rewrite Htmp, HWl. vm_compute. lia. }
  (* the payload *)
  assert (Hne : chunks <> []).
  { intros ->. cbn [concat] in Hcat. rewrite <- Hcat in Hburst. discriminate. }
  rewrite (feed_payload chunks s1 [] Hst1 eq_refl eq_refl Htmp1)
    by (cbn [app]; first [by rewrite Hcat | done]).
  cbn [app]. rewrite Hcat.
  set (sB := set_inBuf burst _).
  destruct (bytes16_bytes (checkSum payload len)) as (Hlo & Hhi).
  destruct (writeTrack_valid_run sB f c payload
              (lo8 (checkSum payload len)) (hi8 (checkSum payload len)) pad)
    as (s' & f' & HrunT & HsentT & Hfiles & Hdf & Ho' & Hn' & Hcur' & Htmp' & Hidx' & Hst');
    try done.
  { change (cmdBuf sB) with fW. by rewrite HdW. }
  { change (cmdBuf sB) with fW. by rewrite HdW. }
  { change (cmdBuf sB) with fW. by rewrite HdW. }
  { apply le16_bytes16, checkSum_range. }
  cbv zeta in HrunT, HsentT, Hfiles, Hdf, Hcur'.
  change (cmdBuf sB) with fW in *.
  rewrite ?HdW, ?HtW in *.
  fold len in HrunT, HsentT, Hfiles.
  set (done := take (wcap (world sB)) payload) in *.
  set (rc := if Z.of_nat (length done) =? len then STAT_OK else STAT_WRITE_ERR) in *.
  rewrite (bind_ok _ _ _ _ _ HrunT). repeat mstep; mcbn.
  unfold modify. set (s2 := set_state STATE_CMD _). exists s2.
  split; [reflexivity|]. split; [reflexivity|]. split; [reflexivity|].
  assert (Hem : emitted s1 s2 = emitted sB s') by reflexivity.
  assert (Hrc : 0 <= rc < 65536) by (unfold rc; destruct (_ =? _); done).
  destruct (wsta_of_frame rc fW HWl Hrc) as (_ & Hwc & Hwrc & _). cbv zeta in Hwc, Hwrc.
  rewrite Hem, HsentT. split; [done|].
  rewrite Hwrc. intros Hok.
  assert (Hdone : done = payload).
  { apply take_all_length. fold done. unfold rc in Hok.
    destruct (Z.of_nat (length done) =? len) eqn:E; [lia | discriminate]. }
  rewrite Hdone in Hfiles.
  (* the READ command *)
  destruct (frame_facts 82 69 65 68 p1 len Hp1 Hlen16) as (HRl & HRc & HRp1 & HRp2 & HRck).
  fold Cmd.READ in HRl, HRc, HRp1, HRp2, HRck.
  set (fR := Cmd.frame Cmd.READ p1 len) in *.
  assert (Htmp2 : length (tmpBuf s2) = Z.to_nat sizeof_trkbuf).
  { unfold s2. psimpl. rewrite Htmp'. exact Hburst. }
  rewrite (readData_cmd s2 fR eq_refl eq_refl Htmp2 HRl).
  rewrite bind_unfold, dispatch_read by done.
  mstep.
  set (sD := set_readPkts _ _).
  assert (HdD : driveNum_of (cmdBuf sD) = d).
  { change (cmdBuf sD) with fR. unfold driveNum_of. by rewrite HRp1. }
  assert (Hlt : (Z.to_nat d < length (driveFile sB))%nat).
  { apply lookup_lt_Some with f. unfold sB, s1, sA. psimpl. exact Hf. }
  destruct (readTrack_run sD f' (File.store c (Z.to_nat (t * len)) payload))
    as (s3 & HrunR & HsentR & _ & _).
  { by rewrite HdD. }
  { rewrite HdD. unfold sD, s2. psimpl. rewrite Hdf. by apply list_lookup_insert_eq. }
  { done. }
  { unfold sD, s2. psimpl. rewrite Hfiles, Hn'. apply lookup_insert_eq. }
  { rewrite HdD. unfold sD, s2. psimpl. eauto. }
  cbv zeta in HsentR.
  replace (trackLen_of (cmdBuf sD)) with len in HsentR
    by (unfold trackLen_of; change (cmdBuf sD) with fR; by rewrite HRp2).
  replace (trackNum_of (cmdBuf sD)) with t in HsentR
    by (unfold trackNum_of; change (cmdBuf sD) with fR; by rewrite HRp1).
  rewrite Hclamp, Hu16 in HsentR.
  assert (Hgot : take (Z.to_nat len) (drop (Z.to_nat (t * len))
                   (File.store c (Z.to_nat (t * len)) payload)) = payload).
  { unfold len at 1. rewrite Nat2Z.id. apply store_read. }
  rewrite Hgot in HsentR. fold len in HsentR. rewrite Z.eqb_refl in HsentR.
  rewrite take_blit0 in HsentR by (unfold len; lia).
  assert (Hsum : checkSum (blit (outBuf sD) 0 payload) len = checkSum payload len).
  { unfold blit. rewrite take_0, app_nil_l. apply checkSum_app. }
  rewrite Hsum in HsentR.
  rewrite (bind_ok _ _ _ _ _ HrunR). repeat mstep; mcbn.
  eexists. split; [reflexivity|].
  exact HsentR.
Qed.

(** The round trip on drive 0, track 1, with the payload and its trailer in
    one piece and the rest of the buffer in another. *)
Lemma write_then_read_witness :
  let s0 := Demo.mounted0 in
  let payload := [1; 2; 3] in
  let pad := zeros (Z.to_nat sizeof_trkbuf - 5) in
  let len := Z.of_nat (length payload) in
  let p1 := track_param 0 1 in
  let trailer := bytes16 (checkSum payload len) in
  let burst := payload ++ trailer ++ pad in
  let chunks := [payload ++ trailer; pad] in
  exists s1 s2 s3,
    readData (Cmd.frame Cmd.WRIT p1 len) s0 = Ok tt s1 /\
    feed chunks s1 = Ok tt s2 /\
    Cmd.rcode (sent (emitted s1 s2)) = STAT_OK /\
    readData (Cmd.frame Cmd.READ p1 len) s2 = Ok tt s3 /\
    sent (emitted s2 s3) = payload ++ trailer.
Proof.
  intros s0 payload pad len p1 trailer burst chunks.
  destruct (write_then_read s0 0 1 payload pad chunks (zeros (Z.to_nat (2 * TRKBUF_SIZE))))
    as (s1 & s2 & H1 & _ & H2 & _ & Hread).
  - unfold MAX_DRIVE. lia.
  - lia.
  - vm_compute. reflexivity.
  - vm_compute. reflexivity.
  - repeat constructor; discriminate.
  - vm_compute. reflexivity.
  - vm_compute. reflexivity.
  - vm_compute. reflexivity.
  - vm_compute. reflexivity.
  - vm_compute. eauto.
  - cbv zeta in H1, H2, Hread.
    fold len p1 trailer burst in H1, H2, Hread.
    assert (Hrc : Cmd.rcode (sent (emitted s1 s2)) = STAT_OK).
    { rewrite <- (after_ok _ _ _ _ H2), <- (after_ok _ _ _ _ H1).
      vm_compute. reflexivity. }
    destruct (Hread Hrc) as (s3 & H3 & Hsent).
    exists s1, s2, s3. split; [exact H1|]. split; [exact H2|].
    split; [exact Hrc|]. split; [exact H3|]. exact Hsent.
Defined.

(** * Further properties *)

(** ** checkSum *)

Lemma checkSum_loop_sum data : forall acc,
  0 <= acc < 65536 -> checkSum_loop data acc = u16 (acc + sum_bytes data).
Proof.
  induction data as [|b rest IH]; intros acc Hacc; cbn [checkSum_loop sum_bytes foldr].
  - rewrite Z.add_0_r. symmetry. by apply u16_small.
  - rewrite IH by apply u16_range. fold (sum_bytes rest). unfold u16.
    rewrite Zplus_mod_idemp_l. f_equal. lia.
Qed.

Lemma checkSum_whole data :
  checkSum data (Z.of_nat (length data)) = sum_bytes data mod 65536.
Proof.
  unfold checkSum. rewrite Nat2Z.id, firstn_all.
  rewrite checkSum_loop_sum by lia. reflexivity.
Qed.

(** X1: [checkSum] over the first [size] bytes of a buffer is their sum
    modulo 2^16, whatever the bytes and however many. *)
Theorem checkSum_is_sum_mod data size :
  checkSum data size = sum_bytes (take (Z.to_nat size) data) mod 65536.
Proof.
  unfold checkSum. rewrite checkSum_loop_sum by lia. reflexivity.
Qed.

Lemma sum_bytes_app a b : sum_bytes (a ++ b) = sum_bytes a + sum_bytes b.
Proof.
  unfold sum_bytes. induction a as [|x a IH]; cbn [app foldr]; [done|]. rewrite IH. lia.
Qed.

Lemma sum_bytes_perm a b : a ≡ₚ b -> sum_bytes a = sum_bytes b.
Proof.
  unfold sum_bytes. induction 1; cbn [foldr]; lia.
Qed.

(** X2: the order of the bytes does not matter to [checkSum]. *)
Theorem checkSum_permutation data data' :
  data ≡ₚ data' ->
  checkSum data (Z.of_nat (length data)) = checkSum data' (Z.of_nat (length data')).
Proof.
  intros Hp. rewrite !checkSum_whole. by rewrite (sum_bytes_perm _ _ Hp).
Qed.

(** The bytes 1, 2, 3 and the same bytes with the first two swapped. *)
Lemma checkSum_permutation_witness :
  checkSum [2; 1; 3] (Z.of_nat (length [2; 1; 3])) =
  checkSum [1; 2; 3] (Z.of_nat (length [1; 2; 3])).
Proof.
  apply (checkSum_permutation [2; 1; 3] [1; 2; 3]). apply perm_swap.
Defined.

(** X3: the checksum of two blocks sent one after the other is the sum of
    their checksums, as a [quint16]. *)
Theorem checkSum_concat a b :
  checkSum (a ++ b) (Z.of_nat (length (a ++ b))) =
  u16 (checkSum a (Z.of_nat (length a)) + checkSum b (Z.of_nat (length b))).
Proof.
  rewrite !checkSum_whole, sum_bytes_app. unfold u16.
  by rewrite <- Zplus_mod.
Qed.

(** ** Link supervisor *)

Lemma closePort_explicit s :
  closePort s =
    Ok tt (if sp_isOpen (serialPort s)
           then set_trace (trace s ++ [StatusChanged "Offline"])
                  (set_connected false
                     (set_serialPort
                        {| sp_isOpen := false;
                           sp_portName := sp_portName (serialPort s) |} s))
           else s).
Proof.
  unfold closePort, set_port_open. mstep. rewrite when_unfold.
  destruct (sp_isOpen (serialPort s)); [|done]. by repeat mstep.
Qed.

(** X4: [closePort] leaves the port closed; it reports "Offline" and
    clears [connected] only when the port was open, changes nothing when
    it was not, and a second call in a row changes nothing. *)
Theorem closePort_closes s :
  exists s',
    closePort s = Ok tt s' /\
    sp_isOpen (serialPort s') = false /\
    emitted s s' = closing s /\
    (sp_isOpen (serialPort s) = true -> connected s' = false) /\
    (sp_isOpen (serialPort s) = false -> s' = s) /\
    closePort s' = Ok tt s'.
Proof.
  rewrite closePort_explicit. unfold closing.
  destruct (sp_isOpen (serialPort s)) eqn:Hop.
  - eexists. split; [reflexivity|]. psimpl. cbn [sp_isOpen].
    split; [done|]. split; [by apply emitted_app|]. split; [done|].
    split; [done|]. by rewrite closePort_explicit.
  - exists s. split; [done|]. split; [done|].
    split; [apply emitted_app; by rewrite app_nil_r|].
    split; [done|]. split; [done|]. by rewrite closePort_explicit, Hop.
Qed.

(** X5: [setBaud] returns what the port answers; when the rate is
    refused it emits an error and "Offline", yet neither closes the port
    nor touches [connected] or the framer state. *)
Theorem setBaud_keeps_port s baudRate :
  exists s',
    setBaud baudRate s = Ok (baudOk (world s) baudRate) s' /\
    serialPort s' = serialPort s /\ connected s' = connected s /\
    state s' = state s /\
    emitted s s' =
      if baudOk (world s) baudRate then []
      else [ErrorMessage "COM Port Error"
              (BaudRefused (sp_portName (serialPort s)) baudRate);
            StatusChanged "Offline"].
Proof.
  unfold setBaud. do 2 mstep. rewrite bind_unfold, when_unfold.
  destruct (baudOk (world s) baudRate); cbn [negb].
  - mcbn. exists s. split; [done|]. split; [done|]. split; [done|]. split; [done|].
    apply emitted_app. by rewrite app_nil_r.
  - repeat mstep. eexists. split; [reflexivity|]. psimpl.
    split; [done|]. split; [done|]. split; [done|].
    apply emitted_app. by rewrite <- app_assoc.
Qed.

(** X6: [openPort] succeeds exactly when the port opens and takes the
    baud rate, and the port is open afterwards exactly then.  A port that
    was open is closed first ("Offline").  A port that does not open
    fails without any notification; a refused baud rate gives the error
    and "Offline" twice; success sets [connected] and reports "Online". *)
Theorem openPort_outcomes s name baudRate :
  let port := portOk (world s) name in
  let baud := baudOk (world s) baudRate in
  exists s',
    openPort name baudRate s = Ok (port && baud) s' /\
    sp_isOpen (serialPort s') = port && baud /\
    sp_portName (serialPort s') = name /\
    connected s' =
      (if port then baud
       else if sp_isOpen (serialPort s) then false else connected s) /\
    emitted s s' =
      closing s ++
      (if negb port then []
       else if baud then [StatusChanged "Online"]
       else [ErrorMessage "COM Port Error" (BaudRefused name baudRate);
             StatusChanged "Offline"; StatusChanged "Offline"]).
Proof.
  intros port baud. unfold openPort. mstep. rewrite bind_unfold, when_unfold.
  assert (exists s0,
            (if sp_isOpen (serialPort s) then closePort s else Ok tt s) = Ok tt s0 /\
            trace s0 = trace s ++ closing s /\ world s0 = world s /\
            connected s0 = (if sp_isOpen (serialPort s) then false else connected s) /\
            sp_isOpen (serialPort s0) = false)
    as (s0 & -> & Htr & Hw & Hc & Hcl).
  { rewrite closePort_explicit. unfold closing.
    destruct (sp_isOpen (serialPort s)) eqn:E.
    - eexists. split; [reflexivity|]. by psimpl.
    - exists s. by rewrite app_nil_r. }
  repeat mstep. rewrite Hw. fold port.
  destruct port; cbn [andb negb].
  - unfold set_port_open, setBaud. repeat mstep. rewrite !when_unfold, Hw. fold baud.
    destruct baud; cbn [negb].
    + repeat mstep. eexists. split; [reflexivity|]. psimpl. cbn [sp_isOpen sp_portName].
      split; [done|]. split; [done|]. split; [done|].
      apply emitted_app. by rewrite Htr, app_assoc.
    + repeat mstep. rewrite closePort_explicit. psimpl. cbn [sp_isOpen sp_portName].
      mcbn. eexists. split; [reflexivity|]. psimpl. cbn [sp_isOpen sp_portName].
      split; [done|]. split; [done|]. split; [done|].
      apply emitted_app. rewrite Htr, <- !app_assoc. reflexivity.
  - mcbn. eexists. split; [reflexivity|]. psimpl. cbn [sp_isOpen sp_portName].
    split; [done|]. split; [done|]. split; [done|].
    apply emitted_app. by rewrite app_nil_r.
Qed.

Lemma timeoutSlot_explicit s :
  timeoutSlot s =
    Ok tt (set_state STATE_CMD
      (if sp_isOpen (serialPort s) then
         if connected s then
           set_trace (trace s ++ [SerialClear; StatusChanged "Communications timeout"])
             (set_connected false (set_tmpBufIdx 0 s))
         else set_trace (trace s ++ [SerialClear]) (set_tmpBufIdx 0 s)
       else set_trace (trace s ++ [StatusChanged "Offline"]) s)).
Proof.
  unfold timeoutSlot. mstep. rewrite bind_unfold.
  destruct (sp_isOpen (serialPort s)).
  - repeat mstep. rewrite when_unfold. psimpl.
    destruct (connected s); repeat mstep; mcbn.
    + by rewrite <- app_assoc.
    + destruct s; reflexivity.
  - by mcbn.
Qed.

(** X7: [timeoutSlot] on an open port: the framer starts over, and the
    timeout is reported once: a second expiry with no traffic in between
    only clears the port. *)
Theorem timeoutSlot_resets_framer s :
  sp_isOpen (serialPort s) = true ->
  exists s1 s2,
    timeoutSlot s = Ok tt s1 /\
    state s1 = STATE_CMD /\ tmpBufIdx s1 = 0 /\ connected s1 = false /\
    emitted s s1 =
      SerialClear ::
      (if connected s then [StatusChanged "Communications timeout"] else []) /\
    timeoutSlot s1 = Ok tt s2 /\
    emitted s1 s2 = [SerialClear].
Proof.
  intros Hop. rewrite timeoutSlot_explicit, Hop.
  destruct (connected s) eqn:Hc.
  - eexists _, _. split; [reflexivity|]. psimpl.
    split; [done|]. split; [done|]. split; [done|].
    split; [by apply emitted_app|].
    rewrite timeoutSlot_explicit. psimpl. rewrite Hop.
    split; [reflexivity|]. by apply emitted_app.
  - eexists _, _. split; [reflexivity|]. psimpl.
    split; [done|]. split; [done|]. split; [done|].
    split; [by apply emitted_app|].
    rewrite timeoutSlot_explicit. psimpl. rewrite Hop, Hc.
    split; [reflexivity|]. by apply emitted_app.
Qed.

(** X8: with the port closed a timer expiry reports "Offline" and resets the
    state, but leaves the staging index and [connected] as they are. *)
Theorem timeoutSlot_port_closed s :
  sp_isOpen (serialPort s) = false ->
  exists s1,
    timeoutSlot s = Ok tt s1 /\
    state s1 = STATE_CMD /\ tmpBufIdx s1 = tmpBufIdx s /\
    connected s1 = connected s /\
    emitted s s1 = [StatusChanged "Offline"].
Proof.
  intros Hop. rewrite timeoutSlot_explicit, Hop.
  eexists. split; [reflexivity|]. psimpl.
  split; [done|]. split; [done|]. split; [done|]. by apply emitted_app.
Qed.

(** A port that is open and connected. *)
Lemma timeoutSlot_resets_framer_witness :
  let s := Demo.after (openPort "ttyUSB0" 403200) Demo.fresh in
  exists s1 s2,
    timeoutSlot s = Ok tt s1 /\
    state s1 = STATE_CMD /\ tmpBufIdx s1 = 0 /\ connected s1 = false /\
    emitted s s1 =
      SerialClear ::
      (if connected s then [StatusChanged "Communications timeout"] else []) /\
    timeoutSlot s1 = Ok tt s2 /\
    emitted s1 s2 = [SerialClear].
Proof.
  intros s. apply (timeoutSlot_resets_framer s). vm_compute. reflexivity.
Defined.

(** A new server: the port is closed. *)
Lemma timeoutSlot_port_closed_witness :
  exists s1,
    timeoutSlot Demo.fresh = Ok tt s1 /\
    state s1 = STATE_CMD /\ tmpBufIdx s1 = tmpBufIdx Demo.fresh /\
    connected s1 = connected Demo.fresh /\
    emitted Demo.fresh s1 = [StatusChanged "Offline"].
Proof.
  apply (timeoutSlot_port_closed Demo.fresh). vm_compute. reflexivity.
Defined.

(** ** updateTrack *)

Lemma updateTrack_in_range s d t f cur :
  0 <= d < MAX_DRIVE ->
  driveFile s !! Z.to_nat d = Some f ->
  curTrack s !! Z.to_nat d = Some cur ->
  updateTrack d t s =
    Ok (effective_track f t)
       (if effective_track f t =? cur then s
        else track_recorded d (effective_track f t) s).
Proof.
  intros Hd Hf Hcur. unfold updateTrack, effective_track, track_recorded.
  destruct (MAX_DRIVE <=? d) eqn:E; [lia|].
  rewrite (bind_ok _ _ _ _ _ (drive_file_ok _ _ _ (proj1 Hd) Hf)).
  rewrite (bind_ok _ _ _ cur s) by (mstep; apply index_ok; [lia | done]).
  rewrite bind_unfold, when_unfold.
  assert (E' : negb (isOpen f) = negb (isOpen f)) by done.
  destruct (isOpen f); cbn [negb].
  - destruct (t =? cur); cbn [negb]; [done|].
    rewrite bind_unfold, assign_ok by (first [lia | eauto]). by mcbn.
  - destruct (0 =? cur); cbn [negb]; [done|].
    rewrite bind_unfold, assign_ok by (first [lia | eauto]). by mcbn.
Qed.

(** X9: [updateTrack] on a drive in range returns the track it settles
    on (0 when the drive is not mounted) and leaves it in [curTrack];
    the other drives keep their tracks; it emits [trackChanged] exactly
    when the track differs from the one recorded; and for a track that is
    not negative a second call changes nothing. *)
Theorem updateTrack_records s d t f cur :
  0 <= d < MAX_DRIVE ->
  driveFile s !! Z.to_nat d = Some f ->
  curTrack s !! Z.to_nat d = Some cur ->
  0 <= cur < 65536 ->
  let t' := effective_track f t in
  exists s',
    updateTrack d t s = Ok t' s' /\
    curTrack s' !! Z.to_nat d = Some (u16 t') /\
    (forall d', d' <> Z.to_nat d -> curTrack s' !! d' = curTrack s !! d') /\
    emitted s s' = (if t' =? cur then [] else [TrackChanged (u8 d) (u16 t')]) /\
    driveFile s' = driveFile s /\ world s' = world s /\
    (0 <= t' < 65536 -> updateTrack d t s' = Ok t' s').
Proof.
  intros Hd Hf Hcur Hrange t'.
  pose proof (lookup_lt_Some _ _ _ Hcur) as Hlt.
  rewrite (updateTrack_in_range s d t f cur) by done. fold t'.
  destruct (t' =? cur) eqn:E.
  - apply Z.eqb_eq in E. exists s. split; [done|].
    split; [by rewrite Hcur, E, u16_small|]. split; [done|].
    split; [apply emitted_app; by rewrite app_nil_r|]. split; [done|]. split; [done|].
    intros _. rewrite (updateTrack_in_range s d t f cur) by done. fold t'.
    by rewrite E, Z.eqb_refl.
  - eexists. split; [reflexivity|]. unfold track_recorded. psimpl.
    split; [by apply list_lookup_insert_eq|].
    split; [intros d' Hd'; by apply list_lookup_insert_ne|].
    split; [by apply emitted_app|]. split; [done|]. split; [done|].
    intros Ht'.
    rewrite (updateTrack_in_range _ d t f (u16 t')); psimpl; try done.
    + fold t'. by rewrite u16_small, Z.eqb_refl.
    + by apply list_lookup_insert_eq.
Qed.

(** Drive 0 of the example server, mounted, at track 0: track 5 is recorded. *)
Lemma updateTrack_records_witness :
  let s := Demo.mounted0 in
  let f := {| isOpen := true; fileName := "a.dsk"; pos := 0 |} in
  let t' := effective_track f 5 in
  exists s',
    updateTrack 0 5 s = Ok t' s' /\
    curTrack s' !! Z.to_nat 0 = Some (u16 t') /\
    (forall d', d' <> Z.to_nat 0 -> curTrack s' !! d' = curTrack s !! d') /\
    emitted s s' = (if t' =? 0 then [] else [TrackChanged (u8 0) (u16 t')]) /\
    driveFile s' = driveFile s /\ world s' = world s /\
    (0 <= t' < 65536 -> updateTrack 0 5 s' = Ok t' s').
Proof.
  intros s f t'.
  apply (updateTrack_records s 0 5 f 0).
  - unfold MAX_DRIVE. lia.
  - vm_compute. reflexivity.
  - vm_compute. reflexivity.
  - lia.
Defined.

(** X10: a negative track (a STAT frame with param2 at or above 0x8000,
    read as [qint16]) never compares equal to the [quint16] in [curTrack]:
    on a mounted drive every call stores the same value again and emits
    [trackChanged] again. *)
Theorem updateTrack_negative_track s d t f cur :
  0 <= d < MAX_DRIVE ->
  driveFile s !! Z.to_nat d = Some f -> isOpen f = true ->
  curTrack s !! Z.to_nat d = Some cur ->
  0 <= cur < 65536 ->
  t < 0 ->
  exists s1 s2,
    updateTrack d t s = Ok t s1 /\
    emitted s s1 = [TrackChanged (u8 d) (u16 t)] /\
    updateTrack d t s1 = Ok t s2 /\
    emitted s1 s2 = [TrackChanged (u8 d) (u16 t)] /\
    curTrack s2 = curTrack s1.
Proof.
  intros Hd Hf Ho Hcur Hrange Ht.
  pose proof (lookup_lt_Some _ _ _ Hcur) as Hlt.
  rewrite (updateTrack_in_range s d t f cur) by done.
  unfold effective_track. rewrite Ho.
  destruct (t =? cur) eqn:E; [lia|].
  eexists _, _. split; [reflexivity|]. unfold track_recorded at 1 2 3. psimpl.
  split; [by apply emitted_app|].
  rewrite (updateTrack_in_range _ d t f (u16 t)); psimpl; try done.
  2:{ by apply list_lookup_insert_eq. }
  unfold effective_track. rewrite Ho.
  pose proof (u16_range t).
  destruct (t =? u16 t) eqn:E2; [lia|].
  split; [reflexivity|]. unfold track_recorded. psimpl.
  split; [by apply emitted_app|].
  by rewrite list_insert_insert_eq.
Qed.

(** Track -1 on drive 0 of the example server. *)
Lemma updateTrack_negative_track_witness :
  let s := Demo.mounted0 in
  exists s1 s2,
    updateTrack 0 (-1) s = Ok (-1) s1 /\
    emitted s s1 = [TrackChanged (u8 0) (u16 (-1))] /\
    updateTrack 0 (-1) s1 = Ok (-1) s2 /\
    emitted s1 s2 = [TrackChanged (u8 0) (u16 (-1))] /\
    curTrack s2 = curTrack s1.
Proof.
  intros s.
  apply (updateTrack_negative_track s 0 (-1)
           {| isOpen := true; fileName := "a.dsk"; pos := 0 |} 0).
  - unfold MAX_DRIVE. lia.
  - vm_compute. reflexivity.
  - reflexivity.
  - vm_compute. reflexivity.
  - lia.
  - lia.
Defined.

(** ** mountDisk, unmountDisk *)

Lemma mountDisk_prepare s d filename f :
  0 <= d < MAX_DRIVE ->
  driveFile s !! Z.to_nat d = Some f ->
  mountDisk d filename s =
    (let '(r, f') := File.open (world s) (renamed filename f) in
     set_drive_file d f' ≫= fun _ =>
     if r then
       let '(tracks, size) := geometry (File.size (world s) f') in
       assign "maxTrack" maxTrack set_maxTrack d tracks ≫= fun _ =>
       updateTrack d 0 ≫= fun _ =>
       (gets maxTrack ≫= fun arr => index "maxTrack" arr d) ≫= fun tracks =>
       emit (MountChanged d true (Some filename) tracks (Some size)) ≫= fun _ =>
       mret r
     else mret r)
      (set_driveFile (<[Z.to_nat d := renamed filename f]> (driveFile s)) s).
Proof.
  intros Hd Hf. pose proof (lookup_lt_Some _ _ _ Hf) as Hlt.
  unfold mountDisk, set_drive_file, renamed.
  rewrite (bind_ok _ _ _ _ _ (drive_file_ok _ _ _ (proj1 Hd) Hf)).
  rewrite bind_unfold, when_unfold.
  destruct (isOpen f) eqn:Ho.
  - rewrite assign_ok by (first [lia | eauto]).
    set (s1 := set_driveFile _ s).
    assert (H1 : driveFile s1 !! Z.to_nat d = Some (File.close f)).
    { unfold s1. psimpl. by apply list_lookup_insert_eq. }
    rewrite (bind_ok _ _ _ _ _ (drive_file_ok _ _ _ (proj1 Hd) H1)).
    rewrite bind_unfold, assign_ok by (first [lia | eauto]).
    set (s2 := set_driveFile _ s1).
    assert (H2 : driveFile s2 !! Z.to_nat d = Some (File.setFileName filename (File.close f))).
    { unfold s2. psimpl. apply list_lookup_insert_eq. unfold s1. psimpl.
      by rewrite length_insert. }
    rewrite (bind_ok _ _ _ _ _ (drive_file_ok _ _ _ (proj1 Hd) H2)).
    mstep. unfold s2, s1. psimpl. rewrite list_insert_insert_eq.
    replace (set_driveFile _ (set_driveFile _ s)) with
      (set_driveFile (<[Z.to_nat d := File.setFileName filename (File.close f)]> (driveFile s)) s)
      by (by destruct s).
    reflexivity.
  - rewrite (bind_ok _ _ _ _ _ (drive_file_ok _ _ _ (proj1 Hd) Hf)).
    rewrite bind_unfold, assign_ok by (first [lia | eauto]).
    set (s2 := set_driveFile _ s).
    assert (H2 : driveFile s2 !! Z.to_nat d = Some (File.setFileName filename f)).
    { unfold s2. psimpl. by apply list_lookup_insert_eq. }
    rewrite (bind_ok _ _ _ _ _ (drive_file_ok _ _ _ (proj1 Hd) H2)).
    mstep. reflexivity.
Qed.

(** X11: [mountDisk] of a file that opens, on a drive in range, mounted
    or not: it returns [true]; the slot holds the new file, open, whatever
    it held before; [maxTrack] and the size label are those the file
    length gives; the track is back at 0, with [trackChanged] when it was
    not; [mountChanged] comes last; no file contents change. *)
Theorem mountDisk_mounts s d filename f c cur :
  0 <= d < MAX_DRIVE ->
  driveFile s !! Z.to_nat d = Some f ->
  curTrack s !! Z.to_nat d = Some cur ->
  length (maxTrack s) = length (driveFile s) ->
  files (world s) !! filename = Some c ->
  let tracks := (geometry (Z.of_nat (length c))).1 in
  let label := (geometry (Z.of_nat (length c))).2 in
  exists s',
    mountDisk d filename s = Ok true s' /\
    mounted s' d = true /\ backing s' d = Some c /\
    driveFile s' =
      <[Z.to_nat d := {| isOpen := true; fileName := filename; pos := 0 |}]>
        (driveFile s) /\
    maxTrack s' = <[Z.to_nat d := tracks]> (maxTrack s) /\
    curTrack s' !! Z.to_nat d = Some 0 /\
    emitted s s' =
      (if 0 =? cur then [] else [TrackChanged (u8 d) 0]) ++
      [MountChanged d true (Some filename) tracks (Some label)] /\
    world s' = world s.
Proof.
  intros Hd Hf Hcur Hmax Hc tracks label.
  pose proof (lookup_lt_Some _ _ _ Hf) as Hlt.
  pose proof (lookup_lt_Some _ _ _ Hcur) as Hlt'.
  rewrite (mountDisk_prepare s d filename f) by done.
  unfold File.open. psimpl.
  replace (fileName (renamed filename f)) with filename
    by (unfold renamed; by destruct (isOpen f)).
  rewrite Hc. unfold set_drive_file.
  rewrite bind_unfold, assign_ok
    by (psimpl; first [lia | apply lookup_lt_is_Some_2; rewrite ?length_insert; lia]).
  psimpl. rewrite list_insert_insert_eq.
  unfold File.size. cbn [fileName]. rewrite Hc.
  fold tracks label. destruct (geometry _) as [tr lb] eqn:Eg. cbn [fst snd] in *.
  change tracks with tr. change label with lb. clear tracks label.
  rewrite bind_unfold, assign_ok
    by (psimpl; first [lia | apply lookup_lt_is_Some_2; lia]).
  set (s2 := set_maxTrack _ _).
  rewrite (bind_ok _ _ _ _ _
    (updateTrack_in_range s2 d 0 {| isOpen := true; fileName := filename; pos := 0 |} cur
       Hd ltac:(unfold s2; psimpl; by apply list_lookup_insert_eq) Hcur)).
  unfold effective_track. cbn [isOpen].
  set (s3 := if 0 =? cur then s2 else _).
  assert (H3 : maxTrack s3 = <[Z.to_nat d := tr]> (maxTrack s) /\
               driveFile s3 = <[Z.to_nat d := {| isOpen := true; fileName := filename; pos := 0 |}]> (driveFile s) /\
               world s3 = world s /\
               curTrack s3 !! Z.to_nat d = Some 0 /\
               trace s3 = trace s ++ (if 0 =? cur then [] else [TrackChanged (u8 d) 0])).
  { unfold s3, track_recorded. destruct (0 =? cur) eqn:E; unfold s2; psimpl.
    - rewrite app_nil_r. split_ands; try done. rewrite Hcur. f_equal. lia.
    - split_ands; try done. by apply list_lookup_insert_eq. }
  destruct H3 as (Hm3 & Hd3 & Hw3 & Hc3 & Ht3).
  rewrite (bind_ok _ _ _ tr s3).
  2:{ mstep. apply index_ok; [lia|]. rewrite Hm3. apply list_lookup_insert_eq. lia. }
  repeat mstep. eexists. split; [reflexivity|]. unfold mounted, backing. psimpl.
  destruct (0 <=? d) eqn:E0; [|lia].
  rewrite Hd3, list_lookup_insert_eq by done. cbn [isOpen fileName]. rewrite Hw3, Hc.
  split_ands; try done.
  apply emitted_app. psimpl. by rewrite Ht3, <- app_assoc.
Qed.

(** The image of the example host on drive 1 of a new server. *)
Lemma mountDisk_mounts_witness :
  let c := zeros (Z.to_nat (2 * TRKBUF_SIZE)) in
  exists s',
    mountDisk 1 "a.dsk" Demo.fresh = Ok true s' /\
    mounted s' 1 = true /\ backing s' 1 = Some c /\
    driveFile s' =
      <[Z.to_nat 1 := {| isOpen := true; fileName := "a.dsk"; pos := 0 |}]>
        (driveFile Demo.fresh) /\
    maxTrack s' =
      <[Z.to_nat 1 := (geometry (Z.of_nat (length c))).1]> (maxTrack Demo.fresh) /\
    curTrack s' !! Z.to_nat 1 = Some 0 /\
    emitted Demo.fresh s' =
      (if 0 =? 0 then [] else [TrackChanged (u8 1) 0]) ++
      [MountChanged 1 true (Some "a.dsk") (geometry (Z.of_nat (length c))).1
         (Some (geometry (Z.of_nat (length c))).2)] /\
    world s' = world Demo.fresh.
Proof.
  intros c.
  apply (mountDisk_mounts Demo.fresh 1 "a.dsk" File.closed c 0).
  - unfold MAX_DRIVE. lia.
  - vm_compute. reflexivity.
  - vm_compute. reflexivity.
  - vm_compute. reflexivity.
  - vm_compute. reflexivity.
Defined.

(** X12: [mountDisk] of a file that does not open, on a drive in range:
    it returns [false] and emits nothing; the slot is closed afterwards
    and carries the new file name, also when it held a mounted image
    before: that image is gone without a [mountChanged].  Tracks,
    geometry and file contents stay as they were. *)
Theorem mountDisk_fails s d filename f :
  0 <= d < MAX_DRIVE ->
  driveFile s !! Z.to_nat d = Some f ->
  files (world s) !! filename = None ->
  exists s',
    mountDisk d filename s = Ok false s' /\
    mounted s' d = false /\
    driveFile s' = <[Z.to_nat d := renamed filename f]> (driveFile s) /\
    fileName (renamed filename f) = filename /\
    trace s' = trace s /\ curTrack s' = curTrack s /\ maxTrack s' = maxTrack s /\
    world s' = world s.
Proof.
  intros Hd Hf Hnone.
  pose proof (lookup_lt_Some _ _ _ Hf) as Hlt.
  assert (Hname : fileName (renamed filename f) = filename)
    by (unfold renamed; by destruct (isOpen f)).
  assert (Hclosed : isOpen (renamed filename f) = false)
    by (unfold renamed; by destruct (isOpen f) eqn:E).
  rewrite (mountDisk_prepare s d filename f) by done.
  unfold File.open. psimpl. rewrite Hname, Hnone. unfold set_drive_file.
  rewrite bind_unfold, assign_ok
    by (psimpl; first [lia | apply lookup_lt_is_Some_2; rewrite ?length_insert; lia]).
  psimpl. rewrite list_insert_insert_eq. mcbn.
  eexists. split; [reflexivity|]. unfold mounted. psimpl.
  destruct (0 <=? d) eqn:E0; [|lia].
  rewrite list_lookup_insert_eq by done. by split_ands.
Qed.

(** A file the example host does not have, on its mounted drive 0. *)
Lemma mountDisk_fails_witness :
  let s := Demo.mounted0 in
  let f := {| isOpen := true; fileName := "a.dsk"; pos := 0 |} in
  exists s',
    mountDisk 0 "missing.dsk" s = Ok false s' /\
    mounted s' 0 = false /\
    driveFile s' = <[Z.to_nat 0 := renamed "missing.dsk" f]> (driveFile s) /\
    fileName (renamed "missing.dsk" f) = "missing.dsk" /\
    trace s' = trace s /\ curTrack s' = curTrack s /\ maxTrack s' = maxTrack s /\
    world s' = world s.
Proof.
  intros s f.
  apply (mountDisk_fails s 0 "missing.dsk" f).
  - unfold MAX_DRIVE. lia.
  - vm_compute. reflexivity.
  - vm_compute. reflexivity.
Defined.

(** X13: [unmountDisk] on a drive in range: the slot is closed
    afterwards; a mounted drive has its track set back to 0 first (with
    [trackChanged] when it was not 0); [mountChanged(drive, false)] is
    emitted in every case, also for a drive that was not mounted;
    [maxTrack] and the file contents stay. *)
Theorem unmountDisk_unmounts s d f cur :
  0 <= d < MAX_DRIVE ->
  driveFile s !! Z.to_nat d = Some f ->
  curTrack s !! Z.to_nat d = Some cur ->
  exists s',
    unmountDisk d s = Ok tt s' /\
    mounted s' d = false /\
    curTrack s' !! Z.to_nat d = Some (if isOpen f then 0 else cur) /\
    emitted s s' =
      (if isOpen f && negb (0 =? cur) then [TrackChanged (u8 d) 0] else []) ++
      [MountChanged d false None 0 None] /\
    maxTrack s' = maxTrack s /\ world s' = world s.
Proof.
  intros Hd Hf Hcur.
  pose proof (lookup_lt_Some _ _ _ Hf) as Hlt.
  pose proof (lookup_lt_Some _ _ _ Hcur) as Hlt'.
  unfold unmountDisk.
  rewrite (bind_ok _ _ _ _ _ (drive_file_ok _ _ _ (proj1 Hd) Hf)).
  rewrite bind_unfold, when_unfold.
  destruct (isOpen f) eqn:Ho; cbn [andb].
  - rewrite (bind_ok _ _ _ _ _ (updateTrack_in_range s d 0 f cur Hd Hf Hcur)).
    unfold effective_track. rewrite Ho.
    set (s1 := if 0 =? cur then s else _).
    assert (H1 : driveFile s1 = driveFile s /\ world s1 = world s /\
                 maxTrack s1 = maxTrack s /\ curTrack s1 !! Z.to_nat d = Some 0 /\
                 trace s1 = trace s ++ (if negb (0 =? cur) then [TrackChanged (u8 d) 0] else [])).
    { unfold s1, track_recorded. destruct (0 =? cur) eqn:E; cbn [negb]; psimpl.
      - rewrite app_nil_r. split_ands; try done. rewrite Hcur. f_equal. lia.
      - split_ands; try done. by apply list_lookup_insert_eq. }
    destruct H1 as (Hd1 & Hw1 & Hm1 & Hc1 & Ht1).
    rewrite (bind_ok _ _ _ f s1) by (apply drive_file_ok; [lia | by rewrite Hd1]).
    unfold set_drive_file.
    rewrite assign_ok by (rewrite ?Hd1; first [lia | eauto]).
    mcbn. eexists. split; [reflexivity|]. unfold mounted. psimpl.
    destruct (0 <=? d) eqn:E0; [|lia].
    rewrite Hd1, list_lookup_insert_eq by done.
    split_ands; try done.
    apply emitted_app. by rewrite Ht1, <- app_assoc.
  - mcbn. eexists. split; [reflexivity|]. unfold mounted. psimpl.
    destruct (0 <=? d) eqn:E0; [|lia]. rewrite Hf.
    split_ands; try done. by apply emitted_app.
Qed.

(** Drive 0 of the example server after a READ of track 1. *)
Lemma unmountDisk_unmounts_witness :
  let s := Scenario.read_track1 in
  let f := {| isOpen := true; fileName := "a.dsk"; pos := 274 |} in
  exists s',
    unmountDisk 0 s = Ok tt s' /\
    mounted s' 0 = false /\
    curTrack s' !! Z.to_nat 0 = Some (if isOpen f then 0 else 1) /\
    emitted s s' =
      (if isOpen f && negb (0 =? 1) then [TrackChanged (u8 0) 0] else []) ++
      [MountChanged 0 false None 0 None] /\
    maxTrack s' = maxTrack s /\ world s' = world s.
Proof.
  intros s f.
  apply (unmountDisk_unmounts s 0 f 1).
  - unfold MAX_DRIVE. lia.
  - vm_compute. reflexivity.
  - vm_compute. reflexivity.
Defined.

(** X14: [unmountDisk] has no range test: for an index below 0 or at or
    above [MAX_DRIVE] its first statement indexes [driveFile] with it. *)
Theorem unmountDisk_out_of_range s drive :
  length (driveFile s) = Z.to_nat MAX_DRIVE ->
  drive < 0 \/ MAX_DRIVE <= drive ->
  unmountDisk drive s = Crash (OutOfBounds "driveFile" drive).
Proof.
  intros Hlen Hd. unfold unmountDisk.
  apply bind_crash. unfold drive_file. mstep.
  apply index_crash. rewrite Hlen. unfold MAX_DRIVE in *. lia.
Qed.

(** Drive -1 on a new server. *)
Lemma unmountDisk_out_of_range_witness :
  unmountDisk (-1) Demo.fresh = Crash (OutOfBounds "driveFile" (-1)).
Proof.
  apply (unmountDisk_out_of_range Demo.fresh (-1)).
  - vm_compute. reflexivity.
  - left. lia.
Defined.

(** ** STAT *)

Lemma list4 {A} (l : list A) :
  length l = Z.to_nat MAX_DRIVE -> exists a b c d, l = [a; b; c; d].
Proof.
  intros H. do 4 (destruct l as [|? l]; [discriminate|]).
  destruct l; [|discriminate]. by repeat eexists.
Qed.

Lemma set_cmdBuf_again a b s : set_cmdBuf a (set_cmdBuf b s) = set_cmdBuf a s.
Proof. reflexivity. Qed.

Lemma mask_bit m (b0 b1 b2 b3 : bool) d :
  m = Z_of_bool b0 + 2 * Z_of_bool b1 + 4 * Z_of_bool b2 + 8 * Z_of_bool b3 ->
  Z.testbit m d =
    match (if 0 <=? d then [b0; b1; b2; b3] !! Z.to_nat d else None) with
    | Some b => b
    | None => false
    end.
Proof.
  intros ->.
  destruct (0 <=? d) eqn:E0; [|apply Z.testbit_neg_r; lia].
  destruct (Z.lt_ge_cases d 4) as [Hlt | Hge].
  - assert (d = 0 \/ d = 1 \/ d = 2 \/ d = 3) as [-> | [-> | [-> | ->]]] by lia;
      by destruct b0, b1, b2, b3.
  - rewrite (lookup_ge_None_2 _ (Z.to_nat d)) by (cbn; lia).
    apply (testbit_above _ 4); [|lia].
    destruct b0, b1, b2, b3; cbn; lia.
Qed.

Lemma statResponse_run s :
  length (driveFile s) = Z.to_nat MAX_DRIVE ->
  length (cmdBuf s) = 10%nat ->
  exists resp s',
    statResponse s = Ok false s' /\
    trace s' = trace s ++ stat_events s resp /\
    stat_answer s resp /\
    cmdBuf s' = resp /\
    connected s' = true /\ outPkts s' = u16 (outPkts s + 1) /\
    driveFile s' = driveFile s /\ world s' = world s /\
    headStatus s' = headStatus s /\ curTrack s' = curTrack s /\
    driveSelected s' = driveSelected s /\ statPkts s' = statPkts s /\
    state s' = state s /\ tmpBuf s' = tmpBuf s.
Proof.
  intros Hdf Hcmd.
  destruct (list4 _ Hdf) as ([o0 n0 p0] & [o1 n1 p1] & [o2 n2 p2] & [o3 n3 p3] & Edf).
  destruct (list10 _ Hcmd) as (b0&b1&b2&b3&b4&b5&b6&b7&b8&b9&Ecmd).
  unfold statResponse, for_drives, drive_file, stat_events, stat_answer.
  change (seqZ 0 MAX_DRIVE) with [0; 1; 2; 3]. cbn [foldr].
  repeat (first [rewrite bind_unfold | progress unfold on_cmdBuf, modify, mret, M_ret];
          mcbn; rewrite ?Edf, ?Ecmd;
          try (erewrite index_ok by (first [lia | reflexivity]));
          cbn [isOpen]; rewrite ?set_cmdBuf_again).
  set (resp := Cmd.set_checksum _ _).
  assert (Hresp :
    length resp = 10%nat /\ Cmd.command resp = [b0; b1; b2; b3] /\
    Cmd.rcode resp = STAT_OK /\
    Cmd.rdata resp =
      Z_of_bool o0 + 2 * Z_of_bool o1 + 4 * Z_of_bool o2 + 8 * Z_of_bool o3 /\
    Cmd.checksum resp = checkSum resp CMD_LEN).
  { unfold resp. cbn -[checkSum le16 lo8 hi8 Z_of_bool Z.shiftl Z.lor u16].
    split; [done|]. split; [done|].
    split; [by vm_compute|].
    split; [by destruct o0, o1, o2, o3|].
    unfold Cmd.checksum, Cmd.word_at.
    cbn -[checkSum le16 lo8 hi8 Z_of_bool Z.shiftl Z.lor u16].
    rewrite le16_bytes16 by apply checkSum_range. reflexivity. }
  destruct Hresp as (H1 & H2 & H3 & H4 & H5).
  change (Z.to_nat CMDBUF_SIZE) with 10%nat.
  rewrite (take_ge resp) by lia.
  rewrite when_unfold.
  exists resp.
  assert (Hbits : forall d, Z.testbit (Cmd.rdata resp) d = mounted s d).
  { intros d. rewrite (mask_bit _ o0 o1 o2 o3 d H4).
    unfold mounted. rewrite Edf.
    destruct (0 <=? d); [|done].
    destruct (Z.to_nat d) as [|[|[|[|n]]]]; reflexivity. }
  destruct (connected s) eqn:Hc; mcbn; repeat mstep;
    (eexists; split; [reflexivity|]); psimpl;
    (split; [by rewrite <- ?app_assoc|]);
    rewrite ?Ecmd; by split_ands.
Qed.

(** X15: the answer to STAT.  [statResponse] sends the ten bytes of
    the request back with response code [STAT_OK], the mounted drives as a
    bit mask in the data word (bit [d] set exactly when drive [d] is
    mounted) and the checksum of the first eight bytes; it restarts the
    timer, counts the packet, and reports [Connected] only when the link
    was not yet marked connected. *)
Theorem statResponse_frame s :
  length (driveFile s) = Z.to_nat MAX_DRIVE ->
  length (cmdBuf s) = 10%nat ->
  exists resp s',
    statResponse s = Ok false s' /\
    emitted s s' =
      [SerialWrite resp; TimerStart FDC_TIMEOUT] ++
      (if connected s then [] else [StatusChanged "Connected"]) /\
    length resp = 10%nat /\
    Cmd.command resp = Cmd.command (cmdBuf s) /\
    Cmd.rcode resp = STAT_OK /\
    (forall d, Z.testbit (Cmd.rdata resp) d = mounted s d) /\
    Cmd.checksum resp = checkSum resp CMD_LEN /\
    cmdBuf s' = resp /\
    connected s' = true /\ outPkts s' = u16 (outPkts s + 1) /\
    driveFile s' = driveFile s /\ world s' = world s.
Proof.
  intros Hdf Hcmd.
  destruct (statResponse_run s Hdf Hcmd)
    as (resp & s' & R & Ht & (A1 & A2 & A3 & A4 & A5) & K1 & K2 & K3 & K4 & K5 & _).
  exists resp, s'. split; [done|].
  split; [by apply emitted_app|]. by split_ands.
Qed.

(** The example server with drive 0 mounted and a STAT request in
    [cmdBuf]. *)
Lemma statResponse_frame_witness :
  let s := set_cmdBuf (Scenario.stat 0 0) Demo.mounted0 in
  exists resp s',
    statResponse s = Ok false s' /\
    emitted s s' =
      [SerialWrite resp; TimerStart FDC_TIMEOUT] ++
      (if connected s then [] else [StatusChanged "Connected"]) /\
    length resp = 10%nat /\
    Cmd.command resp = Cmd.command (cmdBuf s) /\
    Cmd.rcode resp = STAT_OK /\
    (forall d, Z.testbit (Cmd.rdata resp) d = mounted s d) /\
    Cmd.checksum resp = checkSum resp CMD_LEN /\
    cmdBuf s' = resp /\
    connected s' = true /\ outPkts s' = u16 (outPkts s + 1) /\
    driveFile s' = driveFile s /\ world s' = world s.
Proof.
  intros s. apply (statResponse_frame s); vm_compute; reflexivity.
Defined.

Lemma head_index_ok s d h :
  0 <= d -> headStatus s !! Z.to_nat d = Some h ->
  (gets headStatus ≫= fun arr => index "headStatus" arr d) s = Ok h s.
Proof. intros Hd Hh. mstep. by apply index_ok. Qed.

Lemma statUpdate_run s f hsel hnew cur :
  let cmd := cmdBuf s in
  let sel := driveSelected s in
  let new := u8 (Z.land (Cmd.param1 cmd) 0xff) in
  let head := Z.shiftr (Cmd.param1 cmd) 8 in
  let t := effective_track f (s16 (Cmd.param2 cmd)) in
  0 <= sel < MAX_DRIVE -> new < MAX_DRIVE -> 0 <= head < 256 ->
  headStatus s !! Z.to_nat sel = Some hsel ->
  headStatus s !! Z.to_nat new = Some hnew ->
  driveFile s !! Z.to_nat new = Some f ->
  curTrack s !! Z.to_nat new = Some cur ->
  0 <= cur < 65536 ->
  exists s',
    statUpdate s = Ok tt s' /\
    driveSelected s' = new /\
    headStatus s' = heads_after sel new head (headStatus s) /\
    curTrack s' = <[Z.to_nat new := u16 t]> (curTrack s) /\
    trace s' = trace s ++ select_events sel new head hsel hnew t cur /\
    driveFile s' = driveFile s /\ world s' = world s /\ cmdBuf s' = cmdBuf s /\
    connected s' = connected s /\ outPkts s' = outPkts s /\
    statPkts s' = statPkts s /\ tmpBuf s' = tmpBuf s /\ state s' = state s /\
    tmpBufIdx s' = tmpBufIdx s.
Proof.
  intros cmd sel new head t Hsel Hnew Hhead Hhsel Hhnew Hf Hcur Hcr.
  assert (Hnew0 : 0 <= new) by (unfold new, u8; apply Z.mod_pos_bound; lia).
  unfold statUpdate. do 2 mstep. fold cmd new head sel.
  destruct (new <=? MAX_DRIVE) eqn:E1; [|lia]. cbn [andb].
  (* deselecting the old drive *)
  assert (exists s1,
    when_ (negb (sel =? new))
      ((gets headStatus ≫= fun arr => index "headStatus" arr sel) ≫= fun h =>
       when_ (negb (h =? 0))
         (assign "headStatus" headStatus set_headStatus sel 0 ≫= fun _ =>
          emit (HeadChanged sel false)) ≫= fun _ =>
       emit (DriveChanged new)) s = Ok tt s1 /\
    headStatus s1 = (if sel =? new then headStatus s else <[Z.to_nat sel := 0]> (headStatus s)) /\
    trace s1 = trace s ++
      (if sel =? new then []
       else (if hsel =? 0 then [] else [HeadChanged sel false]) ++ [DriveChanged new]) /\
    curTrack s1 = curTrack s /\
    driveFile s1 = driveFile s /\ world s1 = world s /\ cmdBuf s1 = cmdBuf s /\
    connected s1 = connected s /\ outPkts s1 = outPkts s /\
    statPkts s1 = statPkts s /\ tmpBuf s1 = tmpBuf s /\ state s1 = state s /\
    tmpBufIdx s1 = tmpBufIdx s)
    as (s1 & R1 & Hh1 & Ht1 & Hc1 & Hk1).
  { rewrite when_unfold. destruct (sel =? new) eqn:E2; cbn [negb].
    - exists s. rewrite app_nil_r. by split_ands.
    - rewrite (bind_ok _ _ _ _ _ (head_index_ok s sel hsel (proj1 Hsel) Hhsel)).
      rewrite bind_unfold, when_unfold.
      destruct (hsel =? 0) eqn:E3; cbn [negb].
      + mcbn. eexists. split; [reflexivity|]. psimpl. split_ands; try done.
        apply Z.eqb_eq in E3. subst hsel. symmetry. by apply list_insert_id.
      + rewrite bind_unfold, assign_ok by (first [lia | eauto]). mcbn.
        eexists. split; [reflexivity|]. psimpl. split_ands; try done.
        by rewrite <- app_assoc. }
  rewrite (bind_ok _ _ _ _ _ R1). clear R1.
  rewrite bind_unfold, when_unfold.
  (* loading the head of the new drive *)
  set (hs1 := if sel =? new then headStatus s else <[Z.to_nat sel := 0]> (headStatus s)) in *.
  assert (Hn1 : hs1 !! Z.to_nat new = Some hnew).
  { unfold hs1. destruct (sel =? new) eqn:E2; [done|].
    rewrite list_lookup_insert_ne; [done|]. lia. }
  rewrite (bind_ok _ _ _ hnew s1) by (apply head_index_ok; [done | by rewrite Hh1]).
  assert (exists s2,
    when_ (negb (hnew =? head))
      (assign "headStatus" headStatus set_headStatus new (u8 head) ≫= fun _ =>
       emit (HeadChanged new (negb (u8 head =? 0)))) s1 = Ok tt s2 /\
    headStatus s2 = <[Z.to_nat new := head]> hs1 /\
    trace s2 = trace s1 ++
      (if hnew =? head then [] else [HeadChanged new (negb (head =? 0))]) /\
    curTrack s2 = curTrack s /\
    driveFile s2 = driveFile s /\ world s2 = world s /\ cmdBuf s2 = cmdBuf s /\
    connected s2 = connected s /\ outPkts s2 = outPkts s /\
    statPkts s2 = statPkts s /\ tmpBuf s2 = tmpBuf s /\ state s2 = state s /\
    tmpBufIdx s2 = tmpBufIdx s)
    as (s2 & R2 & Hh2 & Ht2 & Hc2 & Hk2).
  { rewrite when_unfold. destruct (hnew =? head) eqn:E3; cbn [negb].
    - exists s1. rewrite app_nil_r, Hh1. split_ands; try tauto.
      apply Z.eqb_eq in E3. subst hnew. symmetry. by apply list_insert_id.
    - assert (Eu : u8 head = head) by (unfold u8; apply Z.mod_small; lia).
      rewrite Eu.
      rewrite bind_unfold, assign_ok
        by (first [lia | rewrite Hh1; eauto]). mcbn.
      eexists. split; [reflexivity|]. psimpl. rewrite Hh1. split_ands; tauto. }
  rewrite (bind_ok _ _ _ _ _ R2). clear R2.
  rewrite bind_unfold.
  rewrite (updateTrack_in_range s2 new _ f cur)
    by (first [lia | destruct Hk2 as (-> & _); done | by rewrite Hc2]).
  fold cmd t. mcbn. unfold modify.
  destruct Hk2 as (Hd2 & Hw2 & Hcm2 & Hco2 & Ho2 & Hs2 & Htm2 & Hst2 & Hi2).
  eexists. split; [reflexivity|]. psimpl.
  unfold heads_after, select_events. fold hs1.
  destruct (t =? cur) eqn:E4; unfold track_recorded; psimpl.
  - rewrite app_nil_r. split; [done|]. split; [done|].
    split.
    { rewrite Hc2. apply Z.eqb_eq in E4. rewrite E4, u16_small by done.
      symmetry. by apply list_insert_id. }
    split; [rewrite Ht2, Ht1, <- app_assoc;
            by destruct (sel =? new)|].
    by split_ands.
  - split; [done|]. split; [done|].
    split; [by rewrite Hc2|].
    split; [rewrite Ht2, Ht1, <- !app_assoc;
            by destruct (sel =? new)|].
    by split_ands.
Qed.

Lemma dispatch_stat s :
  Cmd.checksum (cmdBuf s) = checkSum (cmdBuf s) CMD_LEN ->
  Cmd.command (cmdBuf s) = Cmd.STAT ->
  dispatch s =
    (incr statPkts set_statPkts ≫= fun _ =>
     statUpdate ≫= fun _ => statResponse ≫= fun _ => mret tt) s.
Proof.
  intros Hck Htag. unfold dispatch. mstep.
  rewrite Hck, Z.eqb_refl. unfold Cmd.is_tag. rewrite Htag.
  reflexivity.
Qed.

Lemma mounted_ext s s' d : driveFile s' = driveFile s -> mounted s' d = mounted s d.
Proof. unfold mounted. by intros ->. Qed.

Lemma stat_request_run s frame f hsel hnew cur :
  let sel := driveSelected s in
  let new := u8 (Z.land (Cmd.param1 frame) 0xff) in
  let head := Z.shiftr (Cmd.param1 frame) 8 in
  let t := effective_track f (s16 (Cmd.param2 frame)) in
  state s = STATE_CMD -> tmpBufIdx s = 0 ->
  length (tmpBuf s) = Z.to_nat sizeof_trkbuf ->
  length (driveFile s) = Z.to_nat MAX_DRIVE ->
  length frame = 10%nat -> Cmd.command frame = Cmd.STAT ->
  Cmd.checksum frame = checkSum frame CMD_LEN ->
  0 <= Cmd.param1 frame < 65536 ->
  0 <= sel < MAX_DRIVE -> new < MAX_DRIVE ->
  headStatus s !! Z.to_nat sel = Some hsel ->
  headStatus s !! Z.to_nat new = Some hnew ->
  driveFile s !! Z.to_nat new = Some f ->
  curTrack s !! Z.to_nat new = Some cur ->
  0 <= cur < 65536 ->
  exists resp s',
    readData frame s = Ok tt s' /\
    driveSelected s' = new /\
    headStatus s' = heads_after sel new head (headStatus s) /\
    curTrack s' = <[Z.to_nat new := u16 t]> (curTrack s) /\
    emitted s s' = select_events sel new head hsel hnew t cur ++ stat_events s resp /\
    stat_answer (set_cmdBuf frame s) resp /\
    statPkts s' = u16 (statPkts s + 1) /\ outPkts s' = u16 (outPkts s + 1) /\
    connected s' = true /\ tmpBufIdx s' = 0 /\ state s' = STATE_CMD /\
    driveFile s' = driveFile s /\ world s' = world s /\
    length (tmpBuf s') = length (tmpBuf s).
Proof.
  intros sel new head t Hst Hidx Htmp Hdf Hlen Htag Hck Hp1 Hsel Hnew
    Hhsel Hhnew Hf Hcur Hcr.
  rewrite (readData_cmd s frame Hst Hidx Htmp Hlen).
  set (s0 := set_cmdBuf frame _).
  rewrite bind_unfold, (dispatch_stat s0 Hck Htag).
  rewrite bind_unfold. mcbn.
  set (s1 := set_statPkts _ s0).
  assert (Hhead : 0 <= head < 256).
  { unfold head. rewrite Z.shiftr_div_pow2 by lia.
    split; [apply Z.div_pos; lia | apply Z.div_lt_upper_bound; lia]. }
  destruct (statUpdate_run s1 f hsel hnew cur)
    as (s2 & R2 & U1 & U2 & U3 & U4 & U5 & U6 & U7 & U8 & U9 & U10 & U11 & U12 & U13);
    try done.
  rewrite bind_unfold, R2.
  destruct (statResponse_run s2) as (resp & s3 & R3 & Ht3 & Ha & V1 & V2 & V3 & V4 & V5
                                     & V6 & V7 & V8 & V9 & V10 & V11);
    [by rewrite U5 | by rewrite U7 |].
  rewrite bind_unfold, R3. mcbn. unfold modify.
  exists resp. eexists. split; [reflexivity|]. psimpl.
  split; [by rewrite V8, U1|].
  split; [by rewrite V6, U2|].
  split; [by rewrite V7, U3|].
  split.
  { apply emitted_app. psimpl. rewrite Ht3, U4. unfold stat_events. rewrite U8.
    unfold s1, s0. psimpl. by rewrite <- app_assoc. }
  split.
  { destruct Ha as (A1 & A2 & A3 & A4 & A5). unfold stat_answer. psimpl.
    rewrite U7 in A2. split_ands; try done.
    intros d. rewrite A4. rewrite (mounted_ext s1 s2 d U5). by apply mounted_ext. }
  rewrite V9, V3, V10, V4, V5, V11, U10, U9, U5, U6, U12.
  unfold s1, s0. psimpl. split_ands; try done.
  rewrite U11. unfold s1, s0. psimpl.
  apply length_blit. rewrite Htmp, Hlen. vm_compute. lia.
Qed.

(** Closed side conditions of the example runs. *)
Ltac by_eval :=
  vm_compute;
  first [reflexivity | discriminate | split; first [reflexivity | discriminate]].

(** X16: a STAT request from end to end.  With a drive in range
    selected, a ten-byte STAT frame with a good checksum that names a
    drive below [MAX_DRIVE] (low byte of [param1]) selects that drive,
    unloads the head of the drive selected before when it is another one,
    records the head flag (high byte of [param1]) and the track
    ([param2], 0 for a drive that is not mounted), emits [headChanged],
    [driveChanged] and [trackChanged] only for what changed and in that
    order, and then answers with the STAT response; the framer is back at
    the start of a command. *)
Theorem stat_request s frame f hsel hnew cur :
  let sel := driveSelected s in
  let new := u8 (Z.land (Cmd.param1 frame) 0xff) in
  let head := Z.shiftr (Cmd.param1 frame) 8 in
  let t := effective_track f (s16 (Cmd.param2 frame)) in
  state s = STATE_CMD -> tmpBufIdx s = 0 ->
  length (tmpBuf s) = Z.to_nat sizeof_trkbuf ->
  length (driveFile s) = Z.to_nat MAX_DRIVE ->
  length frame = 10%nat -> Cmd.command frame = Cmd.STAT ->
  Cmd.checksum frame = checkSum frame CMD_LEN ->
  0 <= Cmd.param1 frame < 65536 ->
  0 <= sel < MAX_DRIVE -> new < MAX_DRIVE ->
  headStatus s !! Z.to_nat sel = Some hsel ->
  headStatus s !! Z.to_nat new = Some hnew ->
  driveFile s !! Z.to_nat new = Some f ->
  curTrack s !! Z.to_nat new = Some cur ->
  0 <= cur < 65536 ->
  exists resp s',
    readData frame s = Ok tt s' /\
    driveSelected s' = new /\
    headStatus s' = heads_after sel new head (headStatus s) /\
    curTrack s' = <[Z.to_nat new := u16 t]> (curTrack s) /\
    emitted s s' = select_events sel new head hsel hnew t cur ++ stat_events s resp /\
    stat_answer (set_cmdBuf frame s) resp /\
    statPkts s' = u16 (statPkts s + 1) /\ outPkts s' = u16 (outPkts s + 1) /\
    connected s' = true /\ tmpBufIdx s' = 0 /\ state s' = STATE_CMD /\
    driveFile s' = driveFile s /\ world s' = world s.
Proof.
  intros sel new head t Hst Hidx Htmp Hdf Hlen Htag Hck Hp1 Hsel Hnew
    Hhsel Hhnew Hf Hcur Hcr.
  destruct (stat_request_run s frame f hsel hnew cur)
    as (resp & s' & R & H); try done.
  exists resp, s'. split; [done|]. tauto.
Qed.

(** The example server with drive 0 mounted and selected; STAT for drive
    0 with the head loaded, at track 5. *)
Lemma stat_request_witness :
  let s := set_driveSelected 0 Demo.mounted0 in
  let frame := Scenario.stat 256 5 in
  let f := {| isOpen := true; fileName := "a.dsk"; pos := 0 |} in
  let sel := driveSelected s in
  let new := u8 (Z.land (Cmd.param1 frame) 0xff) in
  let head := Z.shiftr (Cmd.param1 frame) 8 in
  let t := effective_track f (s16 (Cmd.param2 frame)) in
  exists resp s',
    readData frame s = Ok tt s' /\
    driveSelected s' = new /\
    headStatus s' = heads_after sel new head (headStatus s) /\
    curTrack s' = <[Z.to_nat new := u16 t]> (curTrack s) /\
    emitted s s' = select_events sel new head 0 0 t 0 ++ stat_events s resp /\
    stat_answer (set_cmdBuf frame s) resp /\
    statPkts s' = u16 (statPkts s + 1) /\ outPkts s' = u16 (outPkts s + 1) /\
    connected s' = true /\ tmpBufIdx s' = 0 /\ state s' = STATE_CMD /\
    driveFile s' = driveFile s /\ world s' = world s.
Proof.
  intros s frame f.
  apply (stat_request s frame f 0 0 0); by_eval.
Defined.

(** X17: polling is idempotent.  After such a STAT request for a track
    that is not negative as [qint16], the same request again emits no
    [headChanged], [driveChanged], [trackChanged] or [statusChanged]: only
    the response and the timer restart; the drive table stays as the
    first request left it. *)
Theorem stat_request_repeat s frame f hsel hnew cur s1 :
  let sel := driveSelected s in
  let new := u8 (Z.land (Cmd.param1 frame) 0xff) in
  let t := effective_track f (s16 (Cmd.param2 frame)) in
  state s = STATE_CMD -> tmpBufIdx s = 0 ->
  length (tmpBuf s) = Z.to_nat sizeof_trkbuf ->
  length (driveFile s) = Z.to_nat MAX_DRIVE ->
  length frame = 10%nat -> Cmd.command frame = Cmd.STAT ->
  Cmd.checksum frame = checkSum frame CMD_LEN ->
  0 <= Cmd.param1 frame < 65536 ->
  0 <= sel < MAX_DRIVE -> new < MAX_DRIVE ->
  headStatus s !! Z.to_nat sel = Some hsel ->
  headStatus s !! Z.to_nat new = Some hnew ->
  driveFile s !! Z.to_nat new = Some f ->
  curTrack s !! Z.to_nat new = Some cur ->
  0 <= cur < 65536 ->
  0 <= t ->
  readData frame s = Ok tt s1 ->
  exists resp s2,
    readData frame s1 = Ok tt s2 /\
    emitted s1 s2 = [SerialWrite resp; TimerStart FDC_TIMEOUT] /\
    stat_answer (set_cmdBuf frame s) resp /\
    driveSelected s2 = driveSelected s1 /\
    headStatus s2 = headStatus s1 /\
    curTrack s2 = curTrack s1 /\
    driveFile s2 = driveFile s1 /\ world s2 = world s1.
Proof.
  intros sel new t Hst Hidx Htmp Hdf Hlen Htag Hck Hp1 Hsel Hnew
    Hhsel Hhnew Hf Hcur Hcr Ht R.
  set (head := Z.shiftr (Cmd.param1 frame) 8).
  destruct (stat_request_run s frame f hsel hnew cur)
    as (resp1 & s1' & R1 & S1 & S2 & S3 & S4 & S5 & S6 & S7 & S8 & S9 & S10 & S11 & S12 & S13);
    try done.
  rewrite R in R1. injection R1 as <-.
  fold sel new head t in S1, S2, S3.
  assert (Hnew0 : 0 <= new) by (unfold new, u8; apply Z.mod_pos_bound; lia).
  pose proof (lookup_lt_Some _ _ _ Hhnew) as Ln.
  pose proof (lookup_lt_Some _ _ _ Hhsel) as Ls.
  pose proof (lookup_lt_Some _ _ _ Hcur) as Lc.
  assert (Hh1 : headStatus s1 !! Z.to_nat new = Some head).
  { rewrite S2. unfold heads_after. apply list_lookup_insert_eq.
    destruct (sel =? new); rewrite ?length_insert; lia. }
  assert (Hc1 : curTrack s1 !! Z.to_nat new = Some (u16 t))
    by (rewrite S3; by apply list_lookup_insert_eq).
  assert (Htr : t < 65536).
  { unfold t, effective_track. pose proof (s16_range (Cmd.param2 frame)).
    destruct (isOpen f); lia. }
  destruct (stat_request_run s1 frame f head head (u16 t))
    as (resp & s2 & R2 & T1 & T2 & T3 & T4 & T5 & T6 & T7 & T8 & T9 & T10 & T11 & T12 & T13);
    rewrite ?S1; fold new; try done.
  { congruence. }
  { by rewrite S11. }
  { by rewrite S11. }
  { apply u16_range. }
  rewrite S1 in T2, T4. fold new head t in T1, T2, T3, T4.
  exists resp, s2. split; [done|].
  split.
  { rewrite T4. unfold select_events, stat_events.
    rewrite S8, !Z.eqb_refl, (u16_small t), Z.eqb_refl by lia. reflexivity. }
  split.
  { destruct T5 as (A1 & A2 & A3 & A4 & A5). unfold stat_answer in *.
    revert A2 A4. psimpl. intros A2 A4. split_ands; try done.
    intros d. rewrite A4. apply mounted_ext. psimpl. done. }
  split; [by rewrite T1|].
  split.
  { rewrite T2. unfold heads_after. rewrite Z.eqb_refl. by apply list_insert_id. }
  split; [rewrite T3; by apply list_insert_id|].
  done.
Qed.

(** The same server and request, sent twice. *)
Lemma stat_request_repeat_witness :
  let s := set_driveSelected 0 Demo.mounted0 in
  let frame := Scenario.stat 256 5 in
  let s1 := Demo.after (readData frame) s in
  exists resp s2,
    readData frame s1 = Ok tt s2 /\
    emitted s1 s2 = [SerialWrite resp; TimerStart FDC_TIMEOUT] /\
    stat_answer (set_cmdBuf frame s) resp /\
    driveSelected s2 = driveSelected s1 /\
    headStatus s2 = headStatus s1 /\
    curTrack s2 = curTrack s1 /\
    driveFile s2 = driveFile s1 /\ world s2 = world s1.
Proof.
  intros s frame s1.
  apply (stat_request_repeat s frame
           {| isOpen := true; fileName := "a.dsk"; pos := 0 |} 0 0 0 s1); by_eval.
Defined.

(** ** READ *)

Lemma driveNum_of_range cmd :
  0 <= Cmd.param1 cmd < 65536 -> 0 <= driveNum_of cmd < 16.
Proof.
  intros H. unfold driveNum_of.
  assert (H' : 0 <= Z.shiftr (Cmd.param1 cmd) 12 < 16).
  { rewrite Z.shiftr_div_pow2 by lia.
    split; [apply Z.div_pos; lia | apply Z.div_lt_upper_bound; lia]. }
  unfold s8. rewrite Z.mod_small by lia.
  destruct (_ <? _) eqn:E; lia.
Qed.

(** A good READ frame at the start of a command: [readData] counts it and
    hands it to [readTrack]. *)
Lemma read_request_run s frame :
  state s = STATE_CMD -> tmpBufIdx s = 0 ->
  length (tmpBuf s) = Z.to_nat sizeof_trkbuf ->
  length frame = 10%nat -> Cmd.command frame = Cmd.READ ->
  Cmd.checksum frame = checkSum frame CMD_LEN ->
  readData frame s =
    (readTrack ≫= fun _ => modify (set_tmpBufIdx 0))
      (set_readPkts (u16 (readPkts s + 1))
         (set_cmdBuf frame
            (set_tmpBufIdx 10 (set_tmpBuf (blit (tmpBuf s) 0 frame) s)))).
Proof.
  intros Hst Hidx Htmp Hlen Htag Hck.
  rewrite (readData_cmd s frame Hst Hidx Htmp Hlen).
  rewrite bind_unfold, dispatch_read by done.
  rewrite bind_unfold. mcbn. rewrite !bind_unfold.
  by destruct (readTrack _).
Qed.

Lemma readTrack_in_range s f cur :
  let cmd := cmdBuf s in
  let d := driveNum_of cmd in
  let len := clamp_trackLen (trackLen_of cmd) in
  let t := effective_track f (trackNum_of cmd) in
  0 <= d < MAX_DRIVE ->
  driveFile s !! Z.to_nat d = Some f ->
  curTrack s !! Z.to_nat d = Some cur ->
  readTrack s =
    Ok false
      (read_done d len (File.read (world s) len (File.seek (t * len) f))
         (if t =? cur then s else track_recorded d t s)).
Proof.
  intros cmd d len t Hd Hf Hcur.
  unfold readTrack. mstep. fold cmd d len.
  destruct (MAX_DRIVE <=? d) eqn:E; [lia|].
  rewrite (bind_ok _ _ _ _ _ (updateTrack_in_range s d _ f cur Hd Hf Hcur)).
  fold t. set (s1 := if t =? cur then s else _).
  assert (H1 : driveFile s1 = driveFile s /\ world s1 = world s).
  { unfold s1, track_recorded. by destruct (t =? cur). }
  destruct H1 as (Hd1 & Hw1).
  rewrite (bind_ok _ _ _ f s1) by (apply drive_file_ok; [lia | by rewrite Hd1]).
  mstep. rewrite Hw1.
  destruct (File.read (world s) len (File.seek (t * len) f)) as [[n data] f'] eqn:Er.
  unfold set_drive_file.
  rewrite bind_unfold, assign_ok by (rewrite ?Hd1; first [lia | eauto]).
  repeat mstep. unfold read_done. cbn [fst snd]. psimpl.
  rewrite <- !app_assoc. cbn [app].
  by destruct (n =? len).
Qed.

(** X18: READ for a drive number of 4 or more.  A good READ frame whose
    drive nibble is at or above [MAX_DRIVE] is counted in [readPkts] and
    answered with nothing: the only signal is the error message; no byte
    is sent, the timer is not restarted, no file and no drive state
    changes, and the framer is back at the start of a command. *)
Theorem read_drive_out_of_range s frame :
  let d := driveNum_of frame in
  state s = STATE_CMD -> tmpBufIdx s = 0 ->
  length (tmpBuf s) = Z.to_nat sizeof_trkbuf ->
  length frame = 10%nat -> Cmd.command frame = Cmd.READ ->
  Cmd.checksum frame = checkSum frame CMD_LEN ->
  MAX_DRIVE <= d ->
  exists s',
    readData frame s = Ok tt s' /\
    emitted s s' = [ErrorMessage "READ" (DriveOutOfRange d)] /\
    readPkts s' = u16 (readPkts s + 1) /\ outPkts s' = outPkts s /\
    tmpBufIdx s' = 0 /\ state s' = STATE_CMD /\
    world s' = world s /\ driveFile s' = driveFile s /\
    curTrack s' = curTrack s /\ outBuf s' = outBuf s.
Proof.
  intros d Hst Hidx Htmp Hlen Htag Hck Hd.
  rewrite read_request_run by done.
  unfold readTrack. rewrite !bind_unfold. mcbn. fold d.
  destruct (MAX_DRIVE <=? d) eqn:E; [|lia].
  repeat mstep. unfold modify.
  eexists. split; [reflexivity|]. psimpl.
  split; [by apply emitted_app|]. by split_ands.
Qed.

(** READ for drive 4 on the example server. *)
Lemma read_drive_out_of_range_witness :
  let s := Demo.mounted0 in
  let frame := Demo.read (track_param 4 0) 137 in
  let d := driveNum_of frame in
  exists s',
    readData frame s = Ok tt s' /\
    emitted s s' = [ErrorMessage "READ" (DriveOutOfRange d)] /\
    readPkts s' = u16 (readPkts s + 1) /\ outPkts s' = outPkts s /\
    tmpBufIdx s' = 0 /\ state s' = STATE_CMD /\
    world s' = world s /\ driveFile s' = driveFile s /\
    curTrack s' = curTrack s /\ outBuf s' = outBuf s.
Proof.
  intros s frame.
  apply (read_drive_out_of_range s frame); by_eval.
Defined.

(** X19: READ for a drive that is not mounted.  The request is not
    refused: the server sends [trackLen] bytes of whatever [outBuf] held
    from the last transfer, followed by the checksum bytes [00 00], and
    restarts the timer; the track recorded for the drive is 0. *)
Theorem read_unmounted s frame f cur :
  let d := driveNum_of frame in
  let len := clamp_trackLen (trackLen_of frame) in
  state s = STATE_CMD -> tmpBufIdx s = 0 ->
  length (tmpBuf s) = Z.to_nat sizeof_trkbuf ->
  length frame = 10%nat -> Cmd.command frame = Cmd.READ ->
  Cmd.checksum frame = checkSum frame CMD_LEN ->
  0 <= d < MAX_DRIVE ->
  driveFile s !! Z.to_nat d = Some f -> isOpen f = false ->
  curTrack s !! Z.to_nat d = Some cur ->
  exists s',
    readData frame s = Ok tt s' /\
    sent (emitted s s') = take (Z.to_nat len) (outBuf s) ++ [0; 0] /\
    last (emitted s s') = Some (TimerStart FDC_TIMEOUT) /\
    curTrack s' !! Z.to_nat d = Some 0 /\
    outBuf s' = outBuf s /\ driveFile s' = driveFile s /\ world s' = world s /\
    outPkts s' = u16 (outPkts s + 1) /\ tmpBufIdx s' = 0 /\ state s' = STATE_CMD.
Proof.
  intros d len Hst Hidx Htmp Hlen Htag Hck Hd Hf Ho Hcur.
  pose proof (lookup_lt_Some _ _ _ Hcur) as Lc.
  rewrite read_request_run by done.
  set (s0 := set_readPkts _ _).
  rewrite bind_unfold, (readTrack_in_range s0 f cur) by done.
  unfold s0 at 1 2 3 4 5. psimpl. fold d len.
  assert (Er : forall p, File.read (world s) len (File.seek p f) = (-1, [], f)).
  { intros p. unfold File.seek. rewrite Ho. cbn [andb]. unfold File.read. by rewrite Ho. }
  rewrite Er. unfold effective_track. rewrite Ho.
  unfold modify, read_done. cbn [fst snd].
  eexists. split; [reflexivity|]. psimpl.
  change (-1 =? len) with (Z.eqb (-1) len).
  pose proof (clamp_trackLen_range _ (trackLen_of_range frame)) as Hl. fold len in Hl.
  destruct (Z.eqb (-1) len) eqn:E; [lia|].
  assert (Hb : forall out, blit out 0 [] = out).
  { intros out. unfold blit. by rewrite take_0, drop_0. }
  rewrite !Hb.
  destruct (0 =? cur) eqn:E0; unfold track_recorded, s0; psimpl.
  - split; [erewrite emitted_app by reflexivity; done|].
    split; [erewrite emitted_app by reflexivity; done|].
    split; [rewrite Hcur; f_equal; lia|].
    split; [done|]. split; [by apply list_insert_id|]. by split_ands.
  - split; [erewrite emitted_app by (rewrite <- app_assoc; reflexivity); done|].
    split; [erewrite emitted_app by (rewrite <- app_assoc; reflexivity); done|].
    split; [by apply list_lookup_insert_eq|].
    split; [done|]. split; [by apply list_insert_id|]. by split_ands.
Qed.

(** READ of 137 bytes from drive 1 of the example server, which is empty,
    after a READ from drive 0. *)
Lemma read_unmounted_witness :
  let s := Scenario.read_track1 in
  let frame := Demo.read (track_param 1 3) 137 in
  let d := driveNum_of frame in
  let len := clamp_trackLen (trackLen_of frame) in
  exists s',
    readData frame s = Ok tt s' /\
    sent (emitted s s') = take (Z.to_nat len) (outBuf s) ++ [0; 0] /\
    last (emitted s s') = Some (TimerStart FDC_TIMEOUT) /\
    curTrack s' !! Z.to_nat d = Some 0 /\
    outBuf s' = outBuf s /\ driveFile s' = driveFile s /\ world s' = world s /\
    outPkts s' = u16 (outPkts s + 1) /\ tmpBufIdx s' = 0 /\ state s' = STATE_CMD.
Proof.
  intros s frame.
  apply (read_unmounted s frame File.closed 0); by_eval.
Defined.

(** X20: READ of a track the file holds.  For a mounted drive whose file
    reaches to the end of the track asked for, the server sends the
    [trackLen] bytes found at offset [track * trackLen] of the file,
    followed by their sum modulo 65536, low byte first, and restarts the
    timer; the file contents stay, the track is recorded, and the framer
    is back at the start of a command. *)
Theorem read_track s frame c cur :
  let d := driveNum_of frame in
  let t := trackNum_of frame in
  let len := clamp_trackLen (trackLen_of frame) in
  let data := take (Z.to_nat len) (drop (Z.to_nat (t * len)) c) in
  state s = STATE_CMD -> tmpBufIdx s = 0 ->
  length (tmpBuf s) = Z.to_nat sizeof_trkbuf ->
  length frame = 10%nat -> Cmd.command frame = Cmd.READ ->
  Cmd.checksum frame = checkSum frame CMD_LEN ->
  d < MAX_DRIVE ->
  backing s d = Some c ->
  curTrack s !! Z.to_nat d = Some cur ->
  (t + 1) * len <= Z.of_nat (length c) ->
  exists s',
    readData frame s = Ok tt s' /\
    sent (emitted s s') = data ++ bytes16 (sum_bytes data mod 65536) /\
    Z.of_nat (length data) = len /\
    last (emitted s s') = Some (TimerStart FDC_TIMEOUT) /\
    backing s' d = Some c /\ world s' = world s /\
    curTrack s' !! Z.to_nat d = Some t /\
    readPkts s' = u16 (readPkts s + 1) /\ outPkts s' = u16 (outPkts s + 1) /\
    tmpBufIdx s' = 0 /\ state s' = STATE_CMD.
Proof.
  intros d t len data Hst Hidx Htmp Hlen Htag Hck Hd Hb Hcur Hfit.
  apply backing_file in Hb as (Hd0 & f & Hf & Ho & Hc).
  pose proof (lookup_lt_Some _ _ _ Hcur) as Lc.
  pose proof (lookup_lt_Some _ _ _ Hf) as Lf.
  pose proof (trackNum_of_range frame) as Ht. fold t in Ht.
  pose proof (clamp_trackLen_range _ (trackLen_of_range frame)) as Hl. fold len in Hl.
  assert (Hdata : Z.of_nat (length data) = len).
  { unfold data. rewrite length_take, length_drop. nia. }
  rewrite read_request_run by done.
  set (s0 := set_readPkts _ _).
  rewrite bind_unfold, (readTrack_in_range s0 f cur) by (unfold s0; psimpl; done || lia).
  change (cmdBuf s0) with frame. change (world s0) with (world s). fold d t len.
  unfold effective_track. rewrite Ho.
  assert (Er : File.read (world s) len (File.seek (t * len) f) =
               (len, data, {| isOpen := true; fileName := fileName f;
                              pos := t * len + len |})).
  { unfold File.seek. rewrite Ho. cbn [andb].
    destruct (0 <=? t * len) eqn:E; [|nia].
    unfold File.read. cbn [isOpen fileName pos]. rewrite Hc. fold data.
    by rewrite Hdata. }
  rewrite Er. unfold modify, read_done. cbn [fst snd].
  rewrite Z.eqb_refl.
  set (s1 := if t =? cur then s0 else _).
  assert (H1 : trace s1 = trace s ++ (if t =? cur then [] else [TrackChanged (u8 d) (u16 t)]) /\
               outBuf s1 = outBuf s /\ driveFile s1 = driveFile s /\
               world s1 = world s /\ curTrack s1 !! Z.to_nat d = Some t /\
               readPkts s1 = u16 (readPkts s + 1) /\ outPkts s1 = outPkts s /\
               state s1 = state s).
  { unfold s1, track_recorded, s0. destruct (t =? cur) eqn:E; psimpl.
    - rewrite app_nil_r. split_ands; try done. rewrite Hcur. f_equal. lia.
    - split_ands; try done. rewrite u16_small by lia. by apply list_lookup_insert_eq. }
  destruct H1 as (T1 & T2 & T3 & T4 & T5 & T6 & T7 & T8).
  eexists. split; [reflexivity|]. psimpl.
  set (out := blit (outBuf s1) 0 data).
  assert (Hout : take (Z.to_nat len) out = data).
  { unfold out. apply take_blit0. lia. }
  assert (Hsum : checkSum out (u16 len) = sum_bytes data mod 65536).
  { rewrite u16_small by (unfold sizeof_trkbuf, TRKBUF_SIZE, CRC_LEN in Hl; lia).
    unfold out, blit. rewrite take_0, app_nil_l, <- Hdata.
    rewrite checkSum_app. apply checkSum_whole. }
  rewrite Hout, Hsum.
  split.
  { erewrite emitted_app by (psimpl; rewrite T1, <- app_assoc; reflexivity).
    unfold sent. rewrite flat_map_app. cbn [flat_map]. rewrite app_nil_r.
    destruct (t =? cur); [done|]. cbn [flat_map app]. done. }
  split; [done|].
  split.
  { erewrite emitted_app by (psimpl; rewrite T1, <- app_assoc; reflexivity).
    change [SerialWrite data; SerialWrite (bytes16 (sum_bytes data mod 65536));
            TimerStart FDC_TIMEOUT]
      with ([SerialWrite data; SerialWrite (bytes16 (sum_bytes data mod 65536))] ++
            [TimerStart FDC_TIMEOUT]).
    rewrite app_assoc. apply last_snoc. }
  split.
  { unfold backing. psimpl. destruct (0 <=? d) eqn:E; [|lia].
    rewrite T3, list_lookup_insert_eq by done. cbn [isOpen fileName].
    by rewrite T4. }
  rewrite T4, T6, T7, T8. split_ands; try done.
Qed.

(** Drive 1 of the second example server holds ten bytes; READ of track
    1 with five bytes to the track. *)
Lemma read_track_witness :
  let s := Scenario.short_mounted in
  let frame := Demo.read (track_param 1 1) 5 in
  let c := [10; 11; 12; 13; 14; 15; 16; 17; 18; 19] in
  let d := driveNum_of frame in
  let t := trackNum_of frame in
  let len := clamp_trackLen (trackLen_of frame) in
  let data := take (Z.to_nat len) (drop (Z.to_nat (t * len)) c) in
  exists s',
    readData frame s = Ok tt s' /\
    sent (emitted s s') = data ++ bytes16 (sum_bytes data mod 65536) /\
    Z.of_nat (length data) = len /\
    last (emitted s s') = Some (TimerStart FDC_TIMEOUT) /\
    backing s' d = Some c /\ world s' = world s /\
    curTrack s' !! Z.to_nat d = Some t /\
    readPkts s' = u16 (readPkts s + 1) /\ outPkts s' = u16 (outPkts s + 1) /\
    tmpBufIdx s' = 0 /\ state s' = STATE_CMD.
Proof.
  intros s frame c.
  apply (read_track s frame c 0); by_eval.
Defined.

(** ** WRIT *)

(** A good WRIT frame at the start of a command: [readData] hands it to
    [writeResponse], counts it and waits for the payload. *)
Lemma writ_request_run s frame :
  state s = STATE_CMD -> tmpBufIdx s = 0 ->
  length (tmpBuf s) = Z.to_nat sizeof_trkbuf ->
  length frame = 10%nat -> Cmd.command frame = Cmd.WRIT ->
  Cmd.checksum frame = checkSum frame CMD_LEN ->
  readData frame s =
    (writeResponse ≫= fun _ =>
     modify (fun s' =>
       set_tmpBufIdx 0 (set_state STATE_WRIT
         (set_writePkts (u16 (writePkts s' + 1)) s'))))
      (set_cmdBuf frame
         (set_tmpBufIdx 10 (set_tmpBuf (blit (tmpBuf s) 0 frame) s))).
Proof.
  intros Hst Hidx Htmp Hlen Htag Hck.
  rewrite (readData_cmd s frame Hst Hidx Htmp Hlen).
  rewrite bind_unfold, dispatch_writ by done.
  rewrite !bind_unfold.
  by destruct (writeResponse _).
Qed.

(** X21: the answer to WRIT.  For a drive in range the server answers a
    good WRIT frame at once with the request's first eight bytes, the
    response code in place of [param1] ([STAT_OK] when the drive is
    mounted, [STAT_NOT_READY] when it is not) and a fresh checksum, and
    restarts the timer.  In both cases it then waits for the payload: the
    request stays in [cmdBuf] and the framer is in [STATE_WRIT].  No file
    is touched and [outPkts] is not counted. *)
Theorem writ_request s frame f :
  let d := driveNum_of frame in
  state s = STATE_CMD -> tmpBufIdx s = 0 ->
  length (tmpBuf s) = Z.to_nat sizeof_trkbuf ->
  (10 <= length (outBuf s))%nat ->
  length frame = 10%nat -> Cmd.command frame = Cmd.WRIT ->
  Cmd.checksum frame = checkSum frame CMD_LEN ->
  0 <= d < MAX_DRIVE ->
  driveFile s !! Z.to_nat d = Some f ->
  exists resp s',
    readData frame s = Ok tt s' /\
    emitted s s' = [SerialWrite resp; TimerStart FDC_TIMEOUT] /\
    length resp = 10%nat /\
    Cmd.command resp = Cmd.WRIT /\
    Cmd.rcode resp = (if isOpen f then STAT_OK else STAT_NOT_READY) /\
    Cmd.param2 resp = Cmd.param2 frame /\
    Cmd.checksum resp = checkSum resp CMD_LEN /\
    state s' = STATE_WRIT /\ tmpBufIdx s' = 0 /\ cmdBuf s' = frame /\
    writePkts s' = u16 (writePkts s + 1) /\ outPkts s' = outPkts s /\
    world s' = world s /\ driveFile s' = driveFile s /\ curTrack s' = curTrack s.
Proof.
  intros d Hst Hidx Htmp Hout Hlen Htag Hck Hd Hf.
  rewrite writ_request_run by done.
  set (s0 := set_cmdBuf frame _).
  destruct (list10 _ Hlen) as (b0&b1&b2&b3&b4&b5&b6&b7&b8&b9&Ef).
  assert (exists o0 o1 o2 o3 o4 o5 o6 o7 o8 o9 rest,
            outBuf s = o0 :: o1 :: o2 :: o3 :: o4 :: o5 :: o6 :: o7 :: o8 :: o9 :: rest)
    as (o0&o1&o2&o3&o4&o5&o6&o7&o8&o9&rest&Eo).
  { destruct (outBuf s) as [|o0 [|o1 [|o2 [|o3 [|o4 [|o5 [|o6 [|o7 [|o8 [|o9 rest]]]]]]]]]];
      cbn in Hout; try lia. by repeat eexists. }
  unfold writeResponse. rewrite !bind_unfold. mcbn.
  change (cmdBuf s0) with frame. fold d.
  destruct (MAX_DRIVE <=? d) eqn:E; [lia|].
  mstep.
  erewrite bind_ok; [|apply drive_file_ok; [lia | exact Hf]].
  repeat mstep. unfold modify. psimpl.
  change (outBuf s0) with (outBuf s). rewrite Eo.
  change (Z.to_nat CMD_LEN) with 8%nat. change (Z.to_nat CMDBUF_SIZE) with 10%nat.
  set (rc := if isOpen f then STAT_OK else STAT_NOT_READY).
  assert (Hrc : 0 <= rc < 65536) by (unfold rc; destruct (isOpen f); by vm_compute).
  subst frame.
  cbn -[checkSum le16 lo8 hi8 rc] in *.
  match goal with |- context [SerialWrite ?r] => set (resp := r) end.
  eexists resp, _. split; [reflexivity|]. psimpl.
  split; [apply emitted_app; psimpl; by rewrite <- app_assoc|].
  split; [done|]. split; [by injection Htag as -> -> -> ->|].
  split; [unfold Cmd.rcode, Cmd.param1, Cmd.word_at; cbn -[le16 lo8 hi8 rc];
          by apply le16_bytes16|].
  split; [done|].
  split.
  { unfold Cmd.checksum, Cmd.word_at. cbn -[checkSum le16 lo8 hi8 rc].
    rewrite le16_bytes16 by apply checkSum_range. reflexivity. }
  by split_ands.
Qed.

(** WRIT for drive 1 of the example server, which is empty: the answer is
    [STAT_NOT_READY] and the server waits for the payload all the same. *)
Lemma writ_request_witness :
  let s := Demo.mounted0 in
  let frame := Demo.writ (track_param 1 0) 137 in
  let f := File.closed in
  exists resp s',
    readData frame s = Ok tt s' /\
    emitted s s' = [SerialWrite resp; TimerStart FDC_TIMEOUT] /\
    length resp = 10%nat /\
    Cmd.command resp = Cmd.WRIT /\
    Cmd.rcode resp = (if isOpen f then STAT_OK else STAT_NOT_READY) /\
    Cmd.param2 resp = Cmd.param2 frame /\
    Cmd.checksum resp = checkSum resp CMD_LEN /\
    state s' = STATE_WRIT /\ tmpBufIdx s' = 0 /\ cmdBuf s' = frame /\
    writePkts s' = u16 (writePkts s + 1) /\ outPkts s' = outPkts s /\
    world s' = world s /\ driveFile s' = driveFile s /\ curTrack s' = curTrack s.
Proof.
  intros s frame f.
  apply (writ_request s frame f); try by_eval.
  vm_compute. lia.
Defined.

(** X22: WRIT for a drive number of 4 or more.  The command is not
    answered: the only signal is the error message, no byte is sent and
    the timer is not restarted.  All the same the request is counted and
    the framer enters [STATE_WRIT], where it takes the next bytes as
    payload. *)
Theorem writ_drive_out_of_range s frame :
  let d := driveNum_of frame in
  state s = STATE_CMD -> tmpBufIdx s = 0 ->
  length (tmpBuf s) = Z.to_nat sizeof_trkbuf ->
  length frame = 10%nat -> Cmd.command frame = Cmd.WRIT ->
  Cmd.checksum frame = checkSum frame CMD_LEN ->
  MAX_DRIVE <= d ->
  exists s',
    readData frame s = Ok tt s' /\
    emitted s s' = [ErrorMessage "WRIT" (DriveOutOfRange d)] /\
    state s' = STATE_WRIT /\ tmpBufIdx s' = 0 /\ cmdBuf s' = frame /\
    writePkts s' = u16 (writePkts s + 1) /\ outPkts s' = outPkts s /\
    outBuf s' = outBuf s /\ world s' = world s /\ driveFile s' = driveFile s.
Proof.
  intros d Hst Hidx Htmp Hlen Htag Hck Hd.
  rewrite writ_request_run by done.
  unfold writeResponse. rewrite !bind_unfold. mcbn. fold d.
  destruct (MAX_DRIVE <=? d) eqn:E; [|lia].
  repeat mstep. unfold modify.
  eexists. split; [reflexivity|]. psimpl.
  split; [by apply emitted_app|]. by split_ands.
Qed.

(** WRIT for drive 4 on the example server. *)
Lemma writ_drive_out_of_range_witness :
  let s := Demo.mounted0 in
  let frame := Demo.writ (track_param 4 0) 137 in
  let d := driveNum_of frame in
  exists s',
    readData frame s = Ok tt s' /\
    emitted s s' = [ErrorMessage "WRIT" (DriveOutOfRange d)] /\
    state s' = STATE_WRIT /\ tmpBufIdx s' = 0 /\ cmdBuf s' = frame /\
    writePkts s' = u16 (writePkts s + 1) /\ outPkts s' = outPkts s /\
    outBuf s' = outBuf s /\ world s' = world s /\ driveFile s' = driveFile s.
Proof.
  intros s frame.
  apply (writ_drive_out_of_range s frame); by_eval.
Defined.

(** A burst that fills the payload buffer from empty starts [writeTrack]. *)
Lemma payload_burst_run s payload :
  state s = STATE_WRIT -> tmpBufIdx s = 0 ->
  length (tmpBuf s) = Z.to_nat sizeof_trkbuf ->
  length payload = Z.to_nat sizeof_trkbuf ->
  readData payload s =
    (writeTrack ≫= fun _ =>
       modify (set_tmpBufIdx 0) ≫= fun _ => modify (set_state STATE_CMD))
      (set_inBuf payload (set_tmpBufIdx sizeof_trkbuf (set_tmpBuf payload s))).
Proof.
  intros Hst Hidx Htmp Hlen.
  apply (readData_payload_at s [] payload); try done.
  intros ->. discriminate Hlen.
Qed.

Lemma trailer_ok (buf : list Z) len s :
  length buf = Z.to_nat sizeof_trkbuf -> 0 <= len <= TRKBUF_SIZE ->
  exists lo hi,
    index "inBuf" buf len s = Ok lo s /\ index "inBuf" buf (len + 1) s = Ok hi s.
Proof.
  intros Hbuf Hlen.
  assert (Hsz : Z.of_nat (length buf) = 4386) by (rewrite Hbuf; reflexivity).
  unfold TRKBUF_SIZE in Hlen.
  destruct (lookup_lt_is_Some_2 buf (Z.to_nat len)) as [lo Hlo]; [lia|].
  destruct (lookup_lt_is_Some_2 buf (Z.to_nat (len + 1))) as [hi Hhi]; [lia|].
  exists lo, hi. split; apply index_ok; first [lia | done].
Qed.

(** X23: the payload for a drive that is not mounted.  When the buffer
    fills after a WRIT for a drive in range that is not mounted, the
    server answers WSTA with [STAT_NOT_READY] whether or not the payload's
    checksum holds: [crcErrs] stays, no file changes, and the timer is not
    restarted.  The framer is back at the start of a command. *)
Theorem write_not_ready s payload f :
  let cmd := cmdBuf s in
  let d := driveNum_of cmd in
  state s = STATE_WRIT -> tmpBufIdx s = 0 ->
  length (tmpBuf s) = Z.to_nat sizeof_trkbuf ->
  length payload = Z.to_nat sizeof_trkbuf ->
  length cmd = 10%nat ->
  0 <= trackLen_of cmd <= TRKBUF_SIZE ->
  0 <= d < MAX_DRIVE ->
  driveFile s !! Z.to_nat d = Some f -> isOpen f = false ->
  exists s',
    readData payload s = Ok tt s' /\
    emitted s s' = [SerialWrite (wsta_of STAT_NOT_READY cmd)] /\
    crcErrs s' = crcErrs s /\ world s' = world s /\
    driveFile s' = driveFile s /\ curTrack s' = curTrack s /\
    outPkts s' = u16 (outPkts s + 1) /\
    state s' = STATE_CMD /\ tmpBufIdx s' = 0.
Proof.
  intros cmd d Hst Hidx Htmp Hlen Hcmd Htl Hd Hf Ho.
  rewrite payload_burst_run by done.
  set (s0 := set_inBuf payload _).
  unfold writeTrack. rewrite bind_unfold. do 2 mstep.
  change (cmdBuf s0) with cmd. change (inBuf s0) with payload. fold d.
  destruct (trailer_ok payload (trackLen_of cmd) s0 Hlen Htl) as (lo & hi & Hlo & Hhi).
  rewrite bind_unfold, Hlo, bind_unfold, Hhi.
  destruct (MAX_DRIVE <=? d) eqn:E; [lia|].
  rewrite !bind_unfold.
  rewrite (drive_file_ok d f s0) by (first [lia | exact Hf]).
  rewrite Ho. cbn [negb]. repeat mstep. unfold modify, mret, M_ret.
  change (cmdBuf s0) with cmd.
  fold (wsta_of STAT_NOT_READY cmd).
  destruct (wsta_of_frame STAT_NOT_READY cmd Hcmd) as (W1 & _); [by vm_compute|].
  change (Z.to_nat CMDBUF_SIZE) with 10%nat.
  rewrite (take_ge (wsta_of STAT_NOT_READY cmd)) by lia.
  rewrite take_blit0 by done.
  eexists. split; [reflexivity|]. psimpl.
  split; [by apply emitted_app|]. by split_ands.
Qed.

(** The payload after a WRIT for drive 1 of the example server, which is
    empty. *)
Lemma write_not_ready_witness :
  let s := Demo.after (readData (Demo.writ (track_param 1 0) 137)) Demo.mounted0 in
  let payload := zeros (Z.to_nat sizeof_trkbuf) in
  let cmd := cmdBuf s in
  exists s',
    readData payload s = Ok tt s' /\
    emitted s s' = [SerialWrite (wsta_of STAT_NOT_READY cmd)] /\
    crcErrs s' = crcErrs s /\ world s' = world s /\
    driveFile s' = driveFile s /\ curTrack s' = curTrack s /\
    outPkts s' = u16 (outPkts s + 1) /\
    state s' = STATE_CMD /\ tmpBufIdx s' = 0.
Proof.
  intros s payload.
  apply (write_not_ready s payload File.closed); by_eval.
Defined.

(** X24: the payload for a drive number of 4 or more.  When the buffer
    fills after such a WRIT, [writeTrack] reads the trailer, emits the
    error message and returns: no WSTA frame is sent, so the controller
    gets no answer to either half of the command; no file changes and the
    framer is back at the start of a command. *)
Theorem write_payload_drive_out_of_range s payload :
  let cmd := cmdBuf s in
  let d := driveNum_of cmd in
  state s = STATE_WRIT -> tmpBufIdx s = 0 ->
  length (tmpBuf s) = Z.to_nat sizeof_trkbuf ->
  length payload = Z.to_nat sizeof_trkbuf ->
  0 <= trackLen_of cmd <= TRKBUF_SIZE ->
  MAX_DRIVE <= d ->
  exists s',
    readData payload s = Ok tt s' /\
    emitted s s' = [ErrorMessage "WRIT" (DriveOutOfRange d)] /\
    cmdBuf s' = cmd /\ outBuf s' = outBuf s /\ outPkts s' = outPkts s /\
    crcErrs s' = crcErrs s /\ world s' = world s /\ driveFile s' = driveFile s /\
    state s' = STATE_CMD /\ tmpBufIdx s' = 0.
Proof.
  intros cmd d Hst Hidx Htmp Hlen Htl Hd.
  rewrite payload_burst_run by done.
  set (s0 := set_inBuf payload _).
  unfold writeTrack. rewrite bind_unfold. do 2 mstep.
  change (cmdBuf s0) with cmd. change (inBuf s0) with payload. fold d.
  destruct (trailer_ok payload (trackLen_of cmd) s0 Hlen Htl) as (lo & hi & Hlo & Hhi).
  rewrite bind_unfold, Hlo, bind_unfold, Hhi.
  destruct (MAX_DRIVE <=? d) eqn:E; [|lia].
  repeat mstep. unfold modify.
  eexists. split; [reflexivity|]. psimpl.
  split; [by apply emitted_app|]. by split_ands.
Qed.

(** The payload after the WRIT for drive 4 on the example server. *)
Lemma write_payload_drive_out_of_range_witness :
  let s := Demo.after (readData (Demo.writ (track_param 4 0) 137)) Demo.mounted0 in
  let payload := zeros (Z.to_nat sizeof_trkbuf) in
  let cmd := cmdBuf s in
  let d := driveNum_of cmd in
  exists s',
    readData payload s = Ok tt s' /\
    emitted s s' = [ErrorMessage "WRIT" (DriveOutOfRange d)] /\
    cmdBuf s' = cmd /\ outBuf s' = outBuf s /\ outPkts s' = outPkts s /\
    crcErrs s' = crcErrs s /\ world s' = world s /\ driveFile s' = driveFile s /\
    state s' = STATE_CMD /\ tmpBufIdx s' = 0.
Proof.
  intros s payload.
  apply (write_payload_drive_out_of_range s payload); by_eval.
Defined.

(** ** Framer *)

Lemma u64_room i :
  0 <= i <= sizeof_trkbuf -> u64 (sizeof_trkbuf - i) = sizeof_trkbuf - i.
Proof.
  unfold u64, sizeof_trkbuf, TRKBUF_SIZE, CRC_LEN. intros H.
  apply Z.mod_small. lia.
Qed.

(** X25: a ten-byte frame that is not a command.  A frame whose checksum
    does not hold is counted in [crcErrs]; a frame with a good checksum
    and a tag other than STAT, READ and WRIT (WSTA, say) is not counted at
    all.  Either way it is dropped without a word: nothing is sent, no
    signal is emitted, the timer is not restarted, and the framer is back
    at the start of a command. *)
Theorem frame_dropped s frame :
  let good := Cmd.checksum frame =? checkSum frame CMD_LEN in
  state s = STATE_CMD -> tmpBufIdx s = 0 ->
  length (tmpBuf s) = Z.to_nat sizeof_trkbuf ->
  length frame = 10%nat ->
  (good = true ->
   Cmd.command frame <> Cmd.STAT /\ Cmd.command frame <> Cmd.READ /\
   Cmd.command frame <> Cmd.WRIT) ->
  exists s',
    readData frame s = Ok tt s' /\
    emitted s s' = [] /\
    crcErrs s' = (if good then crcErrs s else u16 (crcErrs s + 1)) /\
    statPkts s' = statPkts s /\ readPkts s' = readPkts s /\
    writePkts s' = writePkts s /\ outPkts s' = outPkts s /\
    state s' = STATE_CMD /\ tmpBufIdx s' = 0 /\
    world s' = world s /\ driveFile s' = driveFile s /\
    curTrack s' = curTrack s /\ headStatus s' = headStatus s /\
    driveSelected s' = driveSelected s /\ connected s' = connected s.
Proof.
  intros good Hst Hidx Htmp Hlen Hbad.
  rewrite (readData_cmd s frame Hst Hidx Htmp Hlen).
  rewrite bind_unfold. unfold dispatch. mstep. fold good.
  destruct good eqn:Eg.
  - destruct (Hbad eq_refl) as (N1 & N2 & N3).
    unfold Cmd.is_tag.
    rewrite !bool_decide_eq_false_2 by done.
    mcbn. unfold modify, mret, M_ret.
    eexists. split; [reflexivity|]. psimpl.
    split; [apply emitted_app; psimpl; by rewrite app_nil_r|]. rewrite Hst. by split_ands.
  - mcbn. unfold modify.
    eexists. split; [reflexivity|]. psimpl.
    split; [apply emitted_app; psimpl; by rewrite app_nil_r|]. rewrite Hst. by split_ands.
Qed.

(** A WSTA frame sent to the server. *)
Lemma frame_dropped_witness :
  let s := Demo.mounted0 in
  let frame := Cmd.frame Cmd.WSTA 0 137 in
  let good := Cmd.checksum frame =? checkSum frame CMD_LEN in
  exists s',
    readData frame s = Ok tt s' /\
    emitted s s' = [] /\
    crcErrs s' = (if good then crcErrs s else u16 (crcErrs s + 1)) /\
    statPkts s' = statPkts s /\ readPkts s' = readPkts s /\
    writePkts s' = writePkts s /\ outPkts s' = outPkts s /\
    state s' = STATE_CMD /\ tmpBufIdx s' = 0 /\
    world s' = world s /\ driveFile s' = driveFile s /\
    curTrack s' = curTrack s /\ headStatus s' = headStatus s /\
    driveSelected s' = driveSelected s /\ connected s' = connected s.
Proof.
  intros s frame.
  apply (frame_dropped s frame); try by_eval.
  intros _. vm_compute. repeat split; discriminate.
Defined.

(** X26: the overflow guard.  When the port holds more bytes than
    [tmpBuf] has room for, [readData] reads none of them: it clears the
    port, sets the fill count back to 0 and emits the error message.  The
    framer state is not reset: in [STATE_WRIT] the server goes on waiting
    for a full payload buffer. *)
Theorem readData_overflow s avail :
  0 <= tmpBufIdx s <= sizeof_trkbuf ->
  sizeof_trkbuf - tmpBufIdx s < Z.of_nat (length avail) ->
  exists s',
    readData avail s = Ok tt s' /\
    emitted s s' = [SerialClear; ErrorMessage "readData" TmpBufFull] /\
    tmpBufIdx s' = 0 /\ state s' = state s /\
    tmpBuf s' = tmpBuf s /\ cmdBuf s' = cmdBuf s /\ inBuf s' = inBuf s /\
    crcErrs s' = crcErrs s /\ world s' = world s /\ driveFile s' = driveFile s.
Proof.
  intros Hidx Hbig. unfold readData. mstep.
  rewrite u64_room by done.
  destruct (_ <=? _) eqn:E; [lia|].
  repeat mstep. unfold modify.
  eexists. split; [reflexivity|]. psimpl.
  split; [apply emitted_app; psimpl; by rewrite <- app_assoc|]. by split_ands.
Qed.

(** Three bytes of payload are missing when 4 more arrive. *)
Lemma readData_overflow_witness :
  let s := set_tmpBufIdx (sizeof_trkbuf - 3) Demo.writing in
  let avail := [1; 2; 3; 4] in
  exists s',
    readData avail s = Ok tt s' /\
    emitted s s' = [SerialClear; ErrorMessage "readData" TmpBufFull] /\
    tmpBufIdx s' = 0 /\ state s' = state s /\
    tmpBuf s' = tmpBuf s /\ cmdBuf s' = cmdBuf s /\ inBuf s' = inBuf s /\
    crcErrs s' = crcErrs s /\ world s' = world s /\ driveFile s' = driveFile s.
Proof.
  intros s avail.
  apply (readData_overflow s avail); by_eval.
Defined.

(** In the command state a burst that does not bring the fill count to
    exactly [CMDBUF_SIZE] is stored and counted, nothing more. *)
Lemma readData_cmd_waits s avail :
  state s = STATE_CMD ->
  0 <= tmpBufIdx s ->
  tmpBufIdx s + Z.of_nat (length avail) <= sizeof_trkbuf ->
  tmpBufIdx s + Z.of_nat (length avail) <> CMDBUF_SIZE ->
  exists s',
    readData avail s = Ok tt s' /\
    s' = set_tmpBufIdx (tmpBufIdx s + Z.of_nat (length avail))
           (set_tmpBuf (blit (tmpBuf s) (Z.to_nat (tmpBufIdx s)) avail) s).
Proof.
  intros Hst Hidx Hroom Hne.
  unfold readData. mstep.
  rewrite u64_room by lia.
  destruct (_ <=? _) eqn:E1; [|lia].
  mstep.
  destruct ((0 <=? tmpBufIdx s) &&
            (tmpBufIdx s + Z.of_nat (length avail) <=? sizeof_trkbuf)) eqn:E2; [|lia].
  rewrite bind_unfold. mcbn. rewrite bind_unfold, when_unfold.
  destruct (Z.of_nat (length avail) =? 0) eqn:E3; cbn [negb]; mcbn.
  - do 2 mstep. rewrite Hst. change (STATE_CMD =? STATE_CMD) with true. cbv iota.
    rewrite when_unfold.
    destruct (tmpBufIdx s =? CMDBUF_SIZE) eqn:E4; [lia|].
    eexists. split; [reflexivity|].
    apply Z.eqb_eq in E3. rewrite E3, Z.add_0_r. by destruct s.
  - do 2 mstep. rewrite Hst. change (STATE_CMD =? STATE_CMD) with true. cbv iota.
    rewrite when_unfold.
    destruct (_ =? CMDBUF_SIZE) eqn:E4; [lia|].
    eexists. split; reflexivity.
Qed.

(** The piece that completes the frame dispatches it. *)
Lemma readData_cmd_at s pre last :
  state s = STATE_CMD ->
  tmpBufIdx s = Z.of_nat (length pre) ->
  take (length pre) (tmpBuf s) = pre ->
  length (tmpBuf s) = Z.to_nat sizeof_trkbuf ->
  length (pre ++ last) = 10%nat ->
  last <> [] ->
  readData last s =
    (dispatch ≫= fun _ => modify (set_tmpBufIdx 0))
      (set_cmdBuf (pre ++ last)
         (set_tmpBufIdx 10
            (set_tmpBuf (blit (tmpBuf s) (length pre) last) s))).
Proof.
  intros Hst Hidx Hpre Htmp Hlen Hne.
  assert (Hpos : 0 < Z.of_nat (length last)) by (destruct last; [done | cbn; lia]).
  rewrite length_app in Hlen.
  assert (Hsz : sizeof_trkbuf = 4386) by reflexivity.
  assert (Hn : Z.to_nat sizeof_trkbuf = 4386%nat) by (rewrite Hsz; lia).
  unfold readData. mstep. rewrite Hidx.
  rewrite u64_room by lia.
  destruct (_ <=? _) eqn:E1; [|lia].
  mstep.
  destruct ((0 <=? Z.of_nat (length pre)) &&
            (Z.of_nat (length pre) + Z.of_nat (length last) <=? sizeof_trkbuf)) eqn:E2;
    [|lia].
  rewrite bind_unfold. mcbn. rewrite bind_unfold, when_unfold.
  destruct (Z.of_nat (length last) =? 0) eqn:E3; [lia|]. cbn [negb]. mcbn.
  do 2 mstep. rewrite Hst. change (STATE_CMD =? STATE_CMD) with true. cbv iota.
  rewrite when_unfold.
  replace (Z.of_nat (length pre) + Z.of_nat (length last)) with 10 by lia.
  change (10 =? CMDBUF_SIZE) with true. cbv iota.
  rewrite bind_unfold. mcbn. rewrite bind_unfold. mcbn.
  rewrite Nat2Z.id. change (Z.to_nat CMDBUF_SIZE) with 10%nat.
  assert (E : take 10 (blit (tmpBuf s) (length pre) last) = pre ++ last).
  { unfold blit. rewrite Hpre, app_assoc.
    rewrite take_app_length'; [done|]. rewrite length_app. lia. }
  by rewrite E.
Qed.

Lemma blit_blit t a b :
  (length a + length b <= length t)%nat ->
  blit (blit t 0 a) (length a) b = blit t 0 (a ++ b).
Proof.
  intros H. unfold blit. rewrite !take_0, !app_nil_l.
  rewrite take_app_length, <- app_assoc. f_equal. f_equal.
  rewrite drop_app_ge by lia. rewrite drop_drop, length_app. f_equal. lia.
Qed.

(** Pieces that add up to one frame dispatch it exactly as the frame
    delivered at once. *)
Lemma feed_cmd chunks : forall s0 s pre,
  state s0 = STATE_CMD -> tmpBufIdx s0 = 0 ->
  length (tmpBuf s0) = Z.to_nat sizeof_trkbuf ->
  s = (if decide (pre = []) then s0
       else set_tmpBufIdx (Z.of_nat (length pre)) (set_tmpBuf (blit (tmpBuf s0) 0 pre) s0)) ->
  length (pre ++ concat chunks) = 10%nat ->
  Forall (fun c => c <> []) chunks ->
  chunks <> [] ->
  feed chunks s = readData (pre ++ concat chunks) s0.
Proof.
  assert (Hn : Z.to_nat sizeof_trkbuf = 4386%nat) by reflexivity.
  induction chunks as [|c rest IH]; intros s0 s pre Hst Hidx Htmp Hs Hlen Hall Hne; [done|].
  apply Forall_cons in Hall as [Hc Hrest].
  assert (Hs' : state s = STATE_CMD /\ tmpBufIdx s = Z.of_nat (length pre) /\
                take (length pre) (tmpBuf s) = pre /\
                length (tmpBuf s) = Z.to_nat sizeof_trkbuf /\
                blit (tmpBuf s0) 0 pre = tmpBuf s).
  { subst s. rewrite length_app in Hlen. destruct (decide (pre = [])) as [-> | Hp]; psimpl.
    - split_ands; try done; unfold blit; by rewrite take_0, drop_0.
    - split_ands; try done; [by apply take_blit0|].
      rewrite length_blit; [done | lia]. }
  destruct Hs' as (Hst1 & Hidx1 & Hpre1 & Htmp1 & Hb1).
  assert (Hcpos : (0 < length c)%nat) by (destruct c; [done | cbn; lia]).
  destruct rest as [|c' rest'].
  - cbn [feed concat] in *. rewrite app_nil_r in *.
    rewrite bind_ret_tt.
    rewrite (readData_cmd_at s pre c) by done.
    rewrite (readData_cmd s0 (pre ++ c)) by done.
    rewrite <- Hb1, blit_blit by (rewrite length_app in Hlen; lia).
    subst s. destruct (decide (pre = [])); [done|]. by destruct s0.
  - cbn [feed]. fold (feed (c' :: rest')). rewrite bind_unfold.
    assert (Hc' : (0 < length c')%nat).
    { apply Forall_cons in Hrest as [Hc' _]. destruct c'; [done | cbn; lia]. }
    cbn [concat] in Hlen. rewrite !length_app in Hlen.
    destruct (readData_cmd_waits s c) as (s1 & -> & Es1);
      [done | lia | unfold sizeof_trkbuf, TRKBUF_SIZE, CRC_LEN; lia
      | unfold CMDBUF_SIZE, CMD_LEN, CRC_LEN; lia |].
    change (readData c' ≫= fun _ : () => feed rest') with (feed (c' :: rest')).
    rewrite (IH s0 s1 (pre ++ c)); try done.
    + cbn [concat]. by rewrite <- !app_assoc.
    + rewrite decide_False by (intros E; apply (f_equal length) in E;
                               rewrite length_app in E; cbn in E; lia).
      rewrite Es1, Hidx1, Nat2Z.id, <- Hb1, blit_blit by lia.
      rewrite length_app, Nat2Z.inj_add.
      subst s. destruct (decide (pre = [])); by destruct s0.
    + cbn [concat]. rewrite <- app_assoc, !length_app. lia.
Qed.

(** X27: the framer does not depend on how the port cuts the stream.  At
    the start of a command or of a payload, non-empty pieces that add up
    to exactly one unit (ten bytes of command, or [TRKBUF_SIZE + CRC_LEN]
    bytes of payload) have the same outcome, delivered one by one, as the
    whole unit delivered in one burst. *)
Theorem feed_pieces_as_one_burst s chunks :
  let unit := if state s =? STATE_CMD then CMDBUF_SIZE else TRKBUF_SIZE + CRC_LEN in
  state s = STATE_CMD \/ state s = STATE_WRIT ->
  tmpBufIdx s = 0 ->
  length (tmpBuf s) = Z.to_nat sizeof_trkbuf ->
  Forall (fun c => c <> []) chunks ->
  Z.of_nat (length (concat chunks)) = unit ->
  feed chunks s = readData (concat chunks) s.
Proof.
  intros unit Hst Hidx Htmp Hall Hlen.
  assert (Hne : chunks <> []) by (intros ->; unfold unit in Hlen; by destruct (_ =? _)).
  destruct Hst as [Hst | Hst]; unfold unit in Hlen; rewrite Hst in Hlen.
  - apply (feed_cmd chunks s s []); try done.
    change (STATE_CMD =? STATE_CMD) with true in Hlen. cbv iota in Hlen.
    change (CMDBUF_SIZE) with 10 in Hlen. cbn [app]. lia.
  - change (STATE_WRIT =? STATE_CMD) with false in Hlen. cbv iota in Hlen.
    assert (Hl : length (concat chunks) = Z.to_nat sizeof_trkbuf)
      by (unfold sizeof_trkbuf; lia).
    rewrite (feed_payload chunks s []); try done.
    cbn [app]. symmetry. by apply payload_burst_run.
Qed.

(** A READ frame that arrives as three, one and six bytes. *)
Lemma feed_pieces_as_one_burst_witness :
  let s := Demo.mounted0 in
  let chunks := [[82; 69; 65]; [68]; [1; 0; 137; 0; 166; 1]] in
  feed chunks s = readData (concat chunks) s.
Proof.
  intros s chunks.
  apply (feed_pieces_as_one_burst s chunks); try by_eval.
  - left. by_eval.
  - repeat constructor; discriminate.
Defined.

Lemma feed_cmd_stalled chunks : forall s,
  state s = STATE_CMD ->
  CMDBUF_SIZE < tmpBufIdx s ->
  tmpBufIdx s + Z.of_nat (length (concat chunks)) <= sizeof_trkbuf ->
  exists s',
    feed chunks s = Ok tt s' /\
    trace s' = trace s /\ state s' = STATE_CMD /\
    tmpBufIdx s' = tmpBufIdx s + Z.of_nat (length (concat chunks)) /\
    cmdBuf s' = cmdBuf s /\ inBuf s' = inBuf s /\ outBuf s' = outBuf s /\
    statPkts s' = statPkts s /\ readPkts s' = readPkts s /\
    writePkts s' = writePkts s /\ crcErrs s' = crcErrs s /\
    world s' = world s /\ driveFile s' = driveFile s.
Proof.
  induction chunks as [|c rest IH]; intros s Hst Hidx Hroom.
  - exists s. cbn [feed concat length]. rewrite Z.add_0_r. by split_ands.
  - cbn [concat] in Hroom. rewrite length_app, Nat2Z.inj_add in Hroom.
    cbn [feed]. rewrite bind_unfold.
    unfold CMDBUF_SIZE, CMD_LEN, CRC_LEN in *.
    destruct (readData_cmd_waits s c) as (s1 & -> & Es1);
      [done | lia | lia | unfold CMDBUF_SIZE, CMD_LEN, CRC_LEN; lia |].
    destruct (IH s1) as (s' & R & H1 & H2 & H3 & H4);
      [by rewrite Es1 | rewrite Es1; psimpl; lia | rewrite Es1; psimpl; lia |].
    exists s'. split; [done|].
    rewrite H1, H3. cbn [concat]. rewrite length_app, Nat2Z.inj_add.
    rewrite Es1 in *. revert H4. psimpl. intros H4.
    split_ands; try tauto. lia.
Qed.

(** X28: an overlong burst stalls the command framer.  In [STATE_CMD] a
    frame is dispatched only when the fill count is exactly
    [CMDBUF_SIZE].  A burst that takes it past ten is stored, and from
    then on whatever arrives is only stored: no command is run, nothing is
    sent and no error is counted for as long as the bytes fit the
    buffer. *)
Theorem cmd_overshoot_stalls s first rest :
  state s = STATE_CMD ->
  0 <= tmpBufIdx s ->
  CMDBUF_SIZE < tmpBufIdx s + Z.of_nat (length first) ->
  tmpBufIdx s + Z.of_nat (length (first ++ concat rest)) <= sizeof_trkbuf ->
  exists s',
    feed (first :: rest) s = Ok tt s' /\
    emitted s s' = [] /\ state s' = STATE_CMD /\
    tmpBufIdx s' = tmpBufIdx s + Z.of_nat (length (first ++ concat rest)) /\
    cmdBuf s' = cmdBuf s /\
    statPkts s' = statPkts s /\ readPkts s' = readPkts s /\
    writePkts s' = writePkts s /\ crcErrs s' = crcErrs s /\
    world s' = world s /\ driveFile s' = driveFile s.
Proof.
  intros Hst Hidx Hover Hroom.
  rewrite length_app, Nat2Z.inj_add in *.
  cbn [feed]. rewrite bind_unfold.
  destruct (readData_cmd_waits s first) as (s1 & -> & Es1); [done | done | lia | lia |].
  destruct (feed_cmd_stalled rest s1)
    as (s' & R & H1 & H2 & H3 & H4 & H5 & H6 & H7 & H8 & H9 & H10 & H11 & H12);
    [by rewrite Es1 | rewrite Es1; psimpl; lia | rewrite Es1; psimpl; lia |].
  exists s'. split; [done|].
  rewrite Es1 in *. revert H1 H3 H4 H7 H8 H9 H10 H11 H12. psimpl. intros.
  split; [apply emitted_app; by rewrite app_nil_r|].
  split_ands; try done. lia.
Qed.

(** Eleven bytes arrive at once on the example server, then a good READ
    frame: the frame is not run. *)
Lemma cmd_overshoot_stalls_witness :
  let s := Demo.mounted0 in
  let first := [0; 82; 69; 65; 68; 1; 0; 137; 0; 166; 1] in
  let rest := [Demo.read 1 137] in
  exists s',
    feed (first :: rest) s = Ok tt s' /\
    emitted s s' = [] /\ state s' = STATE_CMD /\
    tmpBufIdx s' = tmpBufIdx s + Z.of_nat (length (first ++ concat rest)) /\
    cmdBuf s' = cmdBuf s /\
    statPkts s' = statPkts s /\ readPkts s' = readPkts s /\
    writePkts s' = writePkts s /\ crcErrs s' = crcErrs s /\
    world s' = world s /\ driveFile s' = driveFile s.
Proof.
  intros s first rest.
  apply (cmd_overshoot_stalls s first rest); by_eval.
Defined.

Lemma store_outside c p d i :
  (i < p \/ p + length d <= i)%nat -> (i < length c)%nat ->
  File.store c p d !! i = c !! i.
Proof.
  intros Hi Hc. unfold File.store, zeros.
  destruct Hi as [Hi | Hi].
  - rewrite lookup_app_l by (rewrite length_take; lia).
    by apply lookup_take_lt.
  - replace (p - length c)%nat with 0%nat by lia. cbn [replicate app].
    rewrite lookup_app_r by (rewrite length_take; lia).
    rewrite length_take, Nat.min_l by lia.
    rewrite lookup_app_r by lia.
    rewrite lookup_drop. f_equal. lia.
Qed.

Lemma length_store c p d :
  length (File.store c p d) = Nat.max (length c) (p + length d).
Proof.
  unfold File.store, zeros.
  rewrite !length_app, length_take, length_replicate, length_drop. lia.
Qed.

(** X29: a write is confined to its track.  When the buffer fills after
    a WRIT for a mounted drive and the trailer is the checksum of the
    first [trackLen] bytes, the file behind the drive takes the bytes the
    host accepts at offset [track * trackLen] and nothing else: every
    other byte of that file keeps its value, the file grows only as far
    as the write reaches, and no other file changes.  The WSTA frame
    says [STAT_OK] when all bytes were accepted and [STAT_WRITE_ERR] when
    fewer were. *)
Theorem write_track_confined s data lo hi pad f c :
  let cmd := cmdBuf s in
  let d := driveNum_of cmd in
  let off := Z.to_nat (trackNum_of cmd * Z.of_nat (length data)) in
  let done := take (wcap (world s)) data in
  let rc := if Z.of_nat (length done) =? Z.of_nat (length data)
            then STAT_OK else STAT_WRITE_ERR in
  state s = STATE_WRIT -> tmpBufIdx s = 0 ->
  length (tmpBuf s) = Z.to_nat sizeof_trkbuf ->
  length (data ++ [lo; hi] ++ pad) = Z.to_nat sizeof_trkbuf ->
  length cmd = 10%nat ->
  trackLen_of cmd = Z.of_nat (length data) ->
  0 <= d < MAX_DRIVE ->
  driveFile s !! Z.to_nat d = Some f -> isOpen f = true ->
  files (world s) !! fileName f = Some c ->
  is_Some (curTrack s !! Z.to_nat d) ->
  is_byte lo -> is_byte hi ->
  le16 lo hi = checkSum data (Z.of_nat (length data)) ->
  exists s' c',
    readData (data ++ [lo; hi] ++ pad) s = Ok tt s' /\
    files (world s') = <[fileName f := c']> (files (world s)) /\
    take (length done) (drop off c') = done /\
    (forall i, (i < off \/ off + length done <= i)%nat -> (i < length c)%nat ->
               c' !! i = c !! i) /\
    length c' = Nat.max (length c) (off + length done) /\
    sent (emitted s s') = wsta_of rc cmd /\
    state s' = STATE_CMD /\ tmpBufIdx s' = 0.
Proof.
  intros cmd d off done rc Hst Hidx Htmp Hlen Hcmd Htl Hd Hf Ho Hc Hcur Hlo Hhi Hck.
  rewrite payload_burst_run by done.
  set (s0 := set_inBuf _ _).
  destruct (writeTrack_valid_run s0 f c data lo hi pad)
    as (s1 & f' & R & Hsent & Hfiles & Hk); try done.
  rewrite bind_unfold, R. mcbn. rewrite bind_unfold. unfold modify.
  exists (set_state STATE_CMD (set_tmpBufIdx 0 s1)),
         (File.store c off done).
  split; [done|]. psimpl.
  split; [exact Hfiles|].
  split; [apply store_read|].
  split; [intros i Hi Hic; by apply store_outside|].
  split; [apply length_store|].
  split; [|done].
  assert (E : emitted s (set_state STATE_CMD (set_tmpBufIdx 0 s1)) = emitted s0 s1) by done.
  rewrite E. exact Hsent.
Qed.

(** Three bytes for track 2 of drive 0 of the example server: the
    payload after the WRIT command. *)
Lemma write_track_confined_witness :
  let s := Demo.writing in
  let data := [7; 8; 9] in
  let pad := zeros (Z.to_nat sizeof_trkbuf - 5) in
  let f := {| isOpen := true; fileName := "a.dsk"; pos := 0 |} in
  let c := zeros (Z.to_nat (2 * TRKBUF_SIZE)) in
  let cmd := cmdBuf s in
  let off := Z.to_nat (trackNum_of cmd * Z.of_nat (length data)) in
  let done := take (wcap (world s)) data in
  let rc := if Z.of_nat (length done) =? Z.of_nat (length data)
            then STAT_OK else STAT_WRITE_ERR in
  exists s' c',
    readData (data ++ [24; 0] ++ pad) s = Ok tt s' /\
    files (world s') = <[fileName f := c']> (files (world s)) /\
    take (length done) (drop off c') = done /\
    (forall i, (i < off \/ off + length done <= i)%nat -> (i < length c)%nat ->
               c' !! i = c !! i) /\
    length c' = Nat.max (length c) (off + length done) /\
    sent (emitted s s') = wsta_of rc cmd /\
    state s' = STATE_CMD /\ tmpBufIdx s' = 0.
Proof.
  intros s data pad f c.
  apply (write_track_confined s data 24 0 pad f c); try by_eval.
  vm_compute. eauto.
Defined.

(** ** Memory safety of the framer *)

Ltac wf_keep :=
  let H := fresh in
  intros ? H; unfold wf in *; psimpl;
  rewrite ?length_insert; intuition (auto; lia).

Lemma safe_ret {A} (a : A) : safe (mret a).
Proof. by intros s H. Qed.

Lemma safe_bind {A B} (m : M A) (k : A -> M B) :
  safe m -> (forall a, safe (k a)) -> safe (m ≫= k).
Proof.
  intros Hm Hk s H. rewrite bind_unfold.
  specialize (Hm s H). destruct (m s) as [a s1|f]; [|done].
  by apply Hk.
Qed.

Lemma safe_gets_bind {A B} (proj : FDC -> A) (R : A -> Prop) (k : A -> M B) :
  (forall s, wf s -> R (proj s)) -> (forall v, R v -> safe (k v)) ->
  safe (gets proj ≫= k).
Proof. intros HR Hk s H. rewrite bind_unfold. cbn [gets]. apply Hk; auto. Qed.

Lemma safe_index {A} name (arr : list A) i :
  0 <= i < Z.of_nat (length arr) \/ framer_fault (OutOfBounds name i) ->
  safe (index name arr i).
Proof.
  intros Hi s H. unfold index.
  destruct (0 <=? i) eqn:E.
  - destruct (arr !! Z.to_nat i) eqn:El; [done|].
    destruct Hi as [Hi | Hi]; [|done].
    apply lookup_ge_None_1 in El. lia.
  - destruct Hi as [Hi | Hi]; [lia | done].
Qed.

Lemma safe_modify f : (forall s, wf s -> wf (f s)) -> safe (modify f).
Proof. intros Hf s H. by apply Hf. Qed.

Lemma safe_emit e : safe (emit e).
Proof. apply safe_modify. wf_keep. Qed.

Lemma safe_when b m : safe m -> safe (when_ b m).
Proof. intros Hm. destruct b; [done | by intros s H]. Qed.

Lemma safe_incr proj set :
  (forall v s, wf s -> wf (set v s)) -> safe (incr proj set).
Proof. intros Hs. apply safe_modify. intros s H. by apply Hs. Qed.

Lemma safe_assign {A} name (proj : FDC -> list A) set i (v : A) n :
  (forall s, wf s -> length (proj s) = n) ->
  (forall s l, wf s -> length l = n -> wf (set l s)) ->
  0 <= i < Z.of_nat n \/ framer_fault (OutOfBounds name i) ->
  safe (assign name proj set i v).
Proof.
  intros Hlen Hset Hi. unfold assign.
  apply (safe_gets_bind _ (fun l => length l = n)); [done|].
  intros arr Harr. apply safe_bind.
  - apply safe_index. by rewrite Harr.
  - intros _. apply safe_modify. intros s H. apply Hset; [done|].
    by rewrite length_insert.
Qed.

Lemma safe_on_cmdBuf f :
  (forall c, length c = Z.to_nat CMDBUF_SIZE -> Forall is_byte c ->
             length (f c) = Z.to_nat CMDBUF_SIZE /\ Forall is_byte (f c)) ->
  safe (on_cmdBuf f).
Proof.
  intros Hf. apply safe_modify. intros s H.
  destruct (Hf (cmdBuf s)) as (H1 & H2); [unfold wf in H; tauto..|].
  revert H. unfold wf. psimpl. tauto.
Qed.

Lemma safe_on_outBuf f :
  (forall o, length o = Z.to_nat sizeof_trkbuf -> length (f o) = Z.to_nat sizeof_trkbuf) ->
  safe (on_outBuf f).
Proof.
  intros Hf. apply safe_modify. intros s H.
  pose proof (Hf (outBuf s)) as H1.
  revert H H1. unfold wf. psimpl. tauto.
Qed.

Lemma safe_drive_file d : 0 <= d < MAX_DRIVE -> safe (drive_file d).
Proof.
  intros Hd. unfold drive_file.
  apply (safe_gets_bind _ (fun l => length l = Z.to_nat MAX_DRIVE)).
  - intros s H. unfold wf in H. tauto.
  - intros arr Harr. apply safe_index. left. rewrite Harr. lia.
Qed.

Lemma safe_set_drive_file d f : 0 <= d < MAX_DRIVE -> safe (set_drive_file d f).
Proof.
  intros Hd. unfold set_drive_file.
  apply (safe_assign _ _ _ _ _ (Z.to_nat MAX_DRIVE)).
  - intros s H. unfold wf in H. tauto.
  - intros s l H Hl. revert H. unfold wf. psimpl. tauto.
  - left. lia.
Qed.

Lemma safe_updateTrack d t : 0 <= d -> safe (updateTrack d t).
Proof.
  intros Hd. unfold updateTrack.
  destruct (MAX_DRIVE <=? d) eqn:E.
  - apply safe_bind; [apply safe_emit | intros; apply safe_ret].
  - apply safe_bind; [apply safe_drive_file; lia|]. intros f.
    apply safe_bind.
    + apply (safe_gets_bind _ (fun l => length l = Z.to_nat MAX_DRIVE)).
      * intros s H. unfold wf in H. tauto.
      * intros arr Harr. apply safe_index. left. rewrite Harr. lia.
    + intros cur. apply safe_bind; [|intros; apply safe_ret].
      apply safe_when, safe_bind; [|intros; apply safe_emit].
      apply (safe_assign _ _ _ _ _ (Z.to_nat MAX_DRIVE)).
      * intros s H. unfold wf in H. tauto.
      * intros s l H Hl. revert H. unfold wf. psimpl. tauto.
      * left. lia.
Qed.

(** Bytes in the command buffer. *)
Lemma byte_at_byte buf i : Forall is_byte buf -> is_byte (Cmd.byte_at buf i).
Proof.
  intros H. unfold Cmd.byte_at.
  destruct (buf !! i) as [b|] eqn:E; cbn [default].
  - by apply (Forall_lookup_1 _ _ _ _ H E).
  - unfold is_byte. lia.
Qed.

Lemma param1_range cmd : Forall is_byte cmd -> 0 <= Cmd.param1 cmd < 65536.
Proof.
  intros H. unfold Cmd.param1, Cmd.word_at.
  pose proof (byte_at_byte cmd 4 H) as H4.
  pose proof (byte_at_byte cmd 5 H) as H5.
  rewrite le16_bytes by done. unfold is_byte in *. lia.
Qed.

Lemma set_word_bytes i w buf :
  length (Cmd.set_word i w buf) = length buf /\
  (Forall is_byte buf -> Forall is_byte (Cmd.set_word i w buf)).
Proof.
  unfold Cmd.set_word. split; [by rewrite !length_insert|].
  intros H. destruct (bytes16_bytes w) as (Hlo & Hhi).
  by apply Forall_insert, Hhi; apply Forall_insert.
Qed.

Lemma set_command_bytes tag buf :
  Forall is_byte tag ->
  length (Cmd.set_command tag buf) = length buf /\
  (Forall is_byte buf -> Forall is_byte (Cmd.set_command tag buf)).
Proof.
  intros Ht. unfold Cmd.set_command.
  destruct tag as [|a [|b [|c [|d [|e tag]]]]]; try done.
  apply Forall_cons in Ht as (Ha & Ht). apply Forall_cons in Ht as (Hb & Ht).
  apply Forall_cons in Ht as (Hc & Ht). apply Forall_cons in Ht as (Hd & _).
  split; [by rewrite !length_insert|].
  intros H. by repeat apply Forall_insert.
Qed.

Ltac cmd_word :=
  let c := fresh "c" in let Hl := fresh in let Hb := fresh in
  intros c Hl Hb;
  unfold Cmd.set_rdata, Cmd.set_rcode, Cmd.set_checksum;
  match goal with
  | |- context [Cmd.set_word ?i ?w c] =>
      destruct (set_word_bytes i w c) as (-> & ?); auto
  end.

Lemma safe_statUpdate : safe statUpdate.
Proof.
  unfold statUpdate.
  apply (safe_gets_bind _ (fun _ => True)); [done|]. intros cmd _.
  apply (safe_gets_bind _ (fun _ => True)); [done|]. intros sel _.
  set (new := u8 _).
  assert (Hnew : 0 <= new) by (unfold new, u8; apply Z.mod_pos_bound; lia).
  assert (Hhead : forall i, safe (gets headStatus ≫= fun arr => index "headStatus" arr i)).
  { intros i. apply (safe_gets_bind _ (fun _ => True)); [done|]. intros arr _.
    apply safe_index. right. exists i. by left. }
  assert (Hset : forall i v, safe (assign "headStatus" headStatus set_headStatus i v)).
  { intros i v. unfold assign.
    apply (safe_gets_bind _ (fun l => length l = Z.to_nat MAX_DRIVE)).
    - intros s H. unfold wf in H. tauto.
    - intros arr Harr. apply safe_bind.
      + apply safe_index. right. exists i. by left.
      + intros _. apply safe_modify. intros s H. revert H. unfold wf. psimpl.
        rewrite length_insert. tauto. }
  apply safe_bind.
  { apply safe_when, safe_bind; [apply Hhead|]. intros h.
    apply safe_bind; [|intros; apply safe_emit].
    apply safe_when, safe_bind; [apply Hset | intros; apply safe_emit]. }
  intros _. apply safe_bind.
  { apply safe_when, safe_bind; [apply Hhead|]. intros h.
    apply safe_bind.
    - apply safe_when, safe_bind; [apply Hset | intros; apply safe_emit].
    - intros _. apply safe_bind; [by apply safe_updateTrack | intros; apply safe_ret]. }
  intros _. apply safe_modify. wf_keep.
Qed.

Lemma safe_statResponse : safe statResponse.
Proof.
  unfold statResponse.
  apply safe_bind; [apply safe_on_cmdBuf; cmd_word|]. intros _.
  apply safe_bind.
  { unfold for_drives. change (seqZ 0 MAX_DRIVE) with [0; 1; 2; 3]. cbn [foldr].
    repeat (apply safe_bind;
            [apply safe_bind;
             [apply safe_drive_file; unfold MAX_DRIVE; lia
             |intros f; apply safe_on_cmdBuf; cmd_word]
            |intros _]).
    apply safe_ret. }
  intros _.
  apply safe_bind; [apply safe_on_cmdBuf; cmd_word|]. intros _.
  apply safe_bind; [apply safe_on_cmdBuf; cmd_word|]. intros _.
  apply (safe_gets_bind _ (fun _ => True)); [done|]. intros cmd _.
  apply safe_bind; [apply safe_emit|]. intros _.
  apply safe_bind; [apply safe_emit|]. intros _.
  apply (safe_gets_bind _ (fun _ => True)); [done|]. intros c _.
  apply safe_bind.
  { apply safe_when, safe_bind; [apply safe_modify; wf_keep | intros; apply safe_emit]. }
  intros _.
  apply safe_bind; [apply safe_incr; intros v; wf_keep | intros; apply safe_ret].
Qed.

Lemma read_length w n f :
  0 <= n -> (length (File.read w n f).1.2 <= Z.to_nat n)%nat.
Proof.
  intros Hn. unfold File.read.
  destruct (isOpen f); [|cbn; lia].
  destruct (files w !! fileName f); [|cbn; lia].
  cbn [fst snd]. rewrite length_take. lia.
Qed.

Lemma cmd_bytes s : wf s -> Forall is_byte (cmdBuf s).
Proof. unfold wf. tauto. Qed.

Lemma safe_readTrack : safe readTrack.
Proof.
  unfold readTrack.
  apply (safe_gets_bind _ (Forall is_byte)); [apply cmd_bytes|]. intros cmd Hcmd.
  pose proof (driveNum_of_range cmd (param1_range cmd Hcmd)) as Hd.
  pose proof (clamp_trackLen_range _ (trackLen_of_range cmd)) as Hl.
  cbv zeta.
  destruct (MAX_DRIVE <=? driveNum_of cmd) eqn:E.
  { apply safe_bind; [apply safe_emit | intros; apply safe_ret]. }
  apply safe_bind; [apply safe_updateTrack; lia|]. intros t.
  apply safe_bind; [apply safe_drive_file; lia|]. intros f.
  apply (safe_gets_bind _ (fun _ => True)); [done|]. intros w _.
  pose proof (read_length w (clamp_trackLen (trackLen_of cmd))
                (File.seek (t * clamp_trackLen (trackLen_of cmd)) f) (proj1 Hl)) as Hr.
  destruct (File.read _ _ _) as [[n data] f']. cbn [fst snd] in Hr.
  apply safe_bind; [apply safe_set_drive_file; lia|]. intros _.
  apply safe_bind.
  { apply safe_on_outBuf. intros o Ho. rewrite length_blit; [done|].
    rewrite Ho. unfold sizeof_trkbuf, TRKBUF_SIZE, CRC_LEN in *. lia. }
  intros _.
  apply (safe_gets_bind _ (fun _ => True)); [done|]. intros out _.
  apply safe_bind; [apply safe_emit|]. intros _.
  apply safe_bind; [apply safe_emit|]. intros _.
  apply safe_bind; [apply safe_incr; intros v; wf_keep|]. intros _.
  apply safe_bind; [apply safe_emit | intros; apply safe_ret].
Qed.

Lemma safe_blit_cmd n :
  (n <= 10)%nat ->
  forall cmd, length cmd = Z.to_nat CMDBUF_SIZE ->
  safe (on_outBuf (fun out => blit out 0 (take n cmd))).
Proof.
  intros Hn cmd Hc. apply safe_on_outBuf. intros o Ho. rewrite length_blit; [done|].
  rewrite length_take, Ho.
  change (Z.to_nat sizeof_trkbuf) with (Z.to_nat 4386). lia.
Qed.

Lemma cmd_shape s :
  wf s -> length (cmdBuf s) = Z.to_nat CMDBUF_SIZE /\ Forall is_byte (cmdBuf s).
Proof. unfold wf. tauto. Qed.

Lemma safe_out_word (g : list Z -> list Z) :
  (forall o, exists i w, g o = Cmd.set_word i w o) -> safe (on_outBuf g).
Proof.
  intros Hg. apply safe_on_outBuf. intros o Ho.
  destruct (Hg o) as (i & w & ->). by rewrite (proj1 (set_word_bytes i w o)).
Qed.

Lemma safe_writeResponse : safe writeResponse.
Proof.
  unfold writeResponse.
  apply (safe_gets_bind _ (fun c => length c = Z.to_nat CMDBUF_SIZE /\ Forall is_byte c));
    [apply cmd_shape|]. intros cmd (Hlen & Hcmd).
  pose proof (driveNum_of_range cmd (param1_range cmd Hcmd)) as Hd.
  cbv zeta.
  destruct (MAX_DRIVE <=? driveNum_of cmd) eqn:E.
  { apply safe_bind; [apply safe_emit | intros; apply safe_ret]. }
  apply safe_bind; [by apply safe_blit_cmd; [vm_compute; lia|]|]. intros _.
  apply safe_bind; [apply safe_drive_file; lia|]. intros f.
  apply safe_bind; [apply safe_out_word; intros o; by eexists _, _|]. intros _.
  apply safe_bind; [apply safe_out_word; intros o; by eexists _, _|]. intros _.
  apply (safe_gets_bind _ (fun _ => True)); [done|]. intros out _.
  apply safe_bind; [apply safe_emit|]. intros _.
  apply safe_bind; [apply safe_emit | intros; apply safe_ret].
Qed.

Lemma safe_writeTrack : safe writeTrack.
Proof.
  unfold writeTrack.
  apply (safe_gets_bind _ (Forall is_byte)); [apply cmd_bytes|]. intros cmd Hcmd.
  pose proof (driveNum_of_range cmd (param1_range cmd Hcmd)) as Hd.
  cbv zeta.
  apply (safe_gets_bind _ (fun _ => True)); [done|]. intros buf _.
  apply safe_bind; [apply safe_index; right; eexists; by right|]. intros lo.
  apply safe_bind; [apply safe_index; right; eexists; by right|]. intros hi.
  destruct (MAX_DRIVE <=? driveNum_of cmd) eqn:E.
  { apply safe_bind; [apply safe_emit | intros; apply safe_ret]. }
  apply safe_bind; [apply safe_drive_file; lia|]. intros f.
  apply safe_bind.
  { destruct (negb (isOpen f)); [apply safe_on_cmdBuf; cmd_word|].
    destruct (negb (_ =? _)).
    - apply safe_bind; [apply safe_on_cmdBuf; cmd_word|]. intros _.
      apply safe_incr. intros v. wf_keep.
    - apply safe_bind; [apply safe_updateTrack; lia|]. intros t.
      apply safe_bind; [apply safe_drive_file; lia|]. intros f1.
      apply (safe_gets_bind _ (fun _ => True)); [done|]. intros w _.
      destruct (File.write _ _ _) as [[n w'] f'].
      apply safe_bind; [apply safe_modify; wf_keep|]. intros _.
      apply safe_bind; [apply safe_set_drive_file; lia|]. intros _.
      destruct (negb (_ =? _)); apply safe_on_cmdBuf; cmd_word. }
  intros _.
  apply safe_bind.
  { apply safe_on_cmdBuf. intros c Hl Hb.
    destruct (set_command_bytes Cmd.WSTA c) as (-> & ?); [|by auto].
    unfold Cmd.WSTA. repeat (apply Forall_cons; split; [unfold is_byte; lia|]).
    apply Forall_nil_2. }
  intros _.
  apply safe_bind; [apply safe_on_cmdBuf; cmd_word|]. intros _.
  apply (safe_gets_bind _ (fun c => length c = Z.to_nat CMDBUF_SIZE /\ Forall is_byte c));
    [apply cmd_shape|]. intros cmd' (Hlen' & _).
  apply safe_bind; [by apply safe_blit_cmd; [vm_compute; lia|]|]. intros _.
  apply (safe_gets_bind _ (fun _ => True)); [done|]. intros out _.
  apply safe_bind; [apply safe_emit|]. intros _.
  apply safe_bind; [apply safe_incr; intros v; wf_keep | intros; apply safe_ret].
Qed.

Lemma safe_dispatch : safe dispatch.
Proof.
  unfold dispatch.
  apply (safe_gets_bind _ (fun _ => True)); [done|]. intros cmd _.
  destruct (_ =? _); [|apply safe_incr; intros v; wf_keep].
  destruct (Cmd.is_tag Cmd.STAT cmd).
  { apply safe_bind; [apply safe_incr; intros v; wf_keep|]. intros _.
    apply safe_bind; [apply safe_statUpdate|]. intros _.
    apply safe_bind; [apply safe_statResponse | intros; apply safe_ret]. }
  destruct (Cmd.is_tag Cmd.READ cmd).
  { apply safe_bind; [apply safe_incr; intros v; wf_keep|]. intros _.
    apply safe_bind; [apply safe_readTrack | intros; apply safe_ret]. }
  destruct (Cmd.is_tag Cmd.WRIT cmd); [|apply safe_ret].
  apply safe_bind; [apply safe_writeResponse|]. intros _.
  apply safe_bind; [apply safe_incr; intros v; wf_keep|]. intros _.
  apply safe_modify. wf_keep.
Qed.

Lemma blit_bytes dst off src :
  Forall is_byte dst -> Forall is_byte src -> Forall is_byte (blit dst off src).
Proof.
  intros Hd Hs. unfold blit.
  apply Forall_app. split; [by apply Forall_take|].
  apply Forall_app. split; [done | by apply Forall_drop].
Qed.

Lemma safe_readData avail : Forall is_byte avail -> safe (readData avail).
Proof.
  intros Hav. unfold readData.
  apply (safe_gets_bind _ (fun i => 0 <= i <= sizeof_trkbuf));
    [intros s H; unfold wf in H; tauto|]. intros idx Hidx.
  cbv zeta. rewrite u64_room by done.
  destruct (_ <=? _) eqn:E.
  - apply (safe_gets_bind _ (fun t => length t = Z.to_nat sizeof_trkbuf /\ Forall is_byte t));
      [intros s H; unfold wf in H; tauto|]. intros tmp (Htl & Htb).
    destruct ((0 <=? idx) && (idx + Z.of_nat (length avail) <=? sizeof_trkbuf)) eqn:E2; [|lia].
    apply safe_bind.
    { apply safe_modify. intros s H.
      assert (Hb : length (blit tmp (Z.to_nat idx) avail) = Z.to_nat sizeof_trkbuf).
      { rewrite length_blit; [done|]. rewrite Htl. lia. }
      pose proof (blit_bytes tmp (Z.to_nat idx) avail Htb Hav).
      revert H. unfold wf. psimpl. tauto. }
    intros _. apply safe_bind.
    { apply safe_when, safe_modify. wf_keep. }
    intros _.
    apply (safe_gets_bind _ (fun _ => True)); [done|]. intros idx' _.
    apply (safe_gets_bind _ (fun _ => True)); [done|]. intros st _.
    destruct (st =? STATE_CMD).
    + apply safe_when.
      apply (safe_gets_bind _ (fun t => length t = Z.to_nat sizeof_trkbuf /\ Forall is_byte t));
        [intros s H; unfold wf in H; tauto|]. intros tmp' (Htl' & Htb').
      apply safe_bind.
      { apply safe_modify. intros s H.
        assert (Hc : length (take (Z.to_nat CMDBUF_SIZE) tmp') = Z.to_nat CMDBUF_SIZE).
        { rewrite length_take, Htl'. vm_compute. reflexivity. }
        pose proof (Forall_take is_byte (Z.to_nat CMDBUF_SIZE) _ Htb').
        revert H. unfold wf. psimpl. tauto. }
      intros _. apply safe_bind; [apply safe_dispatch|]. intros _.
      apply safe_modify. wf_keep.
    + destruct (st =? STATE_WRIT); [|apply safe_ret].
      apply safe_when.
      apply (safe_gets_bind _ (fun t => length t = Z.to_nat sizeof_trkbuf /\ Forall is_byte t));
        [intros s H; unfold wf in H; tauto|]. intros tmp' (Htl' & Htb').
      apply safe_bind.
      { apply safe_modify. intros s H.
        assert (Hc : length (take (Z.to_nat sizeof_trkbuf) tmp') = Z.to_nat sizeof_trkbuf).
        { rewrite length_take, Htl'. lia. }
        revert H. unfold wf. psimpl. tauto. }
      intros _. apply safe_bind; [apply safe_writeTrack|]. intros _.
      apply safe_bind; [apply safe_modify; wf_keep | intros _; apply safe_modify; wf_keep].
  - apply safe_bind; [apply safe_emit|]. intros _.
    apply safe_bind; [apply safe_modify; wf_keep | intros; apply safe_emit].
Qed.

Lemma safe_closePort : safe closePort.
Proof.
  unfold closePort, set_port_open.
  apply (safe_gets_bind _ (fun _ => True)); [done|]. intros p _.
  apply safe_when, safe_bind; [apply safe_modify; wf_keep|]. intros _.
  apply safe_bind; [apply safe_modify; wf_keep | intros; apply safe_emit].
Qed.

Lemma safe_setBaud baudRate : safe (setBaud baudRate).
Proof.
  unfold setBaud.
  apply (safe_gets_bind _ (fun _ => True)); [done|]. intros w _.
  apply (safe_gets_bind _ (fun _ => True)); [done|]. intros p _.
  cbv zeta. apply safe_bind; [|intros; apply safe_ret].
  apply safe_when, safe_bind; [apply safe_emit | intros; apply safe_emit].
Qed.

Lemma safe_openPort name baudRate : safe (openPort name baudRate).
Proof.
  unfold openPort, set_port_open.
  apply (safe_gets_bind _ (fun _ => True)); [done|]. intros p _.
  apply safe_bind; [apply safe_when, safe_closePort|]. intros _.
  apply safe_bind; [apply safe_modify; wf_keep|]. intros _.
  apply (safe_gets_bind _ (fun _ => True)); [done|]. intros w _.
  destruct (portOk w name); [|apply safe_ret].
  apply safe_bind; [apply safe_modify; wf_keep|]. intros _.
  apply safe_bind; [apply safe_setBaud|]. intros r.
  destruct (negb r).
  - apply safe_bind; [apply safe_closePort | intros; apply safe_ret].
  - apply safe_bind; [apply safe_modify; wf_keep|]. intros _.
    apply safe_bind; [apply safe_emit | intros; apply safe_ret].
Qed.

Lemma safe_timeoutSlot : safe timeoutSlot.
Proof.
  unfold timeoutSlot.
  apply (safe_gets_bind _ (fun _ => True)); [done|]. intros p _.
  apply safe_bind; [|intros _; apply safe_modify; wf_keep].
  destruct (sp_isOpen p); [|apply safe_emit].
  apply safe_bind; [apply safe_emit|]. intros _.
  apply safe_bind; [apply safe_modify; wf_keep|]. intros _.
  apply (safe_gets_bind _ (fun _ => True)); [done|]. intros c _.
  apply safe_when, safe_bind; [apply safe_modify; wf_keep | intros; apply safe_emit].
Qed.

Lemma safe_maxTrack_index d :
  0 <= d < MAX_DRIVE -> safe (gets maxTrack ≫= fun arr => index "maxTrack" arr d).
Proof.
  intros Hd. apply (safe_gets_bind _ (fun l => length l = Z.to_nat MAX_DRIVE)).
  - intros s H. unfold wf in H. tauto.
  - intros arr Harr. apply safe_index. left. rewrite Harr. lia.
Qed.

Lemma safe_mountDisk d filename : 0 <= d < MAX_DRIVE -> safe (mountDisk d filename).
Proof.
  intros Hd. unfold mountDisk.
  apply safe_bind; [by apply safe_drive_file|]. intros f.
  apply safe_bind; [by apply safe_when, safe_set_drive_file|]. intros _.
  apply safe_bind; [by apply safe_drive_file|]. intros f1.
  apply safe_bind; [by apply safe_set_drive_file|]. intros _.
  apply safe_bind; [by apply safe_drive_file|]. intros f2.
  apply (safe_gets_bind _ (fun _ => True)); [done|]. intros w _.
  destruct (File.open w f2) as [r f']. 
  apply safe_bind; [by apply safe_set_drive_file|]. intros _.
  destruct r; [|apply safe_ret].
  destruct (geometry _) as [tracks size].
  apply safe_bind.
  { apply (safe_assign _ _ _ _ _ (Z.to_nat MAX_DRIVE)).
    - intros s H. unfold wf in H. tauto.
    - intros s l H Hl. revert H. unfold wf. psimpl. tauto.
    - left. lia. }
  intros _. apply safe_bind; [apply safe_updateTrack; lia|]. intros _.
  apply safe_bind; [by apply safe_maxTrack_index|]. intros t.
  apply safe_bind; [apply safe_emit | intros; apply safe_ret].
Qed.

Lemma safe_unmountDisk d : 0 <= d < MAX_DRIVE -> safe (unmountDisk d).
Proof.
  intros Hd. unfold unmountDisk.
  apply safe_bind; [by apply safe_drive_file|]. intros f.
  apply safe_bind; [|intros; apply safe_emit].
  apply safe_when, safe_bind; [apply safe_updateTrack; lia|]. intros _.
  apply safe_bind; [by apply safe_drive_file|]. intros f1.
  by apply safe_set_drive_file.
Qed.

Lemma wf_new w mem : buffers_ok mem -> wf (FDC_new w mem).
Proof.
  unfold buffers_ok, wf, FDC_new. psimpl. rewrite !length_replicate.
  intros H. split_ands; first [tauto | reflexivity | vm_compute; discriminate].
Qed.

Lemma safe_call c : call_ok c -> safe (call c).
Proof.
  destruct c; cbn [call call_ok]; intros H.
  - apply safe_bind; [apply safe_openPort | intros; apply safe_ret].
  - apply safe_closePort.
  - apply safe_bind; [apply safe_setBaud | intros; apply safe_ret].
  - apply safe_bind; [by apply safe_mountDisk | intros; apply safe_ret].
  - by apply safe_unmountDisk.
  - apply safe_timeoutSlot.
  - by apply safe_readData.
Qed.

(** X30: the faults of the server are the two known ones.  On a server
    as the constructor leaves it, any sequence of calls (opening and
    closing the port, setting the baud rate, mounting and unmounting
    drives 0 to 3, the timeout, and [readData] with whatever bytes the
    port delivers) either runs through, and then the arrays and buffers
    have their declared sizes and the fill count of [tmpBuf] is within
    the buffer, or stops at an access to [headStatus] (the STAT branch) or
    to [inBuf] (the trailer read of [writeTrack]).  In particular the
    guard of [readData] keeps every write to [tmpBuf] inside the buffer,
    and [driveFile], [curTrack] and [maxTrack] are only indexed with 0
    to 3. *)
Theorem calls_safe w mem cs :
  buffers_ok mem ->
  Forall call_ok cs ->
  match calls cs (FDC_new w mem) with
  | Ok _ s' => wf s'
  | Crash f => framer_fault f
  end.
Proof.
  intros Hmem Hcs.
  assert (Hs : safe (calls cs)).
  { induction Hcs as [|c rest Hc Hrest IH]; cbn [calls].
    - apply safe_ret.
    - apply safe_bind; [by apply safe_call | intros _; exact IH]. }
  apply Hs. by apply wf_new.
Qed.

(** The example server: open the port, mount drive 0, a STAT frame in
    two pieces, a timeout. *)
Lemma calls_safe_witness :
  let cs := [CallOpenPort "ttyUSB0" 403200; CallMountDisk 0 "a.dsk";
             CallReadData [83; 84; 65; 84]; CallReadData [0; 0; 0; 0; 60; 1];
             CallTimeout] in
  match calls cs (FDC_new Demo.host Demo.clear) with
  | Ok _ s' => wf s'
  | Crash f => framer_fault f
  end.
Proof.
  intros cs.
  apply (calls_safe Demo.host Demo.clear cs).
  - unfold buffers_ok, Demo.clear, zeros. cbn [cmd0 tmp0 in0 out0].
    rewrite !length_replicate.
    split_ands; try done; apply Forall_replicate; unfold is_byte; lia.
  - unfold cs. repeat (apply Forall_cons; split; [cbn [call_ok]|]);
      try apply Forall_nil_2; try done;
      try (unfold MAX_DRIVE; lia);
      repeat (apply Forall_cons; split; [unfold is_byte; lia|]); apply Forall_nil_2.
Defined.
